(** * UnityUnpacker: a shallow embedding of the unpacker and its properties

    The program unpacks a Unity package (a gzip-compressed tar archive whose
    entries are grouped in per-asset folders) into a conventional file tree.
    The repository holds two variants of the same [package main]:

    - the record-based variant ([UnityAsset], [extractTarGz] returning asset
      records, [moveFile], [reconstructStructure], [main]), embedded at the
      top level of this file;
    - the directory-walking variant ([main.go]: [extractTarGz] writing
      every regular entry below a staging directory, [reconstructStructure]
      walking that directory, [copyFile], [main]), embedded in module
      [TreeVariant]; its [main] derives the output directory and defers the
      removal of the staging directory in the same way.

    The Go standard library is not part of the repository.  The functions
    the program calls are modelled here from their documented behaviour on a
    Unix system (path separator [/], no volume names, no symbolic links, no
    permission faults, no limit on the length of a name) in the modules
    [strings], [filepath], [os], [io] and [fmt], so that call sites read as
    in the source.  The calls of [os] take a path to name what its cleaned
    form names: [x/..] is resolved as [filepath.Clean] resolves it, and a
    NUL byte is a byte like any other; [noNul] and [filepath.Clean p = p]
    say of a path that the calls treat it as the system does. *)

From Stdlib Require Import Strings.String Strings.Ascii Strings.Byte.
From Stdlib Require Import Numbers.DecimalString.
From stdpp Require Import base option list strings gmap fin_maps.

Local Open Scope string_scope.
Local Open Scope list_scope.

(** ** Package [strings] *)

Module strings.

(** [strings.SplitN(s, sep, n)] for a one-character separator: at most [n]
    pieces, the last one holding the unsplit remainder. *)
Fixpoint cut (sep : ascii) (s : string) : option (string * string) :=
  match s with
  | EmptyString => None
  | String c s' =>
      if Ascii.eqb c sep then Some (EmptyString, s')
      else match cut sep s' with
           | Some (a, b) => Some (String c a, b)
           | None => None
           end
  end.

Fixpoint SplitN_aux (fuel : nat) (sep : ascii) (s : string) (n : nat) : list string :=
  match n with
  | O => []
  | S O => [s]
  | S n' =>
      match fuel with
      | O => [s]
      | S fuel' =>
          match cut sep s with
          | Some (a, b) => a :: SplitN_aux fuel' sep b n'
          | None => [s]
          end
      end
  end.

Definition SplitN (s : string) (sep : ascii) (n : nat) : list string :=
  SplitN_aux (String.length s) sep s n.

(** [strings.Split(s, sep)]: all the pieces. *)
Fixpoint Split (s : string) (sep : ascii) : list string :=
  match s with
  | EmptyString => [EmptyString]
  | String c s' =>
      if Ascii.eqb c sep then EmptyString :: Split s' sep
      else match Split s' sep with
           | h :: t => String c h :: t
           | [] => [String c EmptyString]
           end
  end.

(** [strings.Join(elems, sep)]. *)
Fixpoint Join (elems : list string) (sep : string) : string :=
  match elems with
  | [] => EmptyString
  | [e] => e
  | e :: rest => e +:+ sep +:+ Join rest sep
  end.

Fixpoint HasPrefix (s prefix : string) : bool :=
  match prefix, s with
  | EmptyString, _ => true
  | String p prefix', String c s' => Ascii.eqb c p && HasPrefix s' prefix'
  | String _ _, EmptyString => false
  end.

Definition HasSuffix (s suffix : string) : bool :=
  (String.length suffix <=? String.length s)%nat
  && String.eqb (String.substring (String.length s - String.length suffix)
                                  (String.length suffix) s) suffix.

(** [strings.TrimSuffix(s, suffix)]. *)
Definition TrimSuffix (s suffix : string) : string :=
  if HasSuffix s suffix
  then String.substring 0 (String.length s - String.length suffix) s
  else s.

End strings.

(** ** Package [path/filepath] (Unix) *)

Module filepath.

Definition Separator : ascii := "/"%char.

(** A lexically resolved path: whether it starts at the root, and its
    components.  In a resolved path no component is empty or [.], and
    [..] components occur only at the front of an unrooted path. *)
Definition loc : Type := bool * list string.

Definition rooted (path : string) : bool :=
  match path with
  | String c _ => Ascii.eqb c Separator
  | EmptyString => false
  end.

(** The element loop of [Clean].  [out] is the output written so far, last
    component first: an empty element or [.] is dropped, [..] removes the
    last component when there is one to remove, is dropped at the root and
    is kept in front of an unrooted path. *)
Fixpoint clean_loop (isRooted : bool) (out : list string) (elems : list string) : list string :=
  match elems with
  | [] => out
  | e :: elems' =>
      if String.eqb e "" then clean_loop isRooted out elems'
      else if String.eqb e "." then clean_loop isRooted out elems'
      else if String.eqb e ".." then
        match out with
        | top :: below =>
            if String.eqb top ".." then clean_loop isRooted (".." :: out) elems'
            else clean_loop isRooted below elems'
        | [] =>
            if isRooted then clean_loop isRooted [] elems'
            else clean_loop isRooted [".."] elems'
        end
      else clean_loop isRooted (e :: out) elems'
  end.

Definition resolve (path : string) : loc :=
  (rooted path, rev (clean_loop (rooted path) [] (strings.Split path Separator))).

Definition render (l : loc) : string :=
  match l with
  | (true, elems) => "/" +:+ strings.Join elems "/"
  | (false, []) => "."
  | (false, elems) => strings.Join elems "/"
  end.

(** [filepath.Clean(path)]: the shortest path name equivalent to [path] by
    purely lexical processing. *)
Definition Clean (path : string) : string := render (resolve path).

(** [filepath.Join(elem...)]: leading empty elements are ignored, the rest
    is joined with the separator and cleaned; all empty gives the empty
    string. *)
Fixpoint Join (elem : list string) : string :=
  match elem with
  | [] => ""
  | e :: rest =>
      if String.eqb e "" then Join rest
      else Clean (strings.Join (e :: rest) "/")
  end.

(** [path[:i+1]] for [i] the index of the last separator of [path]. *)
Fixpoint upto_last_separator (path : string) : string :=
  match path with
  | EmptyString => EmptyString
  | String c path' =>
      match strings.cut Separator path with
      | Some _ => String c (upto_last_separator path')
      | None => EmptyString
      end
  end.

(** [filepath.Dir(path)]: all but the last element of [path], cleaned. *)
Definition Dir (path : string) : string := Clean (upto_last_separator path).

Fixpoint strip_trailing_separators (path : string) : string :=
  match path with
  | EmptyString => EmptyString
  | String c path' =>
      match strip_trailing_separators path' with
      | EmptyString => if Ascii.eqb c Separator then EmptyString else String c EmptyString
      | rest => String c rest
      end
  end.

(** [filepath.Base(path)]: the last element of [path]. *)
Definition Base (path : string) : string :=
  if String.eqb path "" then "."
  else
    match List.last (strings.Split (strip_trailing_separators path) Separator) "" with
    | EmptyString => "/"
    | name => name
    end.

(** The suffix of [s] that starts at its last dot, if [s] has a dot. *)
Fixpoint from_last_dot (s : string) : option string :=
  match s with
  | EmptyString => None
  | String c s' =>
      match from_last_dot s' with
      | Some ext => Some ext
      | None => if Ascii.eqb c "."%char then Some s else None
      end
  end.

(** [filepath.Ext(path)]: the suffix beginning at the final dot of the
    final element of [path]; empty if there is no dot. *)
Definition Ext (path : string) : string :=
  match from_last_dot (List.last (strings.Split path Separator) "") with
  | Some ext => ext
  | None => ""
  end.

End filepath.

(** ** The operating system: files, directories, the process's output *)

Definition nl : string := String (ascii_of_nat 10) EmptyString.

(** A tar entry as the tar reader delivers it: the header's name and the
    bytes of the entry's body.  (The record-based variant never looks at the
    header's type flag.) *)
Record tar_entry := TarEntry { Name : string; Body : list byte }.

(** Where a compressed archive stops.  Either the tar end marker is reached,
    or the stream breaks: the compressed data is cut off or damaged
    ([GzipDamaged]) or the decompressed bytes are not a tar header
    ([TarDamaged]).  A break with [Some e] happens inside the body of [e]:
    the header of [e] is delivered, then [Body e], then the read fails; with
    [None] it happens where the next header is expected. *)
Inductive damage := GzipDamaged | TarDamaged.
Inductive stream_end :=
| EndOfArchive
| BrokenAt (cause : damage) (pending : option tar_entry).

(** What a regular file holds.  A gzip-compressed tar archive is given by what
    the gzip and tar readers deliver from it; [Plain] is a file that holds
    these bytes and whose gzip header the gzip reader rejects. *)
Inductive content :=
| Plain (data : list byte)
| Package (entries : list tar_entry) (fin : stream_end).

Inductive node :=
| Directory
| File (c : content).

Inductive errno := ENOENT | ENOTDIR | EISDIR | EEXIST | EXDEV | EINVAL | ENOTEMPTY | EBUSY.

(** Go [error] values: the library's errors, and [fmt.Errorf("msg: %w", err)]. *)
Inductive error :=
| PathError (op path : string) (e : errno)
| LinkError (op old new : string) (e : errno)
| ErrEOF
| ErrUnexpectedEOF
| ErrGzipHeader
| ErrTarHeader
| Errorf (msg : string) (cause : error).

Definition errno_text (e : errno) : string :=
  match e with
  | ENOENT => "no such file or directory"
  | ENOTDIR => "not a directory"
  | EISDIR => "is a directory"
  | EEXIST => "file exists"
  | EXDEV => "invalid cross-device link"
  | EINVAL => "invalid argument"
  | ENOTEMPTY => "directory not empty"
  | EBUSY => "device or resource busy"
  end.

(** The [Error()] method. *)
Fixpoint Error (err : error) : string :=
  match err with
  | PathError op path e => op +:+ " " +:+ path +:+ ": " +:+ errno_text e
  | LinkError op old new e => op +:+ " " +:+ old +:+ " " +:+ new +:+ ": " +:+ errno_text e
  | ErrEOF => "EOF"
  | ErrUnexpectedEOF => "unexpected EOF"
  | ErrGzipHeader => "gzip: invalid header"
  | ErrTarHeader => "archive/tar: invalid tar header"
  | Errorf msg cause => msg +:+ ": " +:+ Error cause
  end.

(** The operating-system calls the program makes, as attempted. *)
Inductive call :=
| CallMkdirAll (path : string)
| CallMkdirTemp (dir pattern : string)
| CallOpen (path : string)
| CallCreate (path : string)
| CallCopy (dst : string)
| CallSync (path : string)
| CallClose (path : string)
| CallRename (oldpath newpath : string)
| CallRemoveAll (path : string).

Record world := World {
  nodes : gmap filepath.loc node;    (* the file tree, by resolved path *)
  volume : filepath.loc -> nat;      (* the storage volume a path lies on *)
  entropy : list nat;                (* the draws of the random-name source *)
  stdout : list string;              (* what the process printed, in order *)
  calls : list call                  (* the system calls made, in order *)
}.

Definition with_nodes (m : gmap filepath.loc node) (w : world) : world :=
  World m (volume w) (entropy w) (stdout w) (calls w).
Definition with_entropy (r : list nat) (w : world) : world :=
  World (nodes w) (volume w) r (stdout w) (calls w).
Definition printed (line : string) (w : world) : world :=
  World (nodes w) (volume w) (entropy w) (stdout w ++ [line]) (calls w).
Definition called (c : call) (w : world) : world :=
  World (nodes w) (volume w) (entropy w) (stdout w) (calls w ++ [c]).

(** A Go function that returns [(A, error)], run against the world. *)
Inductive result (A : Type) :=
| Ok (a : A)
| Err (e : error).
Arguments Ok {A} a.
Arguments Err {A} e.

Definition IO (A : Type) : Type := world -> result A * world.

Definition ret {A} (a : A) : IO A := fun w => (Ok a, w).
Definition fail {A} (e : error) : IO A := fun w => (Err e, w).
Definition bind {A B} (m : IO A) (k : A -> IO B) : IO B :=
  fun w => match m w with
           | (Ok a, w') => k a w'
           | (Err e, w') => (Err e, w')
           end.

(** [if err != nil { return ..., fmt.Errorf("msg: %w", err) }] *)
Definition wrap {A} (msg : string) (m : IO A) : IO A :=
  fun w => match m w with
           | (Ok a, w') => (Ok a, w')
           | (Err e, w') => (Err (Errorf msg e), w')
           end.

Declare Scope io_scope.
Delimit Scope io_scope with io.
Notation "x <- m ;; k" := (bind m (fun x => k))
  (at level 100, m at next level, right associativity) : io_scope.
Notation "m ;;; k" := (bind m (fun _ => k))
  (at level 100, right associativity) : io_scope.
Local Open Scope io_scope.

(** ** Package [os] *)

Module os.

Import filepath.

(** The directories that exist whatever the tree holds: the root, the
    working directory and the working directory's ancestors. *)
Definition implicit_dir (l : loc) : bool :=
  forallb (fun e => String.eqb e "..") (snd l).

(** [os.Stat]: what is at a resolved path, if anything. *)
Definition stat (m : gmap loc node) (l : loc) : option node :=
  if implicit_dir l then Some Directory else m !! l.

(** The directory that holds [l]. *)
Definition parent (l : loc) : loc :=
  if implicit_dir l then (if fst l then l else (false, snd l ++ [".."]))
  else (fst l, removelast (snd l)).

(** [l] lies at or below [top]. *)
Definition within (top l : loc) : bool :=
  Bool.eqb (fst top) (fst l)
  && bool_decide (take (length (snd top)) (snd l) = snd top).

(** The path [l], which lies at or below [old], moved below [new]. *)
Definition rebase (old new l : loc) : loc :=
  (fst new, snd new ++ drop (length (snd old)) (snd l)).

(** [MkdirAll] after the empty-path check, on the reversed components of
    the path: nothing to do at a directory, an error at a file, else the
    parent first and then the directory itself. *)
Fixpoint mkdir_all (isRooted : bool) (up : list string) (m : gmap loc node)
  : errno + gmap loc node :=
  match stat m (isRooted, rev up) with
  | Some Directory => inr m
  | Some (File _) => inl ENOTDIR
  | None =>
      match up with
      | [] => inr m
      | _ :: up' =>
          match mkdir_all isRooted up' m with
          | inr m' => inr (<[(isRooted, rev up) := Directory]> m')
          | inl e => inl e
          end
      end
  end.

(** [os.MkdirAll(path, perm)].  (Where a regular file is in the way the
    error of the call names the path of that file; here it names [path].) *)
Definition MkdirAll (path : string) : IO unit := fun w =>
  let w := called (CallMkdirAll path) w in
  if String.eqb path "" then (Err (PathError "mkdir" path ENOENT), w)
  else
    match mkdir_all (fst (resolve path)) (rev (snd (resolve path))) (nodes w) with
    | inr m => (Ok tt, with_nodes m w)
    | inl e => (Err (PathError "mkdir" path e), w)
    end.

(** One of the components of [l] above its last is a regular file. *)
Definition below_file (m : gmap loc node) (l : loc) : bool :=
  existsb (fun k => match m !! ((fst l, take k (snd l)) : loc) with
                    | Some (File _) => true
                    | _ => false
                    end)
          (seq 0 (length (snd l))).

(** The error number of a path at which there is nothing. *)
Definition missing (m : gmap loc node) (l : loc) : errno :=
  if below_file m l then ENOTDIR else ENOENT.

(** [os.Mkdir(path, perm)], without logging. *)
Definition mkdir (path : string) (m : gmap loc node) : errno + gmap loc node :=
  if String.eqb path "" then inl ENOENT
  else
    let l := resolve path in
    match stat m l with
    | Some _ => inl EEXIST
    | None =>
        match stat m (parent l) with
        | Some Directory => inr (<[l := Directory]> m)
        | Some (File _) => inl ENOTDIR
        | None => inl (missing m (parent l))
        end
    end.

(** The prefix and suffix of a [MkdirTemp] pattern: split at the last [*]. *)
Fixpoint prefixAndSuffix (pattern : string) : string * option string :=
  match pattern with
  | EmptyString => (EmptyString, None)
  | String c rest =>
      match prefixAndSuffix rest with
      | (p, Some s) => (String c p, Some s)
      | (p, None) =>
          if Ascii.eqb c "*"%char then (EmptyString, Some p) else (String c p, None)
      end
  end.

(** [dir] and [name] with one separator between them. *)
Definition joinPath (dir name : string) : string :=
  match List.last (list_ascii_of_string dir) "a"%char with
  | "/"%char => dir +:+ name
  | _ => dir +:+ "/" +:+ name
  end.

(** The decimal digits of [n]. *)
Definition Uitoa (n : nat) : string := NilEmpty.string_of_uint (Nat.to_uint n).

(** The retry loop of [MkdirTemp]: a fresh random name per try, again only
    when the name is taken. *)
Fixpoint mkdir_temp (tries : nat) (pre suf : string) (draws : list nat) (m : gmap loc node)
  : (errno + string * gmap loc node) * list nat :=
  match tries with
  | O => (inl EEXIST, draws)
  | S tries' =>
      let name := pre +:+ Uitoa (hd 0 draws) +:+ suf in
      match mkdir name m with
      | inr m' => (inr (name, m'), tl draws)
      | inl EEXIST => mkdir_temp tries' pre suf (tl draws) m
      | inl e => (inl e, tl draws)
      end
  end.

(** [os.MkdirTemp(dir, pattern)] for a non-empty [dir]. *)
Definition MkdirTemp (dir pattern : string) : IO string := fun w =>
  let w := called (CallMkdirTemp dir pattern) w in
  let (p, s) := prefixAndSuffix pattern in
  let suf := default "" s in
  match mkdir_temp (100 * 100) (joinPath dir p) suf (entropy w) (nodes w) with
  | (inr (name, m), draws) => (Ok name, with_entropy draws (with_nodes m w))
  | (inl EEXIST, draws) =>
      (Err (PathError "mkdirtemp" (dir +:+ "/" +:+ "*" +:+ suf) EEXIST), with_entropy draws w)
  | (inl e, draws) =>
      (Err (PathError "mkdir" (joinPath dir p +:+ Uitoa (hd 0 (entropy w)) +:+ suf) e),
       with_entropy draws w)
  end.

(** [os.Open(path)]: the handle is the path. *)
Definition Open (path : string) : IO string := fun w =>
  let w := called (CallOpen path) w in
  if String.eqb path "" then (Err (PathError "open" path ENOENT), w)
  else
    match stat (nodes w) (resolve path) with
    | Some _ => (Ok path, w)
    | None => (Err (PathError "open" path (missing (nodes w) (resolve path))), w)
    end.

(** [os.Create(path)]: creates or truncates the file. *)
Definition Create (path : string) : IO string := fun w =>
  let w := called (CallCreate path) w in
  if String.eqb path "" then (Err (PathError "open" path ENOENT), w)
  else
    let l := resolve path in
    match stat (nodes w) l with
    | Some Directory => (Err (PathError "open" path EISDIR), w)
    | _ =>
        match stat (nodes w) (parent l) with
        | Some Directory => (Ok path, with_nodes (<[l := File (Plain [])]> (nodes w)) w)
        | Some (File _) => (Err (PathError "open" path ENOTDIR), w)
        | None => (Err (PathError "open" path (missing (nodes w) (parent l))), w)
        end
    end.

(** [f.Sync()] *)
Definition Sync (f : string) : IO unit := fun w => (Ok tt, called (CallSync f) w).

(** [f.Close()] *)
Definition Close (f : string) : world -> world := called (CallClose f).

(** Moving the tree below [old] to [new]. *)
Definition move_tree (old new : loc) (m : gmap loc node) : gmap loc node :=
  list_to_map (List.map (fun kv => (rebase old new (fst kv), snd kv))
                        (map_to_list (filter (fun kv => within old (fst kv) = true) m)))
  ∪ filter (fun kv => within old (fst kv) = false) m.

(** [rename(2)] on resolved paths: a regular file replaces what is at the new
    path unless that is a directory; a directory moves with its tree to a new
    path that is free or an empty directory; never across volumes. *)
Definition rename (old new : loc) (vol : loc -> nat) (m : gmap loc node)
  : errno + gmap loc node :=
  match stat m old with
  | None => inl (missing m old)
  | Some src =>
      match stat m (parent new) with
      | None => inl (missing m (parent new))
      | Some (File _) => inl ENOTDIR
      | Some Directory =>
          if negb (vol old =? vol new)%nat then inl EXDEV
          else
            match src, stat m new with
            | File c, Some Directory => inl EISDIR
            | File c, _ => inr (<[new := File c]> (delete old m))
            | Directory, Some (File _) => inl ENOTDIR
            | Directory, _ =>
                if implicit_dir old || implicit_dir new then inl EBUSY
                else if bool_decide (old = new) then inr m
                else if within old new then inl EINVAL
                else if bool_decide (filter (fun kv => within new (fst kv) = true)
                                            (delete new m) = ∅)
                     then inr (move_tree old new m)
                     else inl ENOTEMPTY
            end
      end
  end.

(** [os.Rename(oldpath, newpath)] *)
Definition Rename (oldpath newpath : string) : IO unit := fun w =>
  let w := called (CallRename oldpath newpath) w in
  if String.eqb oldpath "" || String.eqb newpath ""
  then (Err (LinkError "rename" oldpath newpath ENOENT), w)
  else
    match rename (resolve oldpath) (resolve newpath) (volume w) (nodes w) with
    | inr m => (Ok tt, with_nodes m w)
    | inl e => (Err (LinkError "rename" oldpath newpath e), w)
    end.

(** The last element of [path] is [.]. *)
Definition endsWithDot (path : string) : bool :=
  String.eqb (List.last (strings.Split path Separator) "") ".".

(** [os.RemoveAll(path)]: removes [path] and everything below it; a path
    that does not exist is not an error. *)
Definition RemoveAll (path : string) : IO unit := fun w =>
  let w := called (CallRemoveAll path) w in
  if String.eqb path "" then (Ok tt, w)
  else if endsWithDot path then (Err (PathError "RemoveAll" path EINVAL), w)
  else
    (Ok tt, with_nodes (filter (fun kv => within (resolve path) (fst kv) = false) (nodes w)) w).

(** *** The calls of the directory-walking variant

    [ReadDir], [ReadFile], [Stat] and [Remove] are not recorded in [calls],
    which lists the calls of the record-based variant and of [copyFile]. *)

(** [os.TempDir()], with [$TMPDIR] unset: the directory [MkdirTemp] uses
    when it is given the empty directory name. *)
Definition TempDir : string := "/tmp".

(** [os.Stat(path)]: the node stands for the [FileInfo]. *)
Definition Stat (path : string) : IO node := fun w =>
  if String.eqb path "" then (Err (PathError "stat" path ENOENT), w)
  else
    match stat (nodes w) (resolve path) with
    | Some n => (Ok n, w)
    | None => (Err (PathError "stat" path (missing (nodes w) (resolve path))), w)
    end.

(** [os.IsNotExist(err)]: it looks into the errors of package [os], not into
    errors wrapped by [fmt.Errorf]. *)
Definition IsNotExist (err : error) : bool :=
  match err with
  | PathError _ _ ENOENT | LinkError _ _ _ ENOENT => true
  | _ => false
  end.

(** [os.ReadFile(path)].  [raw] gives the bytes of a file that holds a
    compressed archive, which the embedding leaves open. *)
Definition ReadFile (raw : list tar_entry -> stream_end -> list byte) (path : string)
  : IO (list byte) := fun w =>
  if String.eqb path "" then (Err (PathError "open" path ENOENT), w)
  else
    match stat (nodes w) (resolve path) with
    | Some (File (Plain data)) => (Ok data, w)
    | Some (File (Package entries fin)) => (Ok (raw entries fin), w)
    | Some Directory => (Err (PathError "read" path EISDIR), w)
    | None => (Err (PathError "open" path (missing (nodes w) (resolve path))), w)
    end.

(** [os.DirEntry]: the name of an entry of a directory and whether it is a
    directory. *)
Record DirEntry := mkDirEntry { Name : string; IsDir : bool }.

(** The entry of the directory [d] that the node [kv] of the tree makes, if
    it lies directly in [d]. *)
Definition dir_entry (d : loc) (kv : loc * node) : option DirEntry :=
  match rev (snd (fst kv)) with
  | e :: up =>
      if Bool.eqb (fst (fst kv)) (fst d) && bool_decide (rev up = snd d)
         && negb (String.eqb e "..")
      then Some (mkDirEntry e (match snd kv with Directory => true | File _ => false end))
      else None
  | [] => None
  end.

Fixpoint insert_entry (e : DirEntry) (l : list DirEntry) : list DirEntry :=
  match l with
  | [] => [e]
  | x :: rest =>
      if String.leb (Name e) (Name x) then e :: l else x :: insert_entry e rest
  end.

(** [os.ReadDir(path)]: the entries of the directory, sorted by name.  (Of
    the directory above the working directory it lists what the tree
    holds.) *)
Definition ReadDir (path : string) : IO (list DirEntry) := fun w =>
  if String.eqb path "" then (Err (PathError "open" path ENOENT), w)
  else
    match stat (nodes w) (resolve path) with
    | Some Directory =>
        (Ok (foldr insert_entry [] (omap (dir_entry (resolve path)) (map_to_list (nodes w)))),
         w)
    | Some (File _) => (Err (PathError "open" path ENOTDIR), w)
    | None => (Err (PathError "open" path (missing (nodes w) (resolve path))), w)
    end.

(** [os.Remove(path)]: removes a file or an empty directory. *)
Definition Remove (path : string) : IO unit := fun w =>
  if String.eqb path "" then (Err (PathError "remove" path ENOENT), w)
  else
    let l := resolve path in
    match stat (nodes w) l with
    | Some (File _) => (Ok tt, with_nodes (delete l (nodes w)) w)
    | Some Directory =>
        if implicit_dir l
        then (Err (PathError "remove" path
                     (match snd l with
                      | [] => if fst l then EBUSY else EINVAL
                      | _ => ENOTEMPTY
                      end)), w)
        else if bool_decide (filter (fun kv => within l (fst kv) = true) (delete l (nodes w)) = ∅)
             then (Ok tt, with_nodes (delete l (nodes w)) w)
             else (Err (PathError "remove" path ENOTEMPTY), w)
    | None => (Err (PathError "remove" path (missing (nodes w) l)), w)
    end.

End os.

Arguments os.mkdir_temp : simpl never.

(** ** Packages [io], [fmt], [compress/gzip] and [archive/tar] *)

Module io.

(** [io.Copy(dst, src)] between two open files: what [src] holds replaces
    what [dst] holds. *)
Definition Copy (dst src : string) : IO unit := fun w =>
  let w := called (CallCopy dst) w in
  match os.stat (nodes w) (filepath.resolve src) with
  | Some (File c) =>
      (Ok tt, with_nodes (<[filepath.resolve dst := File c]> (nodes w)) w)
  | Some Directory => (Err (PathError "read" src EISDIR), w)
  | None => (Err (PathError "read" src ENOENT), w)
  end.

(** [io.Copy(dst, tarReader)]: the body of the current entry goes to
    [dst]; when the stream breaks inside the body the bytes read so far
    are written and the copy fails. *)
Definition CopyEntry (dst : string) (body : list byte) (broken : option damage) : IO unit :=
  fun w =>
    let w := called (CallCopy dst) w in
    let w := with_nodes (<[filepath.resolve dst := File (Plain body)]> (nodes w)) w in
    match broken with
    | None => (Ok tt, w)
    | Some _ => (Err ErrUnexpectedEOF, w)
    end.

(** [io.Copy(buf, tarReader)] into a [strings.Builder], then
    [buf.String()]. *)
Definition ReadEntry (body : list byte) (broken : option damage) : IO string := fun w =>
  match broken with
  | None => (Ok (string_of_list_byte body), w)
  | Some _ => (Err ErrUnexpectedEOF, w)
  end.

End io.

Module gzip.

(** [gzip.NewReader(file)] followed by [tar.NewReader]: the header of the
    compressed stream is read and checked; what is handed on is the
    sequence of tar entries the readers will deliver and where it stops. *)
Definition NewReader (file : string) : IO (list tar_entry * stream_end) := fun w =>
  match os.stat (nodes w) (filepath.resolve file) with
  | Some (File (Package entries fin)) => (Ok (entries, fin), w)
  | Some (File (Plain data)) =>
      (Err (if (length data =? 0)%nat then ErrEOF
            else if (length data <? 10)%nat then ErrUnexpectedEOF
            else ErrGzipHeader), w)
  | Some Directory => (Err (PathError "read" file EISDIR), w)
  | None => (Err (PathError "read" file ENOENT), w)
  end.

End gzip.

Module tar.

(** The error [tarReader.Next()] returns where the stream is broken. *)
Definition next_error (cause : damage) : error :=
  match cause with
  | GzipDamaged => ErrUnexpectedEOF
  | TarDamaged => ErrTarHeader
  end.

(** The type flags [tar.TypeReg] (the character 0) and [tar.TypeDir] (the
    character 5) of a header. *)
Definition TypeReg : byte := x30.
Definition TypeDir : byte := x35.

End tar.

Module fmt.

(** [fmt.Printf], with the text already formatted. *)
Definition Printf (text : string) : IO unit := fun w => (Ok tt, printed text w).

End fmt.

(** [defer cleanup()] in a function that returns [(A, error)]: the cleanup
    runs when the function returns, whatever it returns. *)
Definition defer {A} (cleanup : world -> world) (body : IO A) : IO A :=
  fun w => let (r, w') := body w in (r, cleanup w').

(** ** The record-based variant *)

Record UnityAsset := mkUnityAsset {
  AssetPath : string;
  MetaPath : string;
  PathName : string
}.

(** [UnityAsset{}] *)
Definition emptyAsset : UnityAsset := mkUnityAsset "" "" "".

Definition setAssetPath (p : string) (a : UnityAsset) : UnityAsset :=
  mkUnityAsset p (MetaPath a) (PathName a).
Definition setMetaPath (p : string) (a : UnityAsset) : UnityAsset :=
  mkUnityAsset (AssetPath a) p (PathName a).
Definition setPathName (p : string) (a : UnityAsset) : UnityAsset :=
  mkUnityAsset (AssetPath a) (MetaPath a) p.

(** One iteration of the loop of [extractTarGz], from the split of the
    header's name to the end of the [switch]: the entry [header] has just
    been returned by [tarReader.Next()]; [broken] tells whether the stream
    breaks inside its body. *)
Definition extractEntry (tempDir : string) (header : tar_entry) (broken : option damage)
    (current : UnityAsset) (assets : list UnityAsset) : IO (UnityAsset * list UnityAsset) :=
  match strings.SplitN (Name header) "/" 2 with
  | [dirName; fileName] =>
      if String.eqb fileName "asset" || String.eqb fileName "asset.meta" then
        let destPath := filepath.Join [tempDir; dirName; fileName] in
        wrap ("failed to create directory for " +:+ destPath)
             (os.MkdirAll (filepath.Dir destPath)) ;;;
        outFile <- wrap ("failed to create file " +:+ destPath) (os.Create destPath) ;;
        wrap ("failed to extract " +:+ destPath)
             (defer (os.Close outFile) (io.CopyEntry outFile (Body header) broken)) ;;;
        if String.eqb fileName "asset"
        then ret (setAssetPath destPath current, assets)
        else ret (setMetaPath destPath current, assets)
      else if String.eqb fileName "pathname" then
        buf <- wrap "failed to read pathname" (io.ReadEntry (Body header) broken) ;;
        let current := setPathName buf current in
        ret (emptyAsset, assets ++ [current])
      else ret (current, assets)
  | _ => ret (current, assets)
  end.

(** The loop of [extractTarGz] over what the tar reader delivers. *)
Fixpoint extractEntries (tempDir : string) (entries : list tar_entry) (fin : stream_end)
    (current : UnityAsset) (assets : list UnityAsset) : IO (list UnityAsset) :=
  match entries with
  | header :: entries' =>
      st <- extractEntry tempDir header None current assets ;;
      extractEntries tempDir entries' fin (fst st) (snd st)
  | [] =>
      match fin with
      | EndOfArchive => ret assets
      | BrokenAt cause (Some header) =>
          extractEntry tempDir header (Some cause) current assets ;;;
          fail (Errorf "failed to read tar archive" (tar.next_error cause))
      | BrokenAt cause None =>
          fail (Errorf "failed to read tar archive" (tar.next_error cause))
      end
  end.

(** [extractTarGz] reads .tar.gz and returns a list of UnityAssets.  (The
    deferred [gzipReader.Close()] makes no system call and is left out.) *)
Definition extractTarGz (srcFile tempDir : string) : IO (list UnityAsset) :=
  fmt.Printf ("[INFO] Extracting archive: " +:+ srcFile +:+ nl) ;;;
  file <- wrap "failed to open file" (os.Open srcFile) ;;
  defer (os.Close file) (
    tarReader <- wrap "failed to create gzip reader" (gzip.NewReader file) ;;
    assets <- extractEntries tempDir (fst tarReader) (snd tarReader) emptyAsset [] ;;
    fmt.Printf ("[INFO] Extracted " +:+ os.Uitoa (length assets) +:+ " Unity assets" +:+ nl) ;;;
    ret assets).

Definition moveFile (source destination : string) : IO unit :=
  let destDir := filepath.Dir destination in
  wrap ("failed to create directory " +:+ destDir) (os.MkdirAll destDir) ;;;
  fun w =>
    (* Try fast rename first *)
    match os.Rename source destination w with
    | (Ok _, w') => (Ok tt, w')
    | (Err _, w') =>
        (* Fallback to copy + delete *)
        (in_ <- wrap ("failed to open source file " +:+ source) (os.Open source) ;;
         defer (os.Close in_) (
           out <- wrap ("failed to create destination file " +:+ destination)
                       (os.Create destination) ;;
           defer (os.Close out) (
             wrap ("failed to copy data from " +:+ source +:+ " to " +:+ destination)
                  (io.Copy out in_) ;;;
             ret tt))) w'
    end.

(** The loop of [reconstructStructure]. *)
Fixpoint reconstructAssets (assets : list UnityAsset) (targetDir : string) : IO unit :=
  match assets with
  | [] => ret tt
  | asset :: assets' =>
      if String.eqb (PathName asset) "" || String.eqb (AssetPath asset) "" then
        fmt.Printf ("[WARN] Skipping incomplete entry (missing pathname or asset)" +:+ nl) ;;;
        reconstructAssets assets' targetDir
      else
        let targetAsset := filepath.Join [targetDir; PathName asset] in
        let targetMeta := targetAsset +:+ ".meta" in
        fmt.Printf ("[INFO] Moving asset: " +:+ PathName asset +:+ nl) ;;;
        wrap "failed to move asset" (moveFile (AssetPath asset) targetAsset) ;;;
        (if negb (String.eqb (MetaPath asset) "")
         then wrap "failed to move meta" (moveFile (MetaPath asset) targetMeta)
         else fmt.Printf ("[INFO] No .meta file found for " +:+ PathName asset +:+ nl)) ;;;
        reconstructAssets assets' targetDir
  end.

(** [reconstructStructure] moves asset/meta files to their target locations. *)
Definition reconstructStructure (assets : list UnityAsset) (targetDir : string) : IO unit :=
  fmt.Printf ("[INFO] Reconstructing Unity structure in: " +:+ targetDir +:+ nl) ;;;
  reconstructAssets assets targetDir ;;;
  fmt.Printf ("[INFO] Reconstruction complete." +:+ nl).

(** *** The process: [os.Exit] and [defer] in [main]

    [os.Exit(code)] ends the process at once: deferred functions are not
    run.  A deferred function of [main] runs when [main] returns. *)
Inductive flow (A : Type) :=
| Continue (a : A)
| Exit (code : nat).
Arguments Continue {A} a.
Arguments Exit {A} code.

Definition Proc (A : Type) : Type := world -> flow A * world.

Definition andThen {A B} (m : Proc A) (k : A -> Proc B) : Proc B :=
  fun w => match m w with
           | (Continue a, w') => k a w'
           | (Exit code, w') => (Exit code, w')
           end.

(** [fmt.Printf] in [main]. *)
Definition say (text : string) : Proc unit := fun w => (Continue tt, printed text w).

(** [if err != nil { fmt.Printf(report, err); os.Exit(1) }] *)
Definition orExit {A} (m : IO A) (report : string) : Proc A :=
  fun w => match m w with
           | (Ok a, w') => (Continue a, w')
           | (Err e, w') => (Exit 1, printed (report +:+ Error e +:+ nl) w')
           end.

(** [defer func() { ... }()] in [main]. *)
Definition deferMain {A} (cleanup : world -> world) (body : Proc A) : Proc A :=
  fun w => match body w with
           | (Continue a, w') => (Continue a, cleanup w')
           | (Exit code, w') => (Exit code, w')
           end.

Declare Scope proc_scope.
Delimit Scope proc_scope with proc.
Notation "x <- m ;; k" := (andThen m (fun x => k))
  (at level 100, m at next level, right associativity) : proc_scope.
Notation "m ;;; k" := (andThen m (fun _ => k))
  (at level 100, right associativity) : proc_scope.

(** The output directory [main] works with: the second argument when there
    is one, else derived from the input file's name. *)
Definition outputDirOf (args : list string) : string :=
  if (length args <? 3)%nat then
    let baseName := filepath.Base (nth 1 args "") in
    strings.TrimSuffix baseName (filepath.Ext baseName)
  else nth 2 args "".

(** The deferred function of [main]. *)
Definition removeTemp (tempParent : string) (w : world) : world :=
  match os.RemoveAll tempParent w with
  | (Err err, w') => printed ("[WARN] Failed to delete temp directory: " +:+ Error err +:+ nl) w'
  | (Ok _, w') => w'
  end.

(** The two steps of [main] that follow the deferred removal. *)
Definition unpackSteps (inputFile outputDir tempDir : string) : Proc unit :=
  ((* Step 1: Extract *)
   assets <- orExit (extractTarGz inputFile tempDir) "[ERROR] Extraction failed: " ;;
   (* Step 2: Reconstruct *)
   orExit (reconstructStructure assets outputDir) "[ERROR] Reconstruction failed: " ;;;
   say ("[SUCCESS] Unpacked " +:+ inputFile +:+ " into " +:+ outputDir +:+ nl))%proc.

Definition mainProc (args : list string) : Proc unit :=
  (if (length args <? 2)%nat then
     fun w => (Exit 1, printed ("Usage: unpack <input_file> [output_folder]" +:+ nl) w)
   else
     let inputFile := nth 1 args "" in
     let outputDir := outputDirOf args in
     say ("[INFO] Input File: " +:+ inputFile +:+ nl) ;;;
     say ("[INFO] Output Directory: " +:+ outputDir +:+ nl) ;;;
     orExit (os.MkdirAll outputDir) "[ERROR] Failed to create output directory: " ;;;
     (* Create temp dir on same drive as output *)
     let tempParent := filepath.Join [outputDir; ".tmp_unpack"] in
     orExit (os.MkdirAll tempParent) "[ERROR] Failed to create temp directory root: " ;;;
     tempDir <- orExit (os.MkdirTemp tempParent "unpack-unitypackage-*")
                       "[ERROR] Failed to create temp directory: " ;;
     deferMain (removeTemp tempParent) (unpackSteps inputFile outputDir tempDir))%proc.

(** Running the program with [os.Args = args]: the exit code and the world
    it leaves. *)
Definition main (args : list string) (w : world) : nat * world :=
  match mainProc args w with
  | (Continue _, w') => (0, w')
  | (Exit code, w') => (code, w')
  end.

(** ** The directory-walking variant *)

Module TreeVariant.

(** [copyFile] copies a file from source to destination. *)
Definition copyFile (source destination : string) : IO unit :=
  sourceFile <- wrap ("failed to open source file " +:+ source) (os.Open source) ;;
  defer (os.Close sourceFile) (
    destFile <- wrap ("failed to create destination file " +:+ destination)
                     (os.Create destination) ;;
    defer (os.Close destFile) (
      wrap ("failed to copy file from " +:+ source +:+ " to " +:+ destination)
           (io.Copy destFile sourceFile) ;;;
      wrap ("failed to sync destination file " +:+ destination) (os.Sync destFile) ;;;
      ret tt)).

Section Archive.

(** [header.Typeflag]: the type flag of the header of an entry, which
    [tar_entry] does not record. *)
Variable Typeflag : tar_entry -> byte.

(** One iteration of the loop of [extractTarGz], from the computation of the
    target path to the end of the [switch]; [broken] tells whether the
    stream breaks inside the body of the entry. *)
Definition extractEntry (destDir : string) (header : tar_entry) (broken : option damage)
  : IO unit :=
  (* Compute the path for the extracted file/directory *)
  let targetPath := filepath.Join [destDir; Name header] in
  (* Process based on the header type *)
  if Byte.eqb (Typeflag header) tar.TypeDir then ret tt
  else if Byte.eqb (Typeflag header) tar.TypeReg then
    (* Create the file *)
    wrap ("failed to create parent directory for file " +:+ targetPath)
         (os.MkdirAll (filepath.Dir targetPath)) ;;;
    outFile <- wrap ("failed to create file " +:+ targetPath) (os.Create targetPath) ;;
    (* Copy the file contents *)
    wrap ("failed to write file " +:+ targetPath)
         (defer (os.Close outFile) (io.CopyEntry outFile (Body header) broken))
  else
    (* Handle other file types as needed (e.g., symbolic links) *)
    fmt.Printf ("Skipping unsupported file type for " +:+ Name header +:+ nl).

(** The loop of [extractTarGz] over what the tar reader delivers. *)
Fixpoint extractEntries (destDir : string) (entries : list tar_entry) (fin : stream_end)
  : IO unit :=
  match entries with
  | header :: entries' =>
      extractEntry destDir header None ;;;
      extractEntries destDir entries' fin
  | [] =>
      match fin with
      | EndOfArchive => ret tt
      | BrokenAt cause (Some header) =>
          extractEntry destDir header (Some cause) ;;;
          fail (Errorf "failed to read tar archive" (tar.next_error cause))
      | BrokenAt cause None =>
          fail (Errorf "failed to read tar archive" (tar.next_error cause))
      end
  end.

(** [extractTarGz] extracts a .tar.gz file into the specified destination
    directory. *)
Definition extractTarGz (srcFile destDir : string) : IO unit :=
  (* Open the .tar.gz file *)
  file <- wrap "failed to open file" (os.Open srcFile) ;;
  defer (os.Close file) (
    (* Create a gzip reader and a tar reader *)
    tarReader <- wrap "failed to create gzip reader" (gzip.NewReader file) ;;
    (* Iterate over the tar archive entries *)
    extractEntries destDir (fst tarReader) (snd tarReader)).

End Archive.

Section Staged.

(** The bytes of a staged file that holds a compressed archive. *)
Variable raw : list tar_entry -> stream_end -> list byte.

(** The body of the loop of [reconstructStructure]. *)
Definition reconstructEntry (outputDir targetDir : string) (entry : os.DirEntry) : IO unit :=
  if os.IsDir entry then
    (* Read the "pathname" file in each folder *)
    let metadataPath := filepath.Join [outputDir; os.Name entry; "pathname"] in
    content <- wrap ("failed to read metadata file " +:+ metadataPath)
                    (os.ReadFile raw metadataPath) ;;
    (* Construct the target path based on the new targetDir *)
    let newTargetPath := filepath.Join [targetDir; string_of_list_byte content] in
    let newTargetDir := filepath.Dir newTargetPath in
    (* Ensure the target directory exists *)
    wrap ("failed to create target directory " +:+ newTargetDir) (os.MkdirAll newTargetDir) ;;;
    (* Check if the "asset" file exists *)
    let sourcePath := filepath.Join [outputDir; os.Name entry; "asset"] in
    fun w =>
      match os.Stat sourcePath w with
      | (Ok _, w') =>
          ((* Copy the asset file to the new target directory *)
           wrap ("failed to copy asset file " +:+ sourcePath +:+ " to " +:+ newTargetPath)
                (copyFile sourcePath newTargetPath) ;;;
           (* Remove the original asset file *)
           wrap ("failed to delete original asset file " +:+ sourcePath)
                (os.Remove sourcePath)) w'
      | (Err err, w') =>
          if negb (os.IsNotExist err) then
            (* Return error if it is not a "file does not exist" error *)
            (Err (Errorf ("failed to check existence of asset file " +:+ sourcePath) err), w')
          else (Ok tt, w')
      end
  else ret tt.

(** The loop of [reconstructStructure] over the entries read. *)
Fixpoint reconstructEntries (outputDir targetDir : string) (entries : list os.DirEntry)
  : IO unit :=
  match entries with
  | [] => ret tt
  | entry :: entries' =>
      reconstructEntry outputDir targetDir entry ;;;
      reconstructEntries outputDir targetDir entries'
  end.

(** [reconstructStructure] organizes the extracted files into the proper
    Unity asset structure, and outputs them to a specified target
    directory. *)
Definition reconstructStructure (outputDir targetDir : string) : IO unit :=
  entries <- wrap "failed to read output directory" (os.ReadDir outputDir) ;;
  reconstructEntries outputDir targetDir entries.

End Staged.

Section Run.

Variable Typeflag : tar_entry -> byte.
Variable raw : list tar_entry -> stream_end -> list byte.

(** The deferred function of [main]. *)
Definition removeTemp (tempDir : string) (w : world) : world :=
  match os.RemoveAll tempDir w with
  | (Err err, w') =>
      printed ("Warning: Failed to delete temporary directory: " +:+ Error err +:+ nl) w'
  | (Ok _, w') => w'
  end.

(** The two steps of [main] that follow the deferred removal. *)
Definition unpackSteps (inputFile outputDir tempDir : string) : Proc unit :=
  ((* Step 1: Extract the .tar.gz archive into the temporary directory *)
   orExit (extractTarGz Typeflag inputFile tempDir) "Failed to extract archive: " ;;;
   (* Step 2: Reconstruct the Unity file structure into the output directory *)
   orExit (reconstructStructure raw tempDir outputDir)
          "Failed to reconstruct Unity file structure: " ;;;
   say ("Successfully unpacked " +:+ inputFile +:+ " into " +:+ outputDir +:+ nl))%proc.

(** [main]: [os.MkdirTemp] is given the empty directory name and uses
    [os.TempDir()]. *)
Definition mainProc (args : list string) : Proc unit :=
  (if (length args <? 2)%nat then
     fun w => (Exit 1, printed ("Usage: unpack <input_file> [output_folder]" +:+ nl) w)
   else
     let inputFile := nth 1 args "" in
     let outputDir := outputDirOf args in
     (* Ensure the output directory exists *)
     orExit (os.MkdirAll outputDir) "Failed to create output directory: " ;;;
     (* Use a temporary directory for intermediate files *)
     tempDir <- orExit (os.MkdirTemp os.TempDir "unpack-unitypackage-*")
                       "Failed to create temporary directory: " ;;
     deferMain (removeTemp tempDir) (unpackSteps inputFile outputDir tempDir))%proc.

(** Running the program with [os.Args = args]: the exit code and the world
    it leaves. *)
Definition main (args : list string) (w : world) : nat * world :=
  match mainProc args w with
  | (Continue _, w') => (0, w')
  | (Exit code, w') => (code, w')
  end.

End Run.

End TreeVariant.

(** * The vocabulary of the properties *)

(** ** The output directory *)

(** The name holds a dot. *)
Fixpoint hasDot (name : string) : bool :=
  match name with
  | EmptyString => false
  | String c rest => Ascii.eqb c "."%char || hasDot rest
  end.

(** The name without its final extension, in the words of the
    specification: what precedes the last dot of the name, and the whole
    name when it has no dot. *)
Fixpoint stripFinalExtension (name : string) : string :=
  match name with
  | EmptyString => EmptyString
  | String c rest =>
      if hasDot rest then String c (stripFinalExtension rest)
      else if Ascii.eqb c "."%char then EmptyString
      else String c rest
  end.

(** ** Entries, groups and records *)

(** The group and member name of an entry: its name split at the first
    separator. *)
Definition member (header : tar_entry) : option (string * string) :=
  match strings.SplitN (Name header) "/" 2 with
  | [dirName; fileName] => Some (dirName, fileName)
  | _ => None
  end.

(** The entry is member [fileName] of some group. *)
Definition isMember (fileName : string) (header : tar_entry) : bool :=
  match member header with
  | Some (_, f) => String.eqb f fileName
  | None => false
  end.

Definition isPathname : tar_entry -> bool := isMember "pathname".

(** The texts of the [pathname] entries of an archive, in archive order. *)
Definition pathnamesOf (entries : list tar_entry) : list string :=
  List.map (fun header => string_of_list_byte (Body header)) (List.filter isPathname entries).

(** The name of the entry splits into a group and a member name. *)
Definition hasSeparator (header : tar_entry) : bool :=
  match member header with
  | Some _ => true
  | None => false
  end.

(** Where the extractor stages member [fileName] of group [dirName]. *)
Definition stagedPath (tempDir dirName fileName : string) : string :=
  filepath.Join [tempDir; dirName; fileName].

(** One iteration of the extractor's loop without its effects: the new
    accumulator and the record appended, if any. *)
Definition pureStep (tempDir : string) (header : tar_entry) (current : UnityAsset)
  : UnityAsset * option UnityAsset :=
  match member header with
  | Some (dirName, fileName) =>
      if String.eqb fileName "asset"
      then (setAssetPath (stagedPath tempDir dirName fileName) current, None)
      else if String.eqb fileName "asset.meta"
      then (setMetaPath (stagedPath tempDir dirName fileName) current, None)
      else if String.eqb fileName "pathname"
      then (emptyAsset, Some (setPathName (string_of_list_byte (Body header)) current))
      else (current, None)
  | None => (current, None)
  end.

(** The records of an archive: each [pathname] entry closes a record that
    holds the staged paths of the last [asset] and [asset.meta] entries read
    since the previous [pathname] entry. *)
Fixpoint recordsOf (tempDir : string) (entries : list tar_entry) (current : UnityAsset)
  : list UnityAsset :=
  match entries with
  | [] => []
  | header :: rest =>
      match pureStep tempDir header current with
      | (current', Some record) => record :: recordsOf tempDir rest current'
      | (current', None) => recordsOf tempDir rest current'
      end
  end.

(** The first path segments of the [pathname] entries, in archive order. *)
Fixpoint pathnameGroups (entries : list tar_entry) : list string :=
  match entries with
  | [] => []
  | header :: rest =>
      match member header with
      | Some (dirName, fileName) =>
          if String.eqb fileName "pathname" then dirName :: pathnameGroups rest
          else pathnameGroups rest
      | None => pathnameGroups rest
      end
  end.

(** The staged files a record holds are those of group [G]. *)
Definition tiedTo (tempDir G : string) (record : UnityAsset) : bool :=
  (String.eqb (AssetPath record) ""
   || String.eqb (AssetPath record) (stagedPath tempDir G "asset"))
  && (String.eqb (MetaPath record) ""
      || String.eqb (MetaPath record) (stagedPath tempDir G "asset.meta")).

(** Each record holds only staged files of the group of the [pathname] entry
    that closed it. *)
Fixpoint groupsTied (tempDir : string) (groups : list string) (assets : list UnityAsset)
  : bool :=
  match groups, assets with
  | [], [] => true
  | G :: groups', record :: assets' =>
      tiedTo tempDir G record && groupsTied tempDir groups' assets'
  | _, _ => false
  end.

(** The pending group, if there is one, is [dirName]. *)
Definition agrees (pending : option string) (dirName : string) : bool :=
  match pending with
  | None => true
  | Some G => String.eqb G dirName
  end.

(** Every [asset] and [asset.meta] entry read since the previous [pathname]
    entry has the first path segment of the [pathname] entry that follows:
    the groups are not interleaved and each ends with its [pathname].
    [pending] is the group of the entries staged and not closed yet. *)
Fixpoint grouped (pending : option string) (entries : list tar_entry) : bool :=
  match entries with
  | [] => true
  | header :: rest =>
      match member header with
      | Some (dirName, fileName) =>
          if String.eqb fileName "asset" || String.eqb fileName "asset.meta"
          then agrees pending dirName && grouped (Some dirName) rest
          else if String.eqb fileName "pathname"
          then agrees pending dirName && grouped None rest
          else grouped pending rest
      | None => grouped pending rest
      end
  end.

(** The accumulator holds nothing, or staged files of the pending group. *)
Definition pendingTied (tempDir : string) (pending : option string) (current : UnityAsset)
  : bool :=
  match pending with
  | None => String.eqb (AssetPath current) "" && String.eqb (MetaPath current) ""
  | Some G => tiedTo tempDir G current
  end.

(** A record the reconstructor relocates: it has a logical path and a
    payload. *)
Definition eligible (asset : UnityAsset) : bool :=
  negb (String.eqb (PathName asset) "" || String.eqb (AssetPath asset) "").

Definition skipWarning : string :=
  "[WARN] Skipping incomplete entry (missing pathname or asset)" +:+ nl.

(** An asset group as Unity packs it: its identifier, the payload, the
    optional sidecar and the text of its [pathname] entry. *)
Record group := Group {
  gid : string;
  payload : list byte;
  sidecar : option (list byte);
  logical : list byte
}.

(** The entries of a group: [asset], then [asset.meta] if there is a
    sidecar, then [pathname]. *)
Definition groupEntries (g : group) : list tar_entry :=
  TarEntry (gid g +:+ "/asset") (payload g)
  :: match sidecar g with
     | Some meta => [TarEntry (gid g +:+ "/asset.meta") meta]
     | None => []
     end
  ++ [TarEntry (gid g +:+ "/pathname") (logical g)].

(** The archive of a sequence of groups, one group after the other. *)
Definition archiveOf (groups : list group) : list tar_entry :=
  List.concat (List.map groupEntries groups).

(** The record the extractor is to produce for a group. *)
Definition recordOf (tempDir : string) (g : group) : UnityAsset :=
  mkUnityAsset (stagedPath tempDir (gid g) "asset")
               (match sidecar g with
                | Some _ => stagedPath tempDir (gid g) "asset.meta"
                | None => ""
                end)
               (string_of_list_byte (logical g)).








(** ** Paths and the file tree *)

(** A path component that names an entry of a directory. *)
Definition plain (e : string) : bool :=
  negb (String.eqb e "") && negb (String.eqb e ".") && negb (String.eqb e "..")
  && match strings.cut filepath.Separator e with None => true | Some _ => false end.

(** The output of the element loop of [Clean], last component first: plain
    components above the [..] components, which only an unrooted path has. *)
Fixpoint normalOut (isRooted : bool) (out : list string) : bool :=
  match out with
  | [] => true
  | top :: below =>
      if String.eqb top ".."
      then negb isRooted && forallb (fun e => String.eqb e "..") below
      else plain top && normalOut isRooted below
  end.

Definition normalLoc (l : filepath.loc) : bool := normalOut (fst l) (rev (snd l)).

(** The tree [m'] is [m] with some directories added where there was
    nothing. *)
Definition onlyNewDirs (m m' : gmap filepath.loc node) : Prop :=
  forall l, m' !! l = m !! l \/ (m !! l = None /\ m' !! l = Some Directory).

(** The directory of group [G] below the staging directory, a member file of
    the group, and the paths at or below the group's directory. *)
Definition groupDir (tempDir G : string) : filepath.loc :=
  (fst (filepath.resolve tempDir), snd (filepath.resolve tempDir) ++ [G]).

Definition groupFile (tempDir G f : string) : filepath.loc :=
  (fst (filepath.resolve tempDir), snd (filepath.resolve tempDir) ++ [G; f]).

Definition inGroup (tempDir G : string) (l : filepath.loc) : Prop :=
  fst l = fst (filepath.resolve tempDir)
  /\ exists rest, snd l = snd (filepath.resolve tempDir) ++ G :: rest.


(** The file at [path] holds exactly the bytes [data]. *)
Definition holdsFile (w : world) (path : string) (data : list byte) : Prop :=
  os.stat (nodes w) (filepath.resolve path) = Some (File (Plain data)).



(** ** Worlds and system calls *)

(** Two worlds that differ at most in what has been printed. *)
Definition sameButOutput (w v : world) : Prop :=
  nodes w = nodes v /\ volume w = volume v /\ entropy w = entropy v /\ calls w = calls v.

(** An action whose result and effect on the file tree do not depend on
    what has been printed. *)
Definition ignoresOutput {A} (m : IO A) : Prop :=
  forall w v, sameButOutput w v ->
    fst (m w) = fst (m v) /\ sameButOutput (snd (m w)) (snd (m v)).

(** The system calls made between two worlds. *)
Definition newCalls (w w' : world) : list call := drop (length (calls w)) (calls w').



(** A system call other than the removal of a tree. *)
Definition notRemoval (c : call) : bool :=
  match c with
  | CallRemoveAll _ => false
  | _ => true
  end.

(** From [w] to [w'] no removal of a tree was attempted. *)
Definition noRemoval (w w' : world) : Prop :=
  exists l, calls w' = calls w ++ l /\ forallb notRemoval l = true.

(** An action that never attempts the removal of a tree. *)
Definition neverRemoves {A} (m : IO A) : Prop :=
  forall w, noRemoval w (snd (m w)).




(** ** Concrete inputs *)

Definition bytes0to9 : list byte :=
  [x00; x01; x02; x03; x04; x05; x06; x07; x08; x09]%byte.

Definition bytes10to19 : list byte :=
  [x0a; x0b; x0c; x0d; x0e; x0f; x10; x11; x12; x13]%byte.

(** A world that holds one package in the working directory and nothing
    else, on a single volume. *)
Definition worldWith (name : string) (entries : list tar_entry) (fin : stream_end) : world :=
  World {[ filepath.resolve name := File (Package entries fin) ]} (fun _ => 0) [7] [] [].

Definition woodEntries : list tar_entry :=
  [ TarEntry "abc123/asset" bytes0to9;
    TarEntry "abc123/pathname" (list_byte_of_string "Materials/Wood.mat") ].

Definition woodRecord : UnityAsset :=
  mkUnityAsset "tmp/abc123/asset" "" "Materials/Wood.mat".

Definition woodGroup : group :=
  Group "abc123" bytes0to9 None (list_byte_of_string "Materials/Wood.mat").

(** A world that holds the package of [woodGroup] and an empty staging
    directory [tmp]. *)
Definition stagingWorld : world :=
  World {[ filepath.resolve "Wood.unitypackage" := File (Package (archiveOf [woodGroup]) EndOfArchive);
           filepath.resolve "tmp" := Directory ]}
        (fun _ => 0) [7] [] [].

Definition escapingEntries : list tar_entry :=
  [ TarEntry "abc123/asset" bytes0to9;
    TarEntry "abc123/pathname" (list_byte_of_string "../outside/evil.txt") ].

Definition mixedEntries : list tar_entry :=
  [ TarEntry "g1/asset" bytes0to9;
    TarEntry "g2/pathname" (list_byte_of_string "Textures/Stone.png") ].





(** A world with two volumes: another volume is mounted at the directory
    [usb] of the working directory. *)
Definition twoVolumes : world :=
  World {[ filepath.resolve "usb" := Directory;
           filepath.resolve "stage" := Directory;
           filepath.resolve "stage/asset" := File (Plain bytes0to9) ]}
        (fun l => match snd l with
                  | e :: _ => if String.eqb e "usb" then 1 else 0
                  | [] => 0
                  end)
        [] [] [].

Definition lostRecord : UnityAsset := mkUnityAsset "" "" "Lost.mat".

Definition stagedRecord : UnityAsset := mkUnityAsset "stage/asset" "" "Wood.mat".

(** ** Paths the model of the system calls is exact for *)

(** The path holds no NUL byte.  Go's [os] functions reject a path that
    holds one with [EINVAL] before they make a system call; the model of
    the calls does not.  A path [p] with [filepath.Clean p = p] has no [..]
    component behind a name: the system resolves [x/..] through [x], which
    must be a directory, where the model resolves it as [filepath.Clean]
    does.  Statements that promise that a call on a path given from outside
    succeeds take both as hypotheses. *)
Definition noNul (path : string) : bool :=
  negb (existsb (Ascii.eqb Ascii.zero) (list_ascii_of_string path)).

(** ** Frames: what an action leaves alone *)

(** From [w] to [w'] the file tree changed only at or below [top]. *)
Definition changedWithin (top : filepath.loc) (w w' : world) : Prop :=
  forall l, os.within top l = false -> nodes w' !! l = nodes w !! l.

(** Apart from the paths [ls], the tree [m'] is [m] with some directories
    added where there was nothing. *)
Definition onlyNewDirsBut (ls : list filepath.loc) (m m' : gmap filepath.loc node) : Prop :=
  forall l, ~ In l ls -> m' !! l = m !! l \/ (m !! l = None /\ m' !! l = Some Directory).

(** ** Entries the extractor acts on *)

(** The entry is member [asset], [asset.meta] or [pathname] of a group. *)
Definition recognised (header : tar_entry) : bool :=
  isMember "asset" header || isMember "asset.meta" header || isPathname header.

(** A record whose staged payload does not exist. *)
Definition missingRecord : UnityAsset := mkUnityAsset "stage/missing" "" "Lost.mat".

(** Where the extractor stages an entry, if it stages it. *)
Definition stagedAt (tempDir : string) (header : tar_entry) : option filepath.loc :=
  match member header with
  | Some (dirName, fileName) =>
      if String.eqb fileName "asset" || String.eqb fileName "asset.meta"
      then Some (filepath.resolve (stagedPath tempDir dirName fileName))
      else None
  | None => None
  end.

(** The entry is staged and its group is named [..]. *)
Definition stagedInParent (header : tar_entry) : bool :=
  match member header with
  | Some (dirName, fileName) =>
      String.eqb dirName ".."
      && (String.eqb fileName "asset" || String.eqb fileName "asset.meta")
  | None => false
  end.

(** The entries the tar reader delivers: those before the end of the stream
    and the one the stream breaks in, if it breaks inside an entry. *)
Definition delivered (entries : list tar_entry) (fin : stream_end) : list tar_entry :=
  entries ++ match fin with
             | BrokenAt _ (Some header) => [header]
             | _ => []
             end.

(** The components a group name adds to the staging directory. *)
Definition groupPieces (dirName : string) : list string :=
  if String.eqb dirName "" || String.eqb dirName "." then [] else [dirName].

(** An action that, run where the directory [top] exists, changes the tree
    only at or below [top] and leaves [top] a directory. *)
Definition confinedTo {A} (top : filepath.loc) (m : IO A) : Prop :=
  forall w, os.stat (nodes w) top = Some Directory ->
    changedWithin top w (snd (m w)) /\ os.stat (nodes (snd (m w))) top = Some Directory.

(** [l] lies below [top]. *)
Definition below (top l : filepath.loc) : Prop :=
  os.within top l = true /\ l <> top.

(** An archive in which the payload of a group is stored twice. *)
Definition rewrittenEntries : list tar_entry :=
  [ TarEntry "g1/asset" bytes0to9; TarEntry "g1/asset" bytes10to19;
    TarEntry "g1/pathname" (list_byte_of_string "A.mat") ].

(** A world with a staging directory [stage/tmp]. *)
Definition nestedStaging : world :=
  World {[ filepath.resolve "stage" := Directory;
           filepath.resolve "stage/tmp" := Directory ]}
        (fun _ => 0) [] [] [].

(** ** Packages that unpack into a tree *)

(** The components of the logical path of a group. *)
Definition logicalPath (g : group) : list string :=
  strings.Split (string_of_list_byte (logical g)) filepath.Separator.

(** The components of the path of a sidecar: those of the payload's path,
    the last one with [.meta] appended. *)
Definition metaPath (comps : list string) : list string :=
  removelast comps ++ [List.last comps "" +:+ ".meta"].

(** The paths, below the output directory, that the files of a group are
    moved to. *)
Definition targetsOf (g : group) : list (list string) :=
  logicalPath g :: match sidecar g with
                   | Some _ => [metaPath (logicalPath g)]
                   | None => []
                   end.

(** A clean relative path, without NUL bytes, that does not lead into the
    staging root. *)
Definition cleanPath (comps : list string) : bool :=
  forallb plain comps && forallb noNul comps
  && negb (String.eqb (hd "" comps) ".tmp_unpack").

(** Neither path is the other one or lies below it. *)
Definition unrelated (a b : list string) : bool :=
  negb (bool_decide (take (length a) b = a)) && negb (bool_decide (take (length b) a = b)).

Fixpoint apart (paths : list (list string)) : bool :=
  match paths with
  | [] => true
  | p :: rest => forallb (unrelated p) rest && apart rest
  end.

(** No name occurs twice. *)
Fixpoint distinct (names : list string) : bool :=
  match names with
  | [] => true
  | name :: rest => negb (existsb (String.eqb name) rest) && distinct rest
  end.

(** The groups of a package that unpacks into a tree: plain and distinct
    identifiers without NUL bytes, and target paths that are clean and of
    which none is another one or lies below it. *)
Definition unpackable (groups : list group) : bool :=
  forallb (fun g => plain (gid g) && noNul (gid g)) groups
  && distinct (List.map gid groups)
  && forallb cleanPath (List.concat (List.map targetsOf groups))
  && apart (List.concat (List.map targetsOf groups)).

(** The output directory can be created and there is nothing in it. *)
Definition freshOutput (w : world) (outputDir : string) : Prop :=
  fst (os.MkdirAll outputDir w) = Ok tt
  /\ forall l, below (filepath.resolve outputDir) l -> nodes w !! l = None.

(** The path [comps] below [top]. *)
Definition under (top : filepath.loc) (comps : list string) : filepath.loc :=
  (fst top, snd top ++ comps).

(** [q] is a proper, non-empty prefix of [t]. *)
Definition properPrefix (q t : list string) : Prop :=
  q <> [] /\ q <> t /\ take (length q) t = q.

(** The paths, below the output directory, that the files of a package are
    moved to. *)
Definition targets (groups : list group) : list (list string) :=
  List.concat (List.map targetsOf groups).

(** Below [top] the payload and the sidecar of every group are at the
    group's logical path and hold the bytes of the group's entries. *)
Definition reproduced (top : filepath.loc) (groups : list group) (w : world) : Prop :=
  Forall (fun g =>
            nodes w !! under top (logicalPath g) = Some (File (Plain (payload g)))
            /\ forall meta, sidecar g = Some meta ->
                 nodes w !! under top (metaPath (logicalPath g))
                 = Some (File (Plain meta))) groups.

(** Nothing is at the path [t] below [top], and no regular file is on the
    way to it. *)
Definition vacant (top : filepath.loc) (t : list string) (m : gmap filepath.loc node) : Prop :=
  m !! under top t = None
  /\ forall q c, properPrefix q t -> m !! under top q <> Some (File c).

(** From [m] to [m'], apart from the staged files [srcs] and the target
    paths [ts] below [top], the tree only got the directories on the way to
    the targets. *)
Definition placed (top : filepath.loc) (srcs : list filepath.loc) (ts : list (list string))
    (m m' : gmap filepath.loc node) : Prop :=
  forall l, ~ In l srcs -> (forall t, In t ts -> l <> under top t) ->
    m' !! l = m !! l
    \/ (m !! l = None /\ m' !! l = Some Directory
        /\ exists t q, In t ts /\ properPrefix q t /\ l = under top q).

(** The staged files of the groups of a package. *)
Definition stagedFiles (tempDir : string) (groups : list group) : list filepath.loc :=
  List.concat (List.map (fun g => [groupFile tempDir (gid g) "asset";
                                   groupFile tempDir (gid g) "asset.meta"]) groups).

(** A group with a sidecar, and a package of two groups. *)
Definition metalGroup : group :=
  Group "def456" bytes10to19 (Some bytes0to9) (list_byte_of_string "Materials/Metal.mat").

Definition twoGroups : list group := [woodGroup; metalGroup].

(** ** The directory-walking variant *)

(** The entry is a regular file, by its type flag. *)
Definition regularEntry (Typeflag : tar_entry -> byte) (header : tar_entry) : bool :=
  Byte.eqb (Typeflag header) tar.TypeReg.

(** Where the directory-walking extractor writes an entry, if it writes
    it. *)
Definition writtenAt (Typeflag : tar_entry -> byte) (destDir : string) (header : tar_entry)
  : option filepath.loc :=
  if regularEntry Typeflag header
  then Some (filepath.resolve (filepath.Join [destDir; Name header]))
  else None.

(** The type flags of an archive in which the name of a directory ends with
    a separator and every other entry is a regular file. *)
Definition flagByName (header : tar_entry) : byte :=
  if strings.HasSuffix (Name header) "/" then tar.TypeDir else tar.TypeReg.

(** The type flags of an archive in which every entry but the directories is
    a symbolic link (the character 2). *)
Definition flagLinks (header : tar_entry) : byte :=
  if strings.HasSuffix (Name header) "/" then tar.TypeDir else x32.

(** Bytes for a staged archive, where none is read. *)
Definition noBytes (entries : list tar_entry) (fin : stream_end) : list byte := [].

(** An archive as Unity writes it: the directory of the group, its
    members, and an icon at the root. *)
Definition unityEntries : list tar_entry :=
  [ TarEntry "abc123/" []; TarEntry "abc123/asset" bytes0to9;
    TarEntry "abc123/asset.meta" bytes10to19;
    TarEntry "abc123/pathname" (list_byte_of_string "Materials/Wood.mat");
    TarEntry ".icon.png" bytes0to9 ].

(** A world that holds one package in the working directory, and the
    directory [/tmp]. *)
Definition worldWithTmp (name : string) (entries : list tar_entry) (fin : stream_end) : world :=
  World {[ filepath.resolve name := File (Package entries fin);
           filepath.resolve "/tmp" := Directory ]} (fun _ => 0) [7] [] [].

(** From [w] to [w'] no directory of the tree was removed or replaced. *)
Definition keepsDirs (w w' : world) : Prop :=
  forall l, nodes w !! l = Some Directory -> nodes w' !! l = Some Directory.

(** An action that removes and replaces no directory. *)
Definition leavesDirs {A} (m : IO A) : Prop :=
  forall w, keepsDirs w (snd (m w)).

(** A world with a staged group [abc123] below [/tmp/stage]: its payload,
    its sidecar and its logical path. *)
Definition stagedGroupWorld : world :=
  World {[ filepath.resolve "/tmp" := Directory;
           filepath.resolve "/tmp/stage" := Directory;
           filepath.resolve "/tmp/stage/abc123" := Directory;
           filepath.resolve "/tmp/stage/abc123/asset" := File (Plain bytes0to9);
           filepath.resolve "/tmp/stage/abc123/asset.meta" := File (Plain bytes10to19);
           filepath.resolve "/tmp/stage/abc123/pathname"
             := File (Plain (list_byte_of_string "Materials/Wood.mat"));
           filepath.resolve "/tmp/stage/nopath" := Directory;
           filepath.resolve "/tmp/stage/nopath/asset" := File (Plain bytes0to9) ]}
        (fun _ => 0) [7] [] [].

(** * Properties *)

(** ** Strings and paths *)

Section StringFacts.

Lemma append_cons (c : ascii) (a b : string) : String c a +:+ b = String c (a +:+ b).
Proof. reflexivity. Qed.

Lemma append_nil_l (s : string) : "" +:+ s = s.
Proof. reflexivity. Qed.

Lemma append_nil_r (s : string) : s +:+ "" = s.
Proof.
  induction s as [|c s IH]; [reflexivity|].
  now rewrite append_cons, IH.
Qed.

Lemma append_assoc (a b c : string) : (a +:+ b) +:+ c = a +:+ (b +:+ c).
Proof.
  induction a as [|x a IH]; [reflexivity|].
  now rewrite !append_cons, IH.
Qed.

Lemma length_append (a b : string) :
  String.length (a +:+ b) = String.length a + String.length b.
Proof.
  induction a as [|x a IH]; [reflexivity|].
  rewrite append_cons. simpl. now rewrite IH.
Qed.

Lemma substring_all (s : string) : String.substring 0 (String.length s) s = s.
Proof. induction s as [|c s IH]; simpl; [reflexivity | now rewrite IH]. Qed.

Lemma substring_prefix (p s : string) :
  String.substring 0 (String.length p) (p +:+ s) = p.
Proof.
  induction p as [|c p IH].
  - rewrite append_nil_l. now destruct s.
  - rewrite append_cons. simpl. now rewrite IH.
Qed.

Lemma substring_suffix (p s : string) :
  String.substring (String.length p) (String.length s) (p +:+ s) = s.
Proof.
  induction p as [|c p IH]; [apply substring_all|].
  rewrite append_cons. exact IH.
Qed.

Lemma TrimSuffix_append (p s : string) : strings.TrimSuffix (p +:+ s) s = p.
Proof.
  unfold strings.TrimSuffix, strings.HasSuffix.
  rewrite length_append.
  replace (String.length p + String.length s - String.length s) with (String.length p) by lia.
  rewrite substring_suffix, String.eqb_refl, substring_prefix.
  destruct (String.length s <=? String.length p + String.length s)%nat eqn:E; [reflexivity|].
  apply Nat.leb_gt in E. lia.
Qed.

(** The pieces of a split hold no separator. *)
Lemma Split_pieces (sep : ascii) (s : string) :
  Forall (fun piece => strings.cut sep piece = None) (strings.Split s sep).
Proof.
  induction s as [|c s IH]; simpl.
  - repeat constructor.
  - destruct (Ascii.eqb c sep) eqn:E.
    + constructor; [reflexivity | exact IH].
    + destruct (strings.Split s sep) as [|h t].
      * constructor; [simpl; now rewrite E | constructor].
      * inversion IH as [|? ? Hh Ht]; subst.
        constructor; [simpl; now rewrite E, Hh | exact Ht].
Qed.

Lemma Split_nonempty (sep : ascii) (s : string) : strings.Split s sep <> [].
Proof.
  destruct s as [|c s]; simpl; [discriminate|].
  destruct (Ascii.eqb c sep); [discriminate|].
  destruct (strings.Split s sep); discriminate.
Qed.

Lemma Split_whole (sep : ascii) (s : string) :
  strings.cut sep s = None -> strings.Split s sep = [s].
Proof.
  induction s as [|c s IH]; simpl; [reflexivity|].
  destruct (Ascii.eqb c sep); [discriminate|].
  destruct (strings.cut sep s) as [[a b]|]; [discriminate|].
  intros _. now rewrite IH.
Qed.

Lemma last_Forall {A} (P : A -> Prop) (l : list A) (d : A) :
  l <> [] -> Forall P l -> P (List.last l d).
Proof.
  induction l as [|x l IH]; [congruence|].
  intros _ H. inversion H as [|? ? Hx Hl]; subst.
  destruct l as [|y l]; [exact Hx|].
  apply IH; [discriminate | exact Hl].
Qed.

End StringFacts.

(** ** The default output directory *)

Section OutputDir.

Lemma from_last_dot_hasDot (s : string) :
  hasDot s = match filepath.from_last_dot s with Some _ => true | None => false end.
Proof.
  induction s as [|c s IH]; simpl; [reflexivity|].
  rewrite IH. destruct (filepath.from_last_dot s); [apply orb_true_r|].
  rewrite orb_false_r. now destruct (Ascii.eqb c ".").
Qed.

Lemma from_last_dot_splits (s : string) :
  match filepath.from_last_dot s with
  | Some ext => s = stripFinalExtension s +:+ ext
  | None => True
  end.
Proof.
  induction s as [|c s IH]; simpl; [exact I|].
  rewrite from_last_dot_hasDot.
  destruct (filepath.from_last_dot s) as [ext|].
  - rewrite append_cons. now rewrite <- IH.
  - destruct (Ascii.eqb c "."); [reflexivity | exact I].
Qed.

Lemma stripFinalExtension_no_dot (s : string) :
  hasDot s = false -> stripFinalExtension s = s.
Proof.
  destruct s as [|c s]; simpl; [reflexivity|].
  intros H. apply orb_false_iff in H as [Hc Hs]. now rewrite Hs, Hc.
Qed.

(** Stripping the extension of a name that holds no separator. *)
Lemma TrimSuffix_Ext (name : string) :
  strings.cut filepath.Separator name = None ->
  strings.TrimSuffix name (filepath.Ext name) = stripFinalExtension name.
Proof.
  intros H. unfold filepath.Ext. rewrite (Split_whole _ _ H). simpl.
  pose proof (from_last_dot_splits name) as Hs.
  pose proof (from_last_dot_hasDot name) as Hd.
  destruct (filepath.from_last_dot name) as [ext|].
  - rewrite Hs at 1. apply TrimSuffix_append.
  - rewrite (stripFinalExtension_no_dot _ Hd).
    rewrite <- (append_nil_r name) at 1. apply TrimSuffix_append.
Qed.

Lemma Base_cases (path : string) :
  filepath.Base path = "/" \/ strings.cut filepath.Separator (filepath.Base path) = None.
Proof.
  unfold filepath.Base.
  destruct (String.eqb path ""); [now right|].
  set (pieces := strings.Split (filepath.strip_trailing_separators path) filepath.Separator).
  assert (Hlast : strings.cut filepath.Separator (List.last pieces "") = None).
  { apply (last_Forall (fun piece => strings.cut filepath.Separator piece = None)).
    - apply Split_nonempty.
    - apply Split_pieces. }
  destruct (List.last pieces ""); [now left | now right].
Qed.

End OutputDir.

(** C8. When the command line has no output-directory argument, the output
    directory is the base name of the input file without its final
    extension; for the single argument [MyPackage.unitypackage] it is
    [MyPackage]. *)
Theorem output_dir_defaults_to_base_name_without_extension :
  (forall prog inputFile : string,
      outputDirOf [prog; inputFile] = stripFinalExtension (filepath.Base inputFile))
  /\ outputDirOf ["unpack"; "MyPackage.unitypackage"] = "MyPackage".
Proof.
  split; [|reflexivity].
  intros prog inputFile. unfold outputDirOf. simpl.
  destruct (Base_cases inputFile) as [H|H].
  - now rewrite H.
  - now apply TrimSuffix_Ext.
Qed.

(** ** Concrete runs *)

(** C2. The package with the single group [abc123], whose [pathname] is
    [Materials/Wood.mat] and whose [asset] is the ten bytes 0x00..0x09,
    unpacked into [out/]: the run succeeds, [out/Materials/Wood.mat] holds
    exactly those ten bytes, there is no [out/Materials/Wood.mat.meta], and
    the staging directory is gone. *)
Theorem wood_package_is_unpacked :
  let run := main ["unpack"; "Wood.unitypackage"; "out/"]
                  (worldWith "Wood.unitypackage" woodEntries EndOfArchive) in
  fst run = 0
  /\ os.stat (nodes (snd run)) (filepath.resolve "out/Materials/Wood.mat")
     = Some (File (Plain bytes0to9))
  /\ os.stat (nodes (snd run)) (filepath.resolve "out/Materials/Wood.mat.meta") = None
  /\ os.stat (nodes (snd run)) (filepath.resolve "out/.tmp_unpack") = None.
Proof. vm_compute. repeat split; reflexivity. Qed.

(** C9. A package whose [pathname] text holds a parent-directory segment
    makes the run write the payload outside the destination root: the text
    is joined to the root as it is. *)
Theorem pathname_with_dotdot_escapes_output_dir :
  let run := main ["unpack"; "Evil.unitypackage"; "out"]
                  (worldWith "Evil.unitypackage" escapingEntries EndOfArchive) in
  In ".." (strings.Split "../outside/evil.txt" "/")
  /\ fst run = 0
  /\ filepath.Join ["out"; "../outside/evil.txt"] = "outside/evil.txt"
  /\ os.stat (nodes (snd run)) (filepath.resolve "outside/evil.txt")
     = Some (File (Plain bytes0to9))
  /\ os.within (filepath.resolve "out") (filepath.resolve "outside/evil.txt") = false
  /\ os.stat (nodes (worldWith "Evil.unitypackage" escapingEntries EndOfArchive))
             (filepath.resolve "outside/evil.txt") = None.
Proof. vm_compute. repeat split; try reflexivity. now left. Qed.

(** C4, where the code departs from the specification. When the input file does not
    exist the run ends through [os.Exit(1)]: the deferred removal is never
    called and the staging directory stays behind. *)
Theorem failed_run_leaves_staging_directory :
  let before := World ∅ (fun _ => 0) [7] [] [] in
  let run := main ["unpack"; "Missing.unitypackage"; "out"] before in
  fst run = 1
  /\ os.stat (nodes (snd run)) (filepath.resolve "out/.tmp_unpack/unpack-unitypackage-7")
     = Some Directory
  /\ os.stat (nodes before) (filepath.resolve "out/.tmp_unpack/unpack-unitypackage-7") = None
  /\ ~ In (CallRemoveAll "out/.tmp_unpack") (calls (snd run)).
Proof.
  vm_compute. repeat split; try reflexivity.
  intros H. repeat (destruct H as [H|H]; [discriminate H|]). exact H.
Qed.

(** ** The extractor's records *)

Section Extractor.

Variable tempDir : string.

Lemma extractEntry_pathname header current assets w :
  isPathname header = true ->
  extractEntry tempDir header None current assets w
  = (Ok (emptyAsset, assets ++ [setPathName (string_of_list_byte (Body header)) current]), w).
Proof.
  unfold isPathname, isMember, member, extractEntry.
  destruct (strings.SplitN (Name header) "/" 2) as [|d [|f [|x l]]]; try discriminate.
  intros Hf. apply String.eqb_eq in Hf. subst f. reflexivity.
Qed.

Lemma extractEntry_other header broken current assets w st w' :
  isPathname header = false ->
  extractEntry tempDir header broken current assets w = (Ok st, w') ->
  snd st = assets.
Proof.
  unfold isPathname, isMember, member, extractEntry.
  destruct (strings.SplitN (Name header) "/" 2) as [|d [|f [|x l]]];
    try (intros _ H; inversion H; reflexivity).
  intros Hf.
  destruct (String.eqb f "asset" || String.eqb f "asset.meta") eqn:Ea.
  - unfold bind, wrap, defer, ret. intros H.
    destruct (os.MkdirAll _ w) as [[?|?] w1]; [|discriminate].
    destruct (os.Create _ w1) as [[out|?] w2]; [|discriminate].
    destruct (io.CopyEntry _ _ _ w2) as [[?|?] w3]; [|discriminate].
    destruct (String.eqb f "asset"); inversion H; reflexivity.
  - rewrite Hf. intros H. inversion H. reflexivity.
Qed.

Lemma extractEntries_records entries : forall fin current assets w found w',
  extractEntries tempDir entries fin current assets w = (Ok found, w') ->
  List.map PathName found = List.map PathName assets ++ pathnamesOf entries.
Proof.
  unfold pathnamesOf.
  induction entries as [|header entries IH]; intros fin current assets w found w' H.
  - simpl in H. destruct fin as [|cause [pending|]].
    + inversion H. simpl. now rewrite app_nil_r.
    + unfold bind, fail in H.
      destruct (extractEntry _ _ _ _ _ w) as [[?|?] ?]; discriminate.
    + discriminate.
  - simpl in H. unfold bind in H.
    destruct (isPathname header) eqn:Hp.
    + rewrite (extractEntry_pathname _ _ _ _ Hp) in H. simpl in H.
      apply IH in H. rewrite H. simpl. rewrite Hp. simpl.
      rewrite List.map_app. simpl. now rewrite <- app_assoc.
    + destruct (extractEntry _ _ _ _ _ w) as [[st|?] w1] eqn:E; [|discriminate].
      pose proof (extractEntry_other _ _ _ _ _ _ _ Hp E) as Hs.
      apply IH in H. rewrite H, Hs. simpl. now rewrite Hp.
Qed.

End Extractor.

Lemma extractTarGz_reads srcFile tempDir w found w' :
  extractTarGz srcFile tempDir w = (Ok found, w') ->
  exists entries fin w1,
    os.stat (nodes w) (filepath.resolve srcFile) = Some (File (Package entries fin))
    /\ nodes w1 = nodes w
    /\ exists w2, extractEntries tempDir entries fin emptyAsset [] w1 = (Ok found, w2).
Proof.
  unfold extractTarGz, bind, wrap, defer, ret, fmt.Printf.
  unfold os.Open at 1.
  set (w0 := called (CallOpen srcFile) (printed _ w)).
  destruct (String.eqb srcFile ""); [discriminate|].
  destruct (os.stat (nodes w0) (filepath.resolve srcFile)) as [n|] eqn:Es; [|discriminate].
  unfold gzip.NewReader. rewrite Es.
  destruct n as [|[data|entries fin]]; try discriminate.
  simpl.
  destruct (extractEntries tempDir entries fin emptyAsset [] w0) as [[assets|?] w2] eqn:E;
    [|discriminate].
  intros H. inversion H; subst.
  exists entries, fin, w0. repeat split; [exact Es | eauto].
Qed.

(** C10. A successful extraction returns one record per [pathname] entry of
    the archive, in the order of those entries, whatever else the groups
    hold; and the step that reads a [pathname] entry appends the accumulator
    with the text as its [PathName] and leaves the empty record as the new
    accumulator. *)
Theorem one_record_per_pathname_entry srcFile tempDir entries fin w found w' :
  os.stat (nodes w) (filepath.resolve srcFile) = Some (File (Package entries fin)) ->
  extractTarGz srcFile tempDir w = (Ok found, w') ->
  List.map PathName found = pathnamesOf entries
  /\ length found = length (List.filter isPathname entries)
  /\ (forall header current assets w0,
         isPathname header = true ->
         extractEntry tempDir header None current assets w0
         = (Ok (emptyAsset,
                assets ++ [setPathName (string_of_list_byte (Body header)) current]), w0)).
Proof.
  intros Hsrc H.
  destruct (extractTarGz_reads _ _ _ _ _ H) as (entries' & fin' & w1 & Hs & _ & w2 & Hx).
  rewrite Hsrc in Hs. inversion Hs; subst entries' fin'.
  apply extractEntries_records in Hx. simpl in Hx.
  split; [exact Hx|]. split.
  - rewrite <- (List.length_map PathName), Hx. unfold pathnamesOf. now rewrite List.length_map.
  - intros. now apply extractEntry_pathname.
Qed.

(** C10 at a concrete input: the package of the wood scenario, staged under
    [tmp]. *)
Lemma one_record_per_pathname_entry_witness :
  let w := worldWith "Wood.unitypackage" woodEntries EndOfArchive in
  let run := extractTarGz "Wood.unitypackage" "tmp" w in
  os.stat (nodes w) (filepath.resolve "Wood.unitypackage")
  = Some (File (Package woodEntries EndOfArchive))
  /\ run = (Ok [woodRecord], snd run)
  /\ List.map PathName [woodRecord] = pathnamesOf woodEntries
  /\ length [woodRecord] = length (List.filter isPathname woodEntries)
  /\ extractEntry "tmp" (TarEntry "abc123/pathname" []) None woodRecord [] w
     = (Ok (emptyAsset, [] ++ [setPathName (string_of_list_byte []) woodRecord]), w).
Proof.
  intros w run.
  assert (H1 : os.stat (nodes w) (filepath.resolve "Wood.unitypackage")
               = Some (File (Package woodEntries EndOfArchive))) by reflexivity.
  assert (H2 : run = (Ok [woodRecord], snd run)) by (vm_compute; reflexivity).
  destruct (one_record_per_pathname_entry "Wood.unitypackage" "tmp" woodEntries
              EndOfArchive w [woodRecord] (snd run) H1 H2) as (H3 & H4 & H5).
  split; [exact H1|]. split; [exact H2|]. split; [exact H3|]. split; [exact H4|].
  apply H5. reflexivity.
Defined.

(** ** The reconstructor's skip policy *)

Section IgnoresOutput.

Lemma sameButOutput_refl w : sameButOutput w w.
Proof. now repeat split. Qed.

Lemma sameButOutput_printed_l line w v :
  sameButOutput w v -> sameButOutput (printed line w) v.
Proof. intros H. exact H. Qed.

Lemma sameButOutput_printed_r line w v :
  sameButOutput w v -> sameButOutput w (printed line v).
Proof. intros H. exact H. Qed.

Ltac same_worlds :=
  let H := fresh in
  intros [n vo e s c] [n' vo' e' s' c'] H;
  destruct H as (? & ? & ? & ?); simpl in *; subst.

Ltac case_all :=
  repeat match goal with
         | |- context [match ?x with _ => _ end] => destruct x; simpl
         end;
  repeat split.

Lemma ignoresOutput_ret {A} (a : A) : ignoresOutput (ret a).
Proof. intros w v H. now split. Qed.

Lemma ignoresOutput_bind {A B} (m : IO A) (k : A -> IO B) :
  ignoresOutput m -> (forall a, ignoresOutput (k a)) -> ignoresOutput (bind m k).
Proof.
  intros Hm Hk w v H. unfold bind.
  destruct (Hm w v H) as [Hr Hw].
  destruct (m w) as [[a|e] w1], (m v) as [[a'|e'] v1]; simpl in *; try discriminate.
  - inversion Hr; subst. now apply Hk.
  - inversion Hr; subst. split; [reflexivity | exact Hw].
Qed.

Lemma ignoresOutput_wrap {A} msg (m : IO A) : ignoresOutput m -> ignoresOutput (wrap msg m).
Proof.
  intros Hm w v H. unfold wrap.
  destruct (Hm w v H) as [Hr Hw].
  destruct (m w) as [[a|e] w1], (m v) as [[a'|e'] v1]; simpl in *; try discriminate;
    inversion Hr; subst; (split; [reflexivity | exact Hw]).
Qed.

Lemma ignoresOutput_defer {A} path (m : IO A) :
  ignoresOutput m -> ignoresOutput (defer (os.Close path) m).
Proof.
  intros Hm w v H. unfold defer.
  destruct (Hm w v H) as [Hr Hw].
  destruct (m w) as [r w1], (m v) as [r' v1]; simpl in *.
  split; [exact Hr|].
  destruct Hw as (? & ? & ? & Hc). unfold os.Close, called; simpl.
  repeat split; try assumption. now rewrite Hc.
Qed.

Lemma ignoresOutput_Printf text : ignoresOutput (fmt.Printf text).
Proof. intros w v H. now split. Qed.

Lemma ignoresOutput_MkdirAll path : ignoresOutput (os.MkdirAll path).
Proof. same_worlds. unfold os.MkdirAll; simpl. case_all. Qed.

Lemma ignoresOutput_Rename old new : ignoresOutput (os.Rename old new).
Proof. same_worlds. unfold os.Rename; simpl. case_all. Qed.

Lemma ignoresOutput_Open path : ignoresOutput (os.Open path).
Proof. same_worlds. unfold os.Open; simpl. case_all. Qed.

Lemma ignoresOutput_Create path : ignoresOutput (os.Create path).
Proof. same_worlds. unfold os.Create; simpl. case_all. Qed.

Lemma ignoresOutput_Copy dst src : ignoresOutput (io.Copy dst src).
Proof. same_worlds. unfold io.Copy; simpl. case_all. Qed.

Lemma ignoresOutput_moveFile source destination :
  ignoresOutput (moveFile source destination).
Proof.
  unfold moveFile.
  apply ignoresOutput_bind; [apply ignoresOutput_wrap, ignoresOutput_MkdirAll|].
  intros _ w v H.
  destruct (ignoresOutput_Rename source destination w v H) as [Hr Hw].
  destruct (os.Rename source destination w) as [[?|?] w1],
           (os.Rename source destination v) as [[?|?] v1]; simpl in *; try discriminate.
  - now split.
  - revert Hw. generalize w1 v1.
    apply ignoresOutput_bind; [apply ignoresOutput_wrap, ignoresOutput_Open|].
    intros in_. apply ignoresOutput_defer.
    apply ignoresOutput_bind; [apply ignoresOutput_wrap, ignoresOutput_Create|].
    intros out. apply ignoresOutput_defer.
    apply ignoresOutput_bind; [apply ignoresOutput_wrap, ignoresOutput_Copy|].
    intros _. apply ignoresOutput_ret.
Qed.

Lemma ignoresOutput_reconstructAssets assets targetDir :
  ignoresOutput (reconstructAssets assets targetDir).
Proof.
  induction assets as [|asset assets IH]; [apply ignoresOutput_ret|].
  simpl. destruct (String.eqb (PathName asset) "" || String.eqb (AssetPath asset) "").
  - apply ignoresOutput_bind; [apply ignoresOutput_Printf | intros _; exact IH].
  - apply ignoresOutput_bind; [apply ignoresOutput_Printf | intros _].
    apply ignoresOutput_bind; [apply ignoresOutput_wrap, ignoresOutput_moveFile | intros _].
    apply ignoresOutput_bind; [|intros _; exact IH].
    destruct (negb (String.eqb (MetaPath asset) "")).
    + apply ignoresOutput_wrap, ignoresOutput_moveFile.
    + apply ignoresOutput_Printf.
Qed.

End IgnoresOutput.

Section SkipPolicy.

Variable targetDir : string.

Lemma reconstructAssets_skip asset assets w :
  eligible asset = false ->
  reconstructAssets (asset :: assets) targetDir w
  = reconstructAssets assets targetDir (printed skipWarning w).
Proof.
  unfold eligible. intros H. apply negb_false_iff in H.
  simpl. now rewrite H.
Qed.

Lemma reconstructAssets_payload_only asset assets w :
  eligible asset = true ->
  MetaPath asset = "" ->
  reconstructAssets (asset :: assets) targetDir w
  = match moveFile (AssetPath asset) (filepath.Join [targetDir; PathName asset])
                   (printed ("[INFO] Moving asset: " +:+ PathName asset +:+ nl) w) with
    | (Ok _, w1) =>
        reconstructAssets assets targetDir
          (printed ("[INFO] No .meta file found for " +:+ PathName asset +:+ nl) w1)
    | (Err e, w1) => (Err (Errorf "failed to move asset" e), w1)
    end.
Proof.
  unfold eligible. intros H Hm. apply negb_true_iff in H.
  simpl. rewrite H, Hm. simpl.
  unfold bind, wrap, fmt.Printf.
  now destruct (moveFile _ _ _) as [[?|?] ?].
Qed.

Lemma reconstructAssets_eligible_only assets w :
  fst (reconstructAssets assets targetDir w)
  = fst (reconstructAssets (List.filter eligible assets) targetDir w)
  /\ sameButOutput (snd (reconstructAssets assets targetDir w))
                   (snd (reconstructAssets (List.filter eligible assets) targetDir w)).
Proof.
  revert w. induction assets as [|asset assets IH]; intros w.
  - split; [reflexivity | apply sameButOutput_refl].
  - cbn [List.filter]. destruct (eligible asset) eqn:He.
    + unfold eligible in He. apply negb_true_iff in He.
      simpl. rewrite He. unfold bind, fmt.Printf.
      destruct (wrap _ _ _) as [[?|?] w1]; [|split; [reflexivity | apply sameButOutput_refl]].
      destruct (if negb _ then _ else _) as [[?|?] w2];
        [|split; [reflexivity | apply sameButOutput_refl]].
      apply IH.
    + rewrite (reconstructAssets_skip _ _ _ He).
      destruct (IH w) as [Hr Hw].
      destruct (ignoresOutput_reconstructAssets assets targetDir (printed skipWarning w) w)
        as [Hr' Hw']; [apply sameButOutput_printed_l, sameButOutput_refl|].
      split; [congruence|].
      destruct Hw as (? & ? & ? & ?), Hw' as (? & ? & ? & ?).
      repeat split; congruence.
Qed.

End SkipPolicy.

(** C6. The reconstructor skips a record without logical path or without
    payload: it prints the warning and goes on with the next record.  For a
    record with logical path and payload but no sidecar it moves the payload
    only, and goes on unless that move fails.  The outcome, the file tree and
    the system calls of a pass are those of the pass over the eligible
    records alone; a pass over records none of which is eligible succeeds and
    leaves the file tree as it was. *)
Theorem reconstructor_skips_incomplete_records targetDir assets w :
  (forall asset,
      eligible asset = false ->
      reconstructAssets (asset :: assets) targetDir w
      = reconstructAssets assets targetDir (printed skipWarning w))
  /\ (forall asset,
         eligible asset = true ->
         MetaPath asset = "" ->
         reconstructAssets (asset :: assets) targetDir w
         = match moveFile (AssetPath asset) (filepath.Join [targetDir; PathName asset])
                          (printed ("[INFO] Moving asset: " +:+ PathName asset +:+ nl) w) with
           | (Ok _, w1) =>
               reconstructAssets assets targetDir
                 (printed ("[INFO] No .meta file found for " +:+ PathName asset +:+ nl) w1)
           | (Err e, w1) => (Err (Errorf "failed to move asset" e), w1)
           end)
  /\ fst (reconstructAssets assets targetDir w)
     = fst (reconstructAssets (List.filter eligible assets) targetDir w)
  /\ sameButOutput (snd (reconstructAssets assets targetDir w))
                   (snd (reconstructAssets (List.filter eligible assets) targetDir w))
  /\ (List.filter eligible assets = [] ->
      fst (reconstructStructure assets targetDir w) = Ok tt
      /\ nodes (snd (reconstructStructure assets targetDir w)) = nodes w
      /\ calls (snd (reconstructStructure assets targetDir w)) = calls w).
Proof.
  split; [intros; now apply reconstructAssets_skip|].
  split; [intros; now apply reconstructAssets_payload_only|].
  destruct (reconstructAssets_eligible_only targetDir assets w) as [Hr Hw].
  split; [exact Hr|]. split; [exact Hw|].
  clear Hr Hw. intros Hnone.
  unfold reconstructStructure, bind, fmt.Printf.
  destruct (reconstructAssets_eligible_only targetDir assets
              (printed ("[INFO] Reconstructing Unity structure in: " +:+ targetDir +:+ nl) w))
    as [Hr' Hw'].
  rewrite Hnone in Hr', Hw'. simpl in Hr', Hw'.
  destruct (reconstructAssets assets targetDir _) as [[[]|?] w1]; simpl in *;
    [|discriminate Hr'].
  destruct Hw' as (Hn & _ & _ & Hc). now repeat split.
Qed.

(** C6 at concrete inputs: a record without payload, and a record with a
    staged payload and no sidecar. *)
Lemma reconstructor_skips_incomplete_records_witness :
  eligible lostRecord = false
  /\ eligible stagedRecord = true
  /\ MetaPath stagedRecord = ""
  /\ List.filter eligible [lostRecord] = []
  /\ reconstructAssets [lostRecord; lostRecord] "out" twoVolumes
     = reconstructAssets [lostRecord] "out" (printed skipWarning twoVolumes)
  /\ fst (reconstructAssets [stagedRecord; lostRecord] "out" twoVolumes) = Ok tt
  /\ fst (reconstructStructure [lostRecord] "out" twoVolumes) = Ok tt
  /\ nodes (snd (reconstructStructure [lostRecord] "out" twoVolumes)) = nodes twoVolumes
  /\ calls (snd (reconstructStructure [lostRecord] "out" twoVolumes)) = calls twoVolumes.
Proof.
  destruct (reconstructor_skips_incomplete_records "out" [lostRecord] twoVolumes)
    as (H1 & H2 & _ & _ & H5).
  assert (E1 : eligible lostRecord = false) by reflexivity.
  assert (E2 : eligible stagedRecord = true) by reflexivity.
  assert (E3 : MetaPath stagedRecord = "") by reflexivity.
  assert (E4 : List.filter eligible [lostRecord] = []) by reflexivity.
  split; [exact E1|]. split; [exact E2|]. split; [exact E3|]. split; [exact E4|].
  split; [exact (H1 lostRecord E1)|].
  split; [rewrite (H2 stagedRecord E2 E3); vm_compute; reflexivity|].
  exact (H5 E4).
Defined.

(** ** The file tree under the system calls *)

Section TreeFacts.

Implicit Types (m : gmap filepath.loc node) (l : filepath.loc).

Lemma onlyNewDirs_refl m : onlyNewDirs m m.
Proof. intros l. now left. Qed.



Lemma onlyNewDirs_stat m m' l n :
  onlyNewDirs m m' -> os.stat m l = Some n -> os.stat m' l = Some n.
Proof.
  unfold os.stat. intros H. destruct (os.implicit_dir l); [trivial|].
  destruct (H l) as [E|[E _]]; congruence.
Qed.


Lemma stat_None m l : os.stat m l = None -> m !! l = None.
Proof. unfold os.stat. now destruct (os.implicit_dir l). Qed.

Lemma stat_File m l c : os.stat m l = Some (File c) -> m !! l = Some (File c).
Proof. unfold os.stat. now destruct (os.implicit_dir l). Qed.

Lemma stat_not_Directory m l :
  os.stat m l <> Some Directory -> os.implicit_dir l = false.
Proof. unfold os.stat. destruct (os.implicit_dir l); congruence. Qed.

Lemma mkdir_all_onlyNewDirs isRooted up : forall m m',
  os.mkdir_all isRooted up m = inr m' -> onlyNewDirs m m'.
Proof.
  induction up as [|e up IH]; intros m m'; simpl.
  - destruct (os.stat m (isRooted, [])) as [[|c]|];
      intros H; inversion H; apply onlyNewDirs_refl.
  - destruct (os.stat m (isRooted, rev up ++ [e])) as [[|c]|] eqn:Es.
    + intros H; inversion H; apply onlyNewDirs_refl.
    + discriminate.
    + destruct (os.mkdir_all isRooted up m) as [err|m1] eqn:E; [discriminate|].
      intros H; inversion H; subst m'. clear H.
      specialize (IH _ _ E). apply stat_None in Es.
      intros l. destruct (decide ((isRooted, rev up ++ [e]) = l)) as [<-|Hne].
      * right. split; [exact Es | apply lookup_insert_eq].
      * rewrite lookup_insert_ne by exact Hne. apply IH.
Qed.



End TreeFacts.

(** What each system call leaves behind. *)
Section CallFacts.

Lemma MkdirAll_Ok path w w' :
  os.MkdirAll path w = (Ok tt, w') ->
  onlyNewDirs (nodes w) (nodes w') /\ volume w' = volume w
  /\ calls w' = calls w ++ [CallMkdirAll path].
Proof.
  unfold os.MkdirAll. destruct (String.eqb path ""); [discriminate|].
  destruct (os.mkdir_all _ _ _) as [e|m] eqn:E; [discriminate|].
  intros H; inversion H. simpl. repeat split.
  now apply mkdir_all_onlyNewDirs in E.
Qed.

Lemma MkdirAll_Err path w e w' :
  os.MkdirAll path w = (Err e, w') ->
  nodes w' = nodes w /\ calls w' = calls w ++ [CallMkdirAll path].
Proof.
  unfold os.MkdirAll. destruct (String.eqb path "").
  - intros H; inversion H. now split.
  - destruct (os.mkdir_all _ _ _) as [e'|m] eqn:E; [|discriminate].
    intros H; inversion H. now split.
Qed.

Lemma Rename_Ok old new w w' :
  os.Rename old new w = (Ok tt, w') ->
  volume w' = volume w /\ calls w' = calls w ++ [CallRename old new]
  /\ forall c, os.stat (nodes w) (filepath.resolve old) = Some (File c) ->
               os.stat (nodes w') (filepath.resolve new) = Some (File c).
Proof.
  unfold os.Rename. destruct (String.eqb old "" || String.eqb new ""); [discriminate|].
  destruct (os.rename _ _ _ _) as [e|m] eqn:E; [discriminate|].
  intros H; inversion H; subst w'. simpl. repeat split.
  intros c Hc. unfold os.rename in E. cbn [nodes volume called] in E. rewrite Hc in E.
  destruct (os.stat (nodes w) (os.parent (filepath.resolve new))) as [[|?]|];
    try discriminate.
  destruct (negb _); [discriminate|].
  destruct (os.stat (nodes w) (filepath.resolve new)) as [[|c']|] eqn:En;
    try discriminate; inversion E; subst m;
    (assert (Hi : os.implicit_dir (filepath.resolve new) = false)
      by (apply (stat_not_Directory (nodes w)); congruence));
    unfold os.stat; rewrite Hi; apply lookup_insert_eq.
Qed.

Lemma Rename_Err old new w e w' :
  os.Rename old new w = (Err e, w') ->
  nodes w' = nodes w /\ volume w' = volume w
  /\ calls w' = calls w ++ [CallRename old new].
Proof.
  unfold os.Rename. destruct (String.eqb old "" || String.eqb new "").
  - intros H; inversion H. now repeat split.
  - destruct (os.rename _ _ _ _) as [e'|m]; [|discriminate].
    intros H; inversion H. now repeat split.
Qed.

(** Renaming a regular file onto itself succeeds. *)
Lemma Rename_onto_itself old new w c :
  os.stat (nodes w) (filepath.resolve old) = Some (File c) ->
  filepath.resolve old = filepath.resolve new ->
  os.stat (nodes w) (os.parent (filepath.resolve new)) = Some Directory ->
  old <> "" -> new <> "" ->
  exists w', os.Rename old new w = (Ok tt, w').
Proof.
  intros Hc Heq Hp Ho Hn. unfold os.Rename.
  apply String.eqb_neq in Ho, Hn. rewrite Ho, Hn. simpl.
  unfold os.rename. rewrite Hc, Hp. rewrite <- Heq, Nat.eqb_refl. simpl.
  rewrite Hc. eauto.
Qed.

Lemma Open_Ok path w f w' :
  os.Open path w = (Ok f, w') ->
  f = path /\ path <> "" /\ nodes w' = nodes w /\ volume w' = volume w
  /\ calls w' = calls w ++ [CallOpen path].
Proof.
  unfold os.Open. destruct (String.eqb path "") eqn:Ep; [discriminate|].
  destruct (os.stat _ _); [|discriminate].
  intros H; inversion H; subst. apply String.eqb_neq in Ep. now repeat split.
Qed.

Lemma Open_Err path w e w' :
  os.Open path w = (Err e, w') ->
  nodes w' = nodes w /\ calls w' = calls w ++ [CallOpen path].
Proof.
  unfold os.Open. destruct (String.eqb path "").
  - intros H; inversion H. now split.
  - destruct (os.stat _ _); [discriminate|].
    intros H; inversion H. now split.
Qed.

Lemma Create_Ok path w f w' :
  os.Create path w = (Ok f, w') ->
  f = path /\ path <> ""
  /\ os.implicit_dir (filepath.resolve path) = false
  /\ os.stat (nodes w) (os.parent (filepath.resolve path)) = Some Directory
  /\ nodes w' = <[filepath.resolve path := File (Plain [])]> (nodes w)
  /\ volume w' = volume w
  /\ calls w' = calls w ++ [CallCreate path].
Proof.
  unfold os.Create. destruct (String.eqb path "") eqn:Ep; [discriminate|].
  apply String.eqb_neq in Ep. simpl.
  destruct (os.stat (nodes w) (filepath.resolve path)) as [[|c]|] eqn:Es; [discriminate| |];
    (destruct (os.stat (nodes w) (os.parent (filepath.resolve path))) as [[|?]|] eqn:Epar;
     try discriminate);
    intros H;
    (assert (Hi : os.implicit_dir (filepath.resolve path) = false)
      by (apply (stat_not_Directory (nodes w)); congruence));
    inversion H; subst; simpl; now repeat split.
Qed.

Lemma Create_Err path w e w' :
  os.Create path w = (Err e, w') ->
  nodes w' = nodes w /\ calls w' = calls w ++ [CallCreate path].
Proof.
  unfold os.Create. destruct (String.eqb path "").
  - intros H; inversion H. now split.
  - simpl. destruct (os.stat (nodes w) (filepath.resolve path)) as [[|c]|];
      [intros H; inversion H; now split| |];
      (destruct (os.stat (nodes w) (os.parent (filepath.resolve path))) as [[|?]|];
       try discriminate; intros H; inversion H; now split).
Qed.

Lemma Copy_Ok dst src w w' :
  os.implicit_dir (filepath.resolve dst) = false ->
  io.Copy dst src w = (Ok tt, w') ->
  exists c, os.stat (nodes w) (filepath.resolve src) = Some (File c)
            /\ os.stat (nodes w') (filepath.resolve dst) = Some (File c)
            /\ calls w' = calls w ++ [CallCopy dst].
Proof.
  intros Hi. unfold io.Copy. simpl.
  destruct (os.stat (nodes w) (filepath.resolve src)) as [[|c]|]; try discriminate.
  intros H; inversion H. exists c. simpl. repeat split.
  unfold os.stat. rewrite Hi. apply lookup_insert_eq.
Qed.

Lemma Copy_Err dst src w e w' :
  io.Copy dst src w = (Err e, w') -> calls w' = calls w ++ [CallCopy dst].
Proof.
  unfold io.Copy. simpl.
  destruct (os.stat (nodes w) (filepath.resolve src)) as [[|c]|]; try discriminate;
    intros H; now inversion H.
Qed.

End CallFacts.

(** ** The relocation primitive *)

Lemma newCalls_app w w' l : calls w' = calls w ++ l -> newCalls w w' = l.
Proof. unfold newCalls. intros ->. now rewrite drop_app_length. Qed.

(** C5, where the code departs from the specification. Across volumes the rename
    fails and [moveFile] falls back to the copy; it reports success without
    any sync of the destination, and the source stays where it was. *)
Lemma moveFile_fallback_does_not_sync :
  let run := moveFile "stage/asset" "usb/Wood.mat" twoVolumes in
  fst run = Ok tt
  /\ fst (os.Rename "stage/asset" "usb/Wood.mat" (snd (os.MkdirAll "usb" twoVolumes)))
     = Err (LinkError "rename" "stage/asset" "usb/Wood.mat" EXDEV)
  /\ calls (snd run)
     = [ CallMkdirAll "usb"; CallRename "stage/asset" "usb/Wood.mat";
         CallOpen "stage/asset"; CallCreate "usb/Wood.mat"; CallCopy "usb/Wood.mat";
         CallClose "usb/Wood.mat"; CallClose "stage/asset" ]
  /\ ~ In (CallSync "usb/Wood.mat") (calls (snd run))
  /\ os.stat (nodes (snd run)) (filepath.resolve "usb/Wood.mat") = Some (File (Plain bytes0to9))
  /\ os.stat (nodes (snd run)) (filepath.resolve "stage/asset") = Some (File (Plain bytes0to9)).
Proof.
  vm_compute. repeat split; try reflexivity.
  intros H. repeat (destruct H as [H|H]; [discriminate H|]). exact H.
Qed.

(** The other variant's [copyFile] never renames; it syncs the destination
    before it reports success. *)
Lemma copyFile_syncs_and_never_renames source destination w w' :
  TreeVariant.copyFile source destination w = (Ok tt, w') ->
  newCalls w w'
  = [ CallOpen source; CallCreate destination; CallCopy destination;
      CallSync destination; CallClose destination; CallClose source ].
Proof.
  unfold TreeVariant.copyFile, bind, wrap, defer, ret, os.Sync, os.Close.
  destruct (os.Open source w) as [[f|e] w1] eqn:Eo; [|discriminate].
  destruct (os.Create destination w1) as [[g|e] w2] eqn:Ec; [|discriminate].
  destruct (io.Copy g f w2) as [[[]|e] w3] eqn:Ey; [|discriminate].
  intros H; inversion H; subst w'. clear H.
  apply Open_Ok in Eo as (-> & _ & _ & _ & Ho).
  apply Create_Ok in Ec as (-> & _ & Hi & _ & _ & _ & Hc).
  apply (Copy_Ok _ _ _ _ Hi) in Ey as (c & _ & _ & Hy).
  apply newCalls_app. simpl. rewrite Hy, Hc, Ho.
  now rewrite <- !app_assoc.
Qed.

(** C5. [moveFile] of a regular file, when it reports success: the
    destination holds what the source held; after creating the destination's
    directory the rename is attempted first, and the system calls are either
    that rename alone, when it succeeds, or, when it fails, the rename
    followed by opening the source, creating the destination and copying,
    with no sync. *)
Theorem moveFile_renames_first_and_copies_when_rename_fails source destination w c w' :
  os.stat (nodes w) (filepath.resolve source) = Some (File c) ->
  moveFile source destination w = (Ok tt, w') ->
  os.stat (nodes w') (filepath.resolve destination) = Some (File c)
  /\ exists w1,
       os.MkdirAll (filepath.Dir destination) w = (Ok tt, w1)
       /\ ((fst (os.Rename source destination w1) = Ok tt
            /\ newCalls w w'
               = [ CallMkdirAll (filepath.Dir destination); CallRename source destination ])
           \/ ((exists e, fst (os.Rename source destination w1) = Err e)
               /\ newCalls w w'
                  = [ CallMkdirAll (filepath.Dir destination);
                      CallRename source destination;
                      CallOpen source; CallCreate destination; CallCopy destination;
                      CallClose destination; CallClose source ])).
Proof.
  intros Hsrc. unfold moveFile, bind, wrap.
  destruct (os.MkdirAll (filepath.Dir destination) w) as [[[]|e] w1] eqn:Emk; [|discriminate].
  destruct (MkdirAll_Ok _ _ _ Emk) as (Hdirs & Hvol1 & Hcalls1).
  pose proof (onlyNewDirs_stat _ _ _ _ Hdirs Hsrc) as Hsrc1.
  destruct (os.Rename source destination w1) as [[[]|e] w2] eqn:Ern.
  - intros H; inversion H; subst w'. clear H.
    destruct (Rename_Ok _ _ _ _ Ern) as (_ & Hcalls2 & Hmoved).
    split; [now apply Hmoved|].
    exists w1. split; [reflexivity|]. left. rewrite Ern. split; [reflexivity|].
    apply newCalls_app. rewrite Hcalls2, Hcalls1. now rewrite <- app_assoc.
  - destruct (Rename_Err _ _ _ _ _ Ern) as (Hn2 & Hvol2 & Hcalls2).
    unfold defer, ret, os.Close.
    destruct (os.Open source w2) as [[f|e'] w3] eqn:Eo; [|discriminate].
    destruct (os.Create destination w3) as [[g|e'] w4] eqn:Ec; [|discriminate].
    destruct (io.Copy g f w4) as [[[]|e'] w5] eqn:Ey; [|discriminate].
    intros H; inversion H; subst w'. clear H.
    apply Open_Ok in Eo as (-> & Hs & Hn3 & _ & Hcalls3).
    apply Create_Ok in Ec as (-> & Hd & Hi & Hpar & Hn4 & _ & Hcalls4).
    apply (Copy_Ok _ _ _ _ Hi) in Ey as (c' & Hread & Hwritten & Hcalls5).
    assert (Hne : filepath.resolve source <> filepath.resolve destination).
    { intros Heq. rewrite Hn3, Hn2 in Hpar.
      destruct (Rename_onto_itself source destination w1 c Hsrc1 Heq Hpar Hs Hd) as [w0 Hok].
      rewrite Hok in Ern. discriminate. }
    assert (Hc' : c' = c).
    { rewrite Hn4 in Hread. unfold os.stat in Hread, Hsrc1.
      destruct (os.implicit_dir (filepath.resolve source)); [congruence|].
      rewrite lookup_insert_ne in Hread by congruence.
      rewrite Hn3, Hn2, Hsrc1 in Hread. congruence. }
    subst c'. split; [exact Hwritten|].
    exists w1. split; [reflexivity|]. right. rewrite Ern. split; [eauto|].
    apply newCalls_app. simpl. rewrite Hcalls5, Hcalls4, Hcalls3, Hcalls2, Hcalls1.
    now rewrite <- !app_assoc.
Qed.

(** C5 at a concrete input: a move across two volumes. *)
Lemma moveFile_renames_first_and_copies_when_rename_fails_witness :
  let run := moveFile "stage/asset" "usb/Wood.mat" twoVolumes in
  os.stat (nodes twoVolumes) (filepath.resolve "stage/asset") = Some (File (Plain bytes0to9))
  /\ run = (Ok tt, snd run)
  /\ os.stat (nodes (snd run)) (filepath.resolve "usb/Wood.mat")
     = Some (File (Plain bytes0to9)).
Proof.
  intros run.
  assert (H1 : os.stat (nodes twoVolumes) (filepath.resolve "stage/asset")
               = Some (File (Plain bytes0to9))) by reflexivity.
  assert (H2 : run = (Ok tt, snd run)) by (vm_compute; reflexivity).
  split; [exact H1|]. split; [exact H2|].
  exact (proj1 (moveFile_renames_first_and_copies_when_rename_fails
                  "stage/asset" "usb/Wood.mat" twoVolumes (Plain bytes0to9) (snd run) H1 H2)).
Defined.

(** ** Input that is not a gzip stream *)


Section InvalidGzip.























End InvalidGzip.



(** ** Resolved paths *)

Section ResolvedPaths.

Import filepath.

Lemma plain_not_dotdot e : plain e = true -> String.eqb e ".." = false.
Proof.
  unfold plain. intros H.
  destruct (String.eqb e ".."); [|reflexivity].
  rewrite andb_false_r in H. discriminate.
Qed.

Lemma plain_cut e : plain e = true -> strings.cut Separator e = None.
Proof.
  unfold plain. intros H. apply andb_true_iff in H as [_ H].
  now destruct (strings.cut Separator e).
Qed.

Lemma plain_clean e :
  plain e = true ->
  String.eqb e "" = false /\ String.eqb e "." = false /\ String.eqb e ".." = false.
Proof.
  unfold plain. intros H.
  destruct (String.eqb e ""), (String.eqb e "."), (String.eqb e ".."); try discriminate.
  now repeat split.
Qed.

Lemma plain_pieces names :
  forallb plain names = true ->
  Forall (fun e => strings.cut Separator e = None) names.
Proof.
  induction names as [|e names IH]; intros H; [constructor|].
  simpl in H. apply andb_true_iff in H as [He Hn].
  constructor; [now apply plain_cut | now apply IH].
Qed.

Lemma Split_app (sep : ascii) (a b : string) :
  strings.Split (a +:+ String sep b) sep = strings.Split a sep ++ strings.Split b sep.
Proof.
  induction a as [|c a IH].
  - rewrite append_nil_l. simpl. now rewrite Ascii.eqb_refl.
  - rewrite append_cons. simpl. destruct (Ascii.eqb c sep); [now rewrite IH|].
    rewrite IH. pose proof (Split_nonempty sep a) as Hne.
    destruct (strings.Split a sep); [congruence | reflexivity].
Qed.

Lemma clean_loop_app isRooted xs : forall out ys,
  clean_loop isRooted out (xs ++ ys) = clean_loop isRooted (clean_loop isRooted out xs) ys.
Proof.
  induction xs as [|e xs IH]; intros out ys; [reflexivity|].
  simpl. destruct (String.eqb e ""); [apply IH|].
  destruct (String.eqb e "."); [apply IH|].
  destruct (String.eqb e "..").
  - destruct out as [|top below]; [destruct isRooted; apply IH|].
    destruct (String.eqb top ".."); apply IH.
  - apply IH.
Qed.

Lemma clean_loop_plain isRooted ys : forall out,
  forallb plain ys = true -> clean_loop isRooted out ys = rev ys ++ out.
Proof.
  induction ys as [|e ys IH]; intros out H; [reflexivity|].
  simpl in H. apply andb_true_iff in H as [He Hys].
  destruct (plain_clean _ He) as (E1 & E2 & E3).
  simpl. rewrite E1, E2, E3, IH by exact Hys. now rewrite <- app_assoc.
Qed.

Lemma clean_loop_normal isRooted elems : forall out,
  normalOut isRooted out = true ->
  Forall (fun e => strings.cut Separator e = None) elems ->
  normalOut isRooted (clean_loop isRooted out elems) = true.
Proof.
  induction elems as [|e elems IH]; intros out Hout Hel; [exact Hout|].
  inversion Hel as [|? ? He Hel']; subst. simpl.
  destruct (String.eqb e "") eqn:E1; [now apply IH|].
  destruct (String.eqb e ".") eqn:E2; [now apply IH|].
  destruct (String.eqb e "..") eqn:E3.
  - destruct out as [|top below].
    + destruct isRooted; now apply IH.
    + destruct (String.eqb top "..") eqn:Et.
      * apply IH; [|exact Hel']. simpl in Hout. rewrite Et in Hout.
        simpl. apply andb_true_iff in Hout as [Hr Hd]. now rewrite Hr, Et, Hd.
      * apply IH; [|exact Hel']. simpl in Hout. rewrite Et in Hout.
        now apply andb_true_iff in Hout as [_ Hb].
  - apply IH; [|exact Hel']. simpl. rewrite E3.
    unfold plain. now rewrite E1, E2, E3, He, Hout.
Qed.

Lemma resolve_normalLoc path : normalLoc (resolve path) = true.
Proof.
  unfold normalLoc, resolve. simpl. rewrite rev_involutive.
  apply clean_loop_normal; [reflexivity | apply Split_pieces].
Qed.

Lemma dots_normalOut out :
  forallb (fun e => String.eqb e "..") out = true -> normalOut false out = true.
Proof.
  destruct out as [|top below]; [reflexivity|]. simpl.
  intros H. apply andb_true_iff in H as [Ht Hb]. now rewrite Ht.
Qed.

Lemma normalOut_below isRooted top below :
  normalOut isRooted (top :: below) = true -> normalOut isRooted below = true.
Proof.
  simpl. destruct (String.eqb top "..").
  - intros H. apply andb_true_iff in H as [Hr Hd].
    destruct isRooted; [discriminate|]. now apply dots_normalOut.
  - intros H. now apply andb_true_iff in H as [_ Hb].
Qed.

(** The element loop reproduces a normal output from its components. *)
Lemma clean_loop_rebuilds isRooted out :
  normalOut isRooted out = true -> clean_loop isRooted [] (rev out) = out.
Proof.
  induction out as [|top below IH]; intros H; [reflexivity|].
  simpl rev. rewrite clean_loop_app, IH by (eapply normalOut_below; exact H).
  simpl in H. simpl. destruct (String.eqb top "..") eqn:Et.
  - apply andb_true_iff in H as [Hr Hd]. apply String.eqb_eq in Et. subst top.
    destruct isRooted; [discriminate|]. simpl.
    destruct below as [|b below']; [reflexivity|].
    simpl in Hd. apply andb_true_iff in Hd as [Hb _]. now rewrite Hb.
  - apply andb_true_iff in H as [Hp _].
    destruct (plain_clean _ Hp) as (E1 & E2 & _). now rewrite E1, E2.
Qed.

Lemma normalOut_pieces isRooted out :
  normalOut isRooted out = true ->
  Forall (fun e => strings.cut Separator e = None /\ e <> "") out.
Proof.
  induction out as [|top below IH]; intros H; [constructor|].
  constructor.
  - simpl in H. destruct (String.eqb top "..") eqn:Et.
    + apply String.eqb_eq in Et. subst top. now split.
    + apply andb_true_iff in H as [Hp _]. split; [now apply plain_cut|].
      destruct (plain_clean _ Hp) as (E1 & _). now apply String.eqb_neq.
  - apply IH. eapply normalOut_below; exact H.
Qed.

Lemma Split_Join elems :
  elems <> [] ->
  Forall (fun e => strings.cut Separator e = None) elems ->
  strings.Split (strings.Join elems "/") Separator = elems.
Proof.
  induction elems as [|e elems IH]; [congruence|].
  intros _ H. inversion H as [|? ? He Hel]; subst.
  destruct elems as [|e' elems].
  - simpl. now apply Split_whole.
  - change (strings.Join (e :: e' :: elems) "/")
      with (e +:+ String Separator (strings.Join (e' :: elems) "/")).
    rewrite Split_app, (Split_whole _ _ He), IH; [reflexivity | discriminate | exact Hel].
Qed.

Lemma rooted_Join e elems :
  strings.cut Separator e = None -> e <> "" ->
  rooted (strings.Join (e :: elems) "/") = false.
Proof.
  intros He Hne. destruct e as [|c e]; [congruence|].
  assert (Hc : Ascii.eqb c Separator = false).
  { simpl in He. now destruct (Ascii.eqb c Separator). }
  destruct elems; simpl; exact Hc.
Qed.

(** Resolving the rendering of a resolved path gives the path back. *)
Lemma resolve_render l : normalLoc l = true -> resolve (render l) = l.
Proof.
  destruct l as [isRooted elems]. unfold normalLoc. simpl. intros H.
  pose proof (normalOut_pieces _ _ H) as Hp.
  apply Forall_rev in Hp. rewrite rev_involutive in Hp.
  pose proof (clean_loop_rebuilds _ _ H) as Hc. rewrite rev_involutive in Hc.
  assert (Hcut : Forall (fun e => strings.cut Separator e = None) elems).
  { eapply Forall_impl; [exact Hp|]. now intros e [He _]. }
  unfold resolve. destruct isRooted.
  - simpl render. rewrite append_cons, append_nil_l. simpl.
    destruct elems as [|e elems].
    + reflexivity.
    + rewrite Split_Join by (discriminate || exact Hcut).
      rewrite Hc. now rewrite rev_involutive.
  - destruct elems as [|e elems]; [reflexivity|].
    simpl render. inversion Hp as [|? ? [He Hne] _]; subst.
    rewrite (rooted_Join e elems He Hne).
    rewrite Split_Join by (discriminate || exact Hcut).
    rewrite Hc. now rewrite rev_involutive.
Qed.

Lemma resolve_Clean path : resolve (Clean path) = resolve path.
Proof. apply resolve_render, resolve_normalLoc. Qed.

Lemma rooted_append a b : a <> "" -> rooted (a +:+ b) = rooted a.
Proof. destruct a; [congruence | reflexivity]. Qed.

(** Plain components added to a path are added to its resolution. *)
Lemma resolve_append path names :
  path <> "" -> names <> [] -> forallb plain names = true ->
  resolve (path +:+ String Separator (strings.Join names "/"))
  = (fst (resolve path), snd (resolve path) ++ names).
Proof.
  intros Hp Hn Hpl. unfold resolve at 1.
  rewrite rooted_append by exact Hp.
  rewrite Split_app, Split_Join, clean_loop_app, clean_loop_plain; try assumption.
  - simpl. now rewrite rev_app_distr, rev_involutive.
  - now apply plain_pieces.
Qed.

Lemma resolve_names names :
  forallb plain names = true -> resolve (strings.Join names "/") = (false, names).
Proof.
  intros Hpl. destruct names as [|e names]; [reflexivity|].
  assert (Hcut : Forall (fun e => strings.cut Separator e = None) (e :: names))
    by now apply plain_pieces.
  unfold resolve. rewrite Split_Join by (discriminate || exact Hcut).
  rewrite clean_loop_plain, app_nil_r, rev_involutive by exact Hpl.
  simpl in Hpl. apply andb_true_iff in Hpl as [He _].
  rewrite rooted_Join; [reflexivity | now apply plain_cut|].
  destruct (plain_clean _ He) as (E1 & _). now apply String.eqb_neq.
Qed.

(** Where [filepath.Join] of a directory and plain names resolves to. *)
Lemma resolve_Join dir names :
  names <> [] -> forallb plain names = true ->
  resolve (Join (dir :: names)) = (fst (resolve dir), snd (resolve dir) ++ names).
Proof.
  intros Hn Hpl. destruct names as [|e names]; [congruence|].
  change (Join (dir :: e :: names))
    with (if String.eqb dir ""
          then if String.eqb e "" then Join names
               else Clean (strings.Join (e :: names) "/")
          else Clean (strings.Join (dir :: e :: names) "/")).
  destruct (String.eqb dir "") eqn:Ed.
  - apply String.eqb_eq in Ed. subst dir.
    assert (He : plain e = true) by (simpl in Hpl; now apply andb_true_iff in Hpl as [He _]).
    destruct (plain_clean _ He) as (E1 & _). rewrite E1.
    rewrite resolve_Clean. now apply resolve_names.
  - apply String.eqb_neq in Ed. rewrite resolve_Clean.
    change (strings.Join (dir :: e :: names) "/")
      with (dir +:+ String Separator (strings.Join (e :: names) "/")).
    now apply resolve_append.
Qed.

End ResolvedPaths.

Section ParentPaths.

Import filepath.

Lemma cut_append (x f : string) :
  strings.cut Separator (x +:+ String Separator f) <> None.
Proof.
  induction x as [|c x IH].
  - rewrite append_nil_l. simpl. discriminate.
  - rewrite append_cons. simpl. destruct (Ascii.eqb c Separator); [discriminate|].
    destruct (strings.cut Separator (x +:+ String Separator f)) as [[a b]|];
      [discriminate | congruence].
Qed.

Lemma upto_last_separator_none (f : string) :
  strings.cut Separator f = None -> upto_last_separator f = "".
Proof. destruct f as [|c f]; [reflexivity|]. intros H. simpl in *. now rewrite H. Qed.

Lemma upto_last_separator_append (x f : string) :
  strings.cut Separator f = None ->
  upto_last_separator (x +:+ String Separator f) = x +:+ "/".
Proof.
  intros Hf. induction x as [|c x IH].
  - rewrite !append_nil_l.
    change (upto_last_separator (String Separator f))
      with (String Separator (upto_last_separator f)).
    now rewrite upto_last_separator_none.
  - rewrite !append_cons.
    pose proof (cut_append (String c x) f) as Hc. rewrite append_cons in Hc.
    change (upto_last_separator (String c (x +:+ String Separator f)))
      with (match strings.cut Separator (String c (x +:+ String Separator f)) with
            | Some _ => String c (upto_last_separator (x +:+ String Separator f))
            | None => ""
            end).
    destruct (strings.cut Separator (String c (x +:+ String Separator f)));
      [now rewrite IH | congruence].
Qed.

Lemma resolve_trailing_separator (x : string) :
  x <> "" -> resolve (x +:+ "/") = resolve x.
Proof.
  intros Hx. unfold resolve. rewrite rooted_append by exact Hx.
  change (x +:+ "/") with (x +:+ String Separator "").
  rewrite Split_app, clean_loop_app. reflexivity.
Qed.

Lemma Join_snoc elems f :
  elems <> [] ->
  strings.Join (elems ++ [f]) "/" = strings.Join elems "/" +:+ String Separator f.
Proof.
  induction elems as [|e elems IH]; [congruence|]. intros _.
  destruct elems as [|e' elems]; [reflexivity|].
  change (strings.Join ((e :: e' :: elems) ++ [f]) "/")
    with (e +:+ "/" +:+ strings.Join ((e' :: elems) ++ [f]) "/").
  rewrite IH by discriminate.
  change (strings.Join (e :: e' :: elems) "/")
    with (e +:+ "/" +:+ strings.Join (e' :: elems) "/").
  now rewrite !append_assoc.
Qed.

Lemma render_nonempty l : normalLoc l = true -> render l <> "".
Proof.
  destruct l as [[|] elems]; unfold normalLoc; simpl; intros H.
  - rewrite append_cons. discriminate.
  - destruct elems as [|e elems]; [discriminate|].
    apply normalOut_pieces, Forall_rev in H. rewrite rev_involutive in H.
    inversion H as [|? ? [_ He] _]; subst.
    destruct e as [|c e]; [congruence|].
    destruct elems; simpl; discriminate.
Qed.

Lemma render_snoc isRooted elems f :
  elems <> [] ->
  render (isRooted, elems ++ [f]) = render (isRooted, elems) +:+ String Separator f.
Proof.
  intros Hne. destruct isRooted; simpl.
  - rewrite Join_snoc by exact Hne. now rewrite !append_cons, !append_nil_l.
  - destruct elems as [|e elems]; [congruence|].
    change (strings.Join ((e :: elems) ++ [f]) "/" = strings.Join (e :: elems) "/" +:+ String Separator f).
    now apply Join_snoc.
Qed.

(** The directory of the rendering of a resolved path is the path without
    its last component. *)
Lemma resolve_Dir_render isRooted elems f :
  normalLoc (isRooted, elems ++ [f]) = true ->
  resolve (Dir (render (isRooted, elems ++ [f]))) = (isRooted, elems).
Proof.
  intros H.
  assert (Hf : strings.cut Separator f = None).
  { unfold normalLoc in H. simpl in H. rewrite rev_app_distr in H.
    apply normalOut_pieces in H. now inversion H as [|? ? [Hc _] _]. }
  assert (Hup : normalLoc (isRooted, elems) = true).
  { unfold normalLoc in *. simpl in *. rewrite rev_app_distr in H.
    eapply normalOut_below. exact H. }
  unfold Dir. rewrite resolve_Clean.
  destruct elems as [|e elems].
  - destruct isRooted; simpl.
    + rewrite append_nil_l. now rewrite upto_last_separator_none.
    + now rewrite upto_last_separator_none.
  - rewrite render_snoc by discriminate.
    rewrite upto_last_separator_append by exact Hf.
    rewrite resolve_trailing_separator by now apply render_nonempty.
    now apply resolve_render.
Qed.

End ParentPaths.

(** ** Records and groups *)

(** C3, where the code departs from the specification. The record appended at the
    [pathname] entry of group [g2] holds the staged payload of group [g1]. *)
Lemma record_holds_payload_of_another_group :
  let run := extractTarGz "Mixed.unitypackage" "tmp"
               (worldWith "Mixed.unitypackage" mixedEntries EndOfArchive) in
  fst run = Ok [mkUnityAsset "tmp/g1/asset" "" "Textures/Stone.png"]
  /\ pathnameGroups mixedEntries = ["g2"]
  /\ groupsTied "tmp" (pathnameGroups mixedEntries)
                [mkUnityAsset "tmp/g1/asset" "" "Textures/Stone.png"] = false.
Proof. vm_compute. repeat split; reflexivity. Qed.

Section Groups.

Variable tempDir : string.

Lemma extractEntry_pureStep header broken current assets w st w' :
  extractEntry tempDir header broken current assets w = (Ok st, w') ->
  st = (fst (pureStep tempDir header current),
        match snd (pureStep tempDir header current) with
        | Some record => assets ++ [record]
        | None => assets
        end).
Proof.
  unfold pureStep, member, extractEntry, stagedPath.
  destruct (strings.SplitN (Name header) "/" 2) as [|d [|f [|x l]]];
    try (intros H; inversion H; reflexivity).
  destruct (String.eqb f "asset") eqn:Ea; simpl.
  - unfold bind, wrap, defer, ret. intros H.
    destruct (os.MkdirAll _ w) as [[?|?] w1]; [|discriminate].
    destruct (os.Create _ w1) as [[out|?] w2]; [|discriminate].
    destruct (io.CopyEntry _ _ _ w2) as [[?|?] w3]; [|discriminate].
    now inversion H.
  - destruct (String.eqb f "asset.meta") eqn:Em.
    + unfold bind, wrap, defer, ret. intros H.
      destruct (os.MkdirAll _ w) as [[?|?] w1]; [|discriminate].
      destruct (os.Create _ w1) as [[out|?] w2]; [|discriminate].
      destruct (io.CopyEntry _ _ _ w2) as [[?|?] w3]; [|discriminate].
      now inversion H.
    + destruct (String.eqb f "pathname").
      * unfold bind, wrap, ret, io.ReadEntry. destruct broken; [discriminate|].
        intros H. now inversion H.
      * intros H. now inversion H.
Qed.

Lemma extractEntries_recordsOf entries : forall fin current assets w found w',
  extractEntries tempDir entries fin current assets w = (Ok found, w') ->
  found = assets ++ recordsOf tempDir entries current.
Proof.
  induction entries as [|header entries IH]; intros fin current assets w found w' H.
  - simpl in H. destruct fin as [|cause [pending|]].
    + inversion H. simpl. now rewrite app_nil_r.
    + unfold bind, fail in H.
      destruct (extractEntry _ _ _ _ _ w) as [[?|?] ?]; discriminate.
    + discriminate.
  - simpl in H. unfold bind in H.
    destruct (extractEntry _ _ _ _ _ w) as [[st|?] w1] eqn:E; [|discriminate].
    apply extractEntry_pureStep in E. subst st. simpl in H.
    apply IH in H. simpl.
    destruct (pureStep tempDir header current) as [current' [record|]]; simpl in *.
    + now rewrite <- app_assoc in H.
    + exact H.
Qed.

Lemma pendingTied_agrees pending G current :
  pendingTied tempDir pending current = true -> agrees pending G = true ->
  tiedTo tempDir G current = true.
Proof.
  destruct pending as [G'|]; simpl.
  - intros H HG. apply String.eqb_eq in HG. now subst.
  - unfold tiedTo. intros H _. apply andb_true_iff in H as [-> ->]. reflexivity.
Qed.

Lemma grouped_groupsTied entries : forall pending current,
  pendingTied tempDir pending current = true ->
  grouped pending entries = true ->
  groupsTied tempDir (pathnameGroups entries) (recordsOf tempDir entries current) = true.
Proof.
  induction entries as [|header entries IH]; intros pending current Hc Hg; [reflexivity|].
  simpl in *. unfold pureStep.
  destruct (member header) as [[d f]|]; [|now apply (IH pending)].
  destruct (String.eqb f "asset") eqn:Ea.
  - apply String.eqb_eq in Ea. subst f. simpl in *.
    apply andb_true_iff in Hg as [Hag Hg].
    apply (IH (Some d)); [|exact Hg].
    pose proof (pendingTied_agrees _ _ _ Hc Hag) as Ht.
    unfold pendingTied, tiedTo in *. simpl.
    apply andb_true_iff in Ht as [_ Hm]. rewrite Hm.
    now rewrite String.eqb_refl, orb_true_r.
  - destruct (String.eqb f "asset.meta") eqn:Em.
    + apply String.eqb_eq in Em. subst f. simpl in *.
      apply andb_true_iff in Hg as [Hag Hg].
      apply (IH (Some d)); [|exact Hg].
      pose proof (pendingTied_agrees _ _ _ Hc Hag) as Ht.
      unfold pendingTied, tiedTo in *. simpl.
      apply andb_true_iff in Ht as [Hp _]. rewrite Hp.
      now rewrite String.eqb_refl, orb_true_r.
    + simpl in Hg. destruct (String.eqb f "pathname") eqn:Ep.
      * apply andb_true_iff in Hg as [Hag Hg]. simpl.
        pose proof (pendingTied_agrees _ _ _ Hc Hag) as Ht.
        apply andb_true_iff. split; [exact Ht|].
        now apply (IH None).
      * now apply (IH pending).
Qed.

Lemma extractEntry_without_separator header broken current assets w :
  hasSeparator header = false ->
  extractEntry tempDir header broken current assets w = (Ok (current, assets), w).
Proof.
  unfold hasSeparator, member, extractEntry.
  now destruct (strings.SplitN (Name header) "/" 2) as [|d [|f [|x l]]].
Qed.

Lemma extractEntries_without_separator entries : forall fin current assets w,
  extractEntries tempDir (List.filter hasSeparator entries) fin current assets w
  = extractEntries tempDir entries fin current assets w.
Proof.
  induction entries as [|header entries IH]; intros fin current assets w; [reflexivity|].
  simpl. destruct (hasSeparator header) eqn:Hs.
  - simpl. unfold bind. destruct (extractEntry _ _ _ _ _ w) as [[st|?] w1]; [|reflexivity].
    apply IH.
  - unfold bind. rewrite (extractEntry_without_separator _ _ _ _ _ Hs). simpl. apply IH.
Qed.

End Groups.

(** C3. The records a successful extraction returns are those of the
    accumulate-and-close pass: each holds the staged paths of the last
    [asset] and [asset.meta] entries read since the previous [pathname] entry,
    whatever their first path segment.  When the groups are not interleaved
    and each ends with its [pathname] entry, every record holds only staged
    files of the group of the [pathname] entry that closed it.  Entries whose
    name has no separator take no part: the extraction runs as if they were
    not in the archive. *)
Theorem records_follow_the_pathname_entries srcFile tempDir entries fin w found w' :
  os.stat (nodes w) (filepath.resolve srcFile) = Some (File (Package entries fin)) ->
  extractTarGz srcFile tempDir w = (Ok found, w') ->
  found = recordsOf tempDir entries emptyAsset
  /\ (grouped None entries = true ->
      groupsTied tempDir (pathnameGroups entries) found = true)
  /\ (forall current assets w0,
         extractEntries tempDir (List.filter hasSeparator entries) fin current assets w0
         = extractEntries tempDir entries fin current assets w0).
Proof.
  intros Hsrc H.
  destruct (extractTarGz_reads _ _ _ _ _ H) as (entries' & fin' & w1 & Hs & _ & w2 & Hx).
  rewrite Hsrc in Hs. inversion Hs; subst entries' fin'.
  apply extractEntries_recordsOf in Hx. simpl in Hx. subst found.
  split; [reflexivity|]. split.
  - intros Hg. now apply (grouped_groupsTied tempDir entries None emptyAsset).
  - intros. apply extractEntries_without_separator.
Qed.

(** C3 at a concrete input: the package of the wood scenario, whose single
    group is closed by its [pathname] entry. *)
Lemma records_follow_the_pathname_entries_witness :
  let w := worldWith "Wood.unitypackage" woodEntries EndOfArchive in
  let run := extractTarGz "Wood.unitypackage" "tmp" w in
  os.stat (nodes w) (filepath.resolve "Wood.unitypackage")
  = Some (File (Package woodEntries EndOfArchive))
  /\ run = (Ok [woodRecord], snd run)
  /\ grouped None woodEntries = true
  /\ [woodRecord] = recordsOf "tmp" woodEntries emptyAsset
  /\ groupsTied "tmp" (pathnameGroups woodEntries) [woodRecord] = true.
Proof.
  intros w run.
  assert (H1 : os.stat (nodes w) (filepath.resolve "Wood.unitypackage")
               = Some (File (Package woodEntries EndOfArchive))) by reflexivity.
  assert (H2 : run = (Ok [woodRecord], snd run)) by (vm_compute; reflexivity).
  assert (H3 : grouped None woodEntries = true) by reflexivity.
  destruct (records_follow_the_pathname_entries "Wood.unitypackage" "tmp" woodEntries
              EndOfArchive w [woodRecord] (snd run) H1 H2) as (H4 & H5 & _).
  split; [exact H1|]. split; [exact H2|]. split; [exact H3|]. split; [exact H4|].
  exact (H5 H3).
Defined.

(** ** Staging the members of a group *)

Section Staging.

Import filepath.

Lemma cut_member (G f : string) :
  strings.cut Separator G = None ->
  strings.cut Separator (G +:+ String Separator f) = Some (G, f).
Proof.
  induction G as [|c G IH]; intros H.
  - rewrite append_nil_l. simpl. reflexivity.
  - rewrite append_cons. simpl in *.
    destruct (Ascii.eqb c Separator); [discriminate|].
    destruct (strings.cut Separator G) as [[a b]|]; [discriminate|].
    now rewrite IH.
Qed.

Lemma SplitN_member (G f : string) :
  strings.cut Separator G = None ->
  strings.SplitN (G +:+ String Separator f) Separator 2 = [G; f].
Proof.
  intros H. unfold strings.SplitN. rewrite length_append. simpl String.length.
  rewrite Nat.add_succ_r. simpl. rewrite (cut_member G f H).
  now destruct (String.length G + String.length f).
Qed.

Lemma member_of (G f : string) (body : list byte) :
  plain G = true -> member (TarEntry (G +:+ String Separator f) body) = Some (G, f).
Proof.
  intros H. unfold member. cbn [Name].
  change "/"%char with Separator. now rewrite SplitN_member by now apply plain_cut.
Qed.

Lemma implicit_dir_plain isRooted up e :
  String.eqb e ".." = false -> os.implicit_dir (isRooted, up ++ [e]) = false.
Proof.
  intros H. unfold os.implicit_dir. simpl. rewrite forallb_app. simpl.
  rewrite H. now rewrite andb_false_r.
Qed.

Lemma parent_plain isRooted up e :
  String.eqb e ".." = false -> os.parent (isRooted, up ++ [e]) = (isRooted, up).
Proof.
  intros H. unfold os.parent. rewrite implicit_dir_plain by exact H.
  simpl. now rewrite removelast_last.
Qed.

Lemma mkdir_all_existing isRooted up m :
  os.stat m (isRooted, rev up) = Some Directory -> os.mkdir_all isRooted up m = inr m.
Proof.
  intros H. destruct up as [|e up]; [reflexivity|].
  unfold os.mkdir_all; fold os.mkdir_all. now rewrite H.
Qed.

(** Creating a directory whose parent exists. *)
Lemma MkdirAll_child path isRooted up e w :
  path <> "" ->
  resolve path = (isRooted, up ++ [e]) ->
  String.eqb e ".." = false ->
  os.stat (nodes w) (isRooted, up) = Some Directory ->
  nodes w !! ((isRooted, up ++ [e]) : loc) = None
  \/ nodes w !! ((isRooted, up ++ [e]) : loc) = Some Directory ->
  exists w', os.MkdirAll path w = (Ok tt, w')
             /\ nodes w' = <[((isRooted, up ++ [e]) : loc) := Directory]> (nodes w)
             /\ volume w' = volume w.
Proof.
  intros Hp Hr He Hup Hdir. unfold os.MkdirAll.
  apply String.eqb_neq in Hp. rewrite Hp, Hr.
  cbn [fst snd nodes called]. rewrite rev_app_distr. simpl rev at 1. simpl app at 1.
  unfold os.mkdir_all; fold os.mkdir_all.
  cbn [rev]. rewrite rev_involutive.
  unfold os.stat at 1. rewrite implicit_dir_plain by exact He.
  destruct Hdir as [Hd|Hd]; rewrite Hd.
  - rewrite mkdir_all_existing by now rewrite rev_involutive.
    eexists. repeat split.
  - eexists. split; [reflexivity|]. split; [|reflexivity].
    simpl. symmetry. now apply insert_id.
Qed.

(** Creating a file in a directory that exists. *)
Lemma Create_child path isRooted up e w :
  path <> "" ->
  resolve path = (isRooted, up ++ [e]) ->
  String.eqb e ".." = false ->
  os.stat (nodes w) (isRooted, up) = Some Directory ->
  nodes w !! ((isRooted, up ++ [e]) : loc) <> Some Directory ->
  exists w', os.Create path w = (Ok path, w')
             /\ nodes w' = <[((isRooted, up ++ [e]) : loc) := File (Plain [])]> (nodes w)
             /\ volume w' = volume w.
Proof.
  intros Hp Hr He Hup Hnd. unfold os.Create.
  apply String.eqb_neq in Hp. rewrite Hp, Hr.
  cbn [nodes called]. rewrite parent_plain by exact He. rewrite Hup.
  unfold os.stat. rewrite implicit_dir_plain by exact He.
  destruct (nodes w !! ((isRooted, up ++ [e]) : loc)) as [[|c]|]; [congruence | |];
    eexists; repeat split.
Qed.

Lemma Join_rendered dir e names :
  plain e = true ->
  Join (dir :: e :: names) = render (resolve (Join (dir :: e :: names))).
Proof.
  intros He. destruct (plain_clean _ He) as (E1 & _).
  change (Join (dir :: e :: names))
    with (if String.eqb dir ""
          then if String.eqb e "" then Join names
               else Clean (strings.Join (e :: names) "/")
          else Clean (strings.Join (dir :: e :: names) "/")).
  rewrite E1. destruct (String.eqb dir ""); now rewrite resolve_Clean.
Qed.

End Staging.

(** ** Well-formed archives *)

Section StagingGroups.

Import filepath.

Variable tempDir : string.

Lemma resolve_stagedPath G f :
  plain G = true -> plain f = true ->
  resolve (stagedPath tempDir G f) = groupFile tempDir G f.
Proof.
  intros HG Hf. unfold stagedPath, groupFile.
  apply resolve_Join; [discriminate|]. simpl. now rewrite HG, Hf.
Qed.

Lemma stagedPath_nonempty G f :
  plain G = true -> stagedPath tempDir G f <> "".
Proof.
  intros HG. unfold stagedPath. rewrite Join_rendered by exact HG.
  apply render_nonempty, resolve_normalLoc.
Qed.

Lemma resolve_Dir_stagedPath G f :
  plain G = true -> plain f = true ->
  resolve (Dir (stagedPath tempDir G f)) = groupDir tempDir G.
Proof.
  intros HG Hf. pose proof (resolve_stagedPath G f HG Hf) as Hres.
  pose proof (resolve_normalLoc (stagedPath tempDir G f)) as Hn.
  unfold stagedPath in *. rewrite Join_rendered by exact HG.
  rewrite Hres in *. unfold groupFile, groupDir in *.
  replace (snd (resolve tempDir) ++ [G; f])
    with ((snd (resolve tempDir) ++ [G]) ++ [f]) in * by now rewrite <- app_assoc.
  now apply resolve_Dir_render.
Qed.

Lemma Dir_nonempty path : Dir path <> "".
Proof. apply render_nonempty, resolve_normalLoc. Qed.

Lemma groupFile_not_groupDir G f G' : groupFile tempDir G f <> groupDir tempDir G'.
Proof.
  unfold groupFile, groupDir. intros H. inversion H as [H1].
  apply app_inv_head in H1. discriminate.
Qed.

(** Staging a member of a group whose directory is absent or exists. *)
Lemma extractEntry_stages G f body w :
  plain G = true ->
  f = "asset" \/ f = "asset.meta" ->
  os.stat (nodes w) (resolve tempDir) = Some Directory ->
  nodes w !! groupDir tempDir G = None \/ nodes w !! groupDir tempDir G = Some Directory ->
  nodes w !! groupFile tempDir G f <> Some Directory ->
  exists w',
    (forall current assets,
        extractEntry tempDir (TarEntry (G +:+ String Separator f) body) None current assets w
        = (Ok (if String.eqb f "asset"
               then setAssetPath (stagedPath tempDir G f) current
               else setMetaPath (stagedPath tempDir G f) current, assets), w'))
    /\ nodes w'
       = <[groupFile tempDir G f := File (Plain body)]>
           (<[groupDir tempDir G := Directory]> (nodes w)).
Proof.
  intros HG Hf HT Hdir Hfile.
  assert (Hpf : plain f = true) by (destruct Hf; subst; reflexivity).
  assert (Hsw : String.eqb f "asset" || String.eqb f "asset.meta" = true)
    by (destruct Hf; subst; reflexivity).
  destruct (plain_clean _ HG) as (_ & _ & HGd).
  destruct (plain_clean _ Hpf) as (_ & _ & Hfd).
  destruct (MkdirAll_child (Dir (stagedPath tempDir G f)) (fst (resolve tempDir))
              (snd (resolve tempDir)) G w) as (w1 & E1 & Hn1 & _).
  { apply Dir_nonempty. }
  { now apply resolve_Dir_stagedPath. }
  { exact HGd. }
  { now destruct (resolve tempDir). }
  { exact Hdir. }
  destruct (Create_child (stagedPath tempDir G f) (fst (resolve tempDir))
              (snd (resolve tempDir) ++ [G]) f w1) as (w2 & E2 & Hn2 & _).
  { now apply stagedPath_nonempty. }
  { rewrite <- app_assoc. now apply resolve_stagedPath. }
  { exact Hfd. }
  { rewrite Hn1. unfold os.stat. rewrite implicit_dir_plain by exact HGd.
    apply lookup_insert_eq. }
  { rewrite Hn1, <- app_assoc.
    rewrite lookup_insert_ne by (apply not_eq_sym, groupFile_not_groupDir).
    exact Hfile. }
  eexists. split.
  - intros current assets.
    unfold extractEntry. cbn [Name]. change "/"%char with Separator.
    rewrite SplitN_member by now apply plain_cut.
    rewrite Hsw. fold (stagedPath tempDir G f).
    unfold bind, wrap, defer, ret. rewrite E1, E2.
    unfold io.CopyEntry, os.Close. cbn [nodes called with_nodes].
    destruct (String.eqb f "asset"); reflexivity.
  - cbn [nodes called with_nodes]. rewrite (resolve_stagedPath G f HG Hpf), Hn2, Hn1.
    rewrite <- app_assoc. apply insert_insert_eq.
Qed.

End StagingGroups.

Section WellFormedArchives.

Import filepath.

Variable tempDir : string.

Lemma groupDir_inGroup G : inGroup tempDir G (groupDir tempDir G).
Proof. split; [reflexivity|]. now exists []. Qed.

Lemma groupFile_inGroup G f : inGroup tempDir G (groupFile tempDir G f).
Proof. split; [reflexivity|]. now exists [f]. Qed.

Lemma inGroup_same G G' l : inGroup tempDir G l -> inGroup tempDir G' l -> G = G'.
Proof.
  intros [_ (r1 & H1)] [_ (r2 & H2)]. rewrite H1 in H2.
  apply app_inv_head in H2. now inversion H2.
Qed.

Lemma staging_dir_not_inGroup G : ~ inGroup tempDir G (resolve tempDir).
Proof.
  intros [_ (rest & H)].
  rewrite <- (app_nil_r (snd (resolve tempDir))) in H at 1.
  apply app_inv_head in H. discriminate.
Qed.

Lemma inGroup_within G l :
  inGroup tempDir G l -> os.within (resolve tempDir) l = true /\ l <> resolve tempDir.
Proof.
  intros Hin. split.
  - destruct Hin as [Hf (rest & Hs)]. unfold os.within.
    rewrite Hf, Hs, take_app_length, Bool.eqb_reflx. simpl.
    now apply bool_decide_eq_true.
  - intros ->. now apply (staging_dir_not_inGroup G).
Qed.

Lemma stat_frame (m m' : gmap loc node) (l : loc) :
  m' !! l = m !! l -> os.stat m' l = os.stat m l.
Proof. unfold os.stat. now intros ->. Qed.

(** Extracting the entries of one group into a staging directory that
    holds nothing of the group. *)
Lemma extract_group g w :
  plain (gid g) = true ->
  os.stat (nodes w) (resolve tempDir) = Some Directory ->
  (forall l, inGroup tempDir (gid g) l -> nodes w !! l = None) ->
  exists w',
    (forall rest fin assets,
        extractEntries tempDir (groupEntries g ++ rest) fin emptyAsset assets w
        = extractEntries tempDir rest fin emptyAsset (assets ++ [recordOf tempDir g]) w')
    /\ nodes w' !! groupFile tempDir (gid g) "asset" = Some (File (Plain (payload g)))
    /\ (forall meta, sidecar g = Some meta ->
          nodes w' !! groupFile tempDir (gid g) "asset.meta" = Some (File (Plain meta)))
    /\ (forall l, ~ inGroup tempDir (gid g) l -> nodes w' !! l = nodes w !! l).
Proof.
  intros HG HT Hfresh.
  assert (Hpath : forall body, isPathname (TarEntry (gid g +:+ "/pathname") body) = true).
  { intros body. unfold isPathname, isMember.
    change (gid g +:+ "/pathname") with (gid g +:+ String Separator "pathname").
    now rewrite (member_of (gid g) "pathname" body HG). }
  destruct (extractEntry_stages tempDir (gid g) "asset" (payload g) w HG)
    as (w1 & E1 & Hn1); [now left | exact HT | | |].
  { left. apply Hfresh, groupDir_inGroup. }
  { rewrite (Hfresh _ (groupFile_inGroup _ _)). discriminate. }
  change (gid g +:+ String Separator "asset") with (gid g +:+ "/asset") in E1.
  assert (Hframe1 : forall l, ~ inGroup tempDir (gid g) l -> nodes w1 !! l = nodes w !! l).
  { intros l Hl. rewrite Hn1.
    rewrite !lookup_insert_ne; [reflexivity| |]; intros <-; apply Hl.
    - apply groupDir_inGroup.
    - apply groupFile_inGroup. }
  destruct (sidecar g) as [meta|] eqn:Hside.
  - assert (HT1 : os.stat (nodes w1) (resolve tempDir) = Some Directory).
    { rewrite <- HT. apply stat_frame, Hframe1, staging_dir_not_inGroup. }
    destruct (extractEntry_stages tempDir (gid g) "asset.meta" meta w1 HG)
      as (w2 & E2 & Hn2); [now right | exact HT1 | | |].
    { right. rewrite Hn1.
      rewrite lookup_insert_ne by apply groupFile_not_groupDir.
      apply lookup_insert_eq. }
    { rewrite Hn1. rewrite lookup_insert_ne.
      - rewrite lookup_insert_ne by (apply not_eq_sym, groupFile_not_groupDir).
        rewrite (Hfresh _ (groupFile_inGroup _ _)). discriminate.
      - unfold groupFile. intros H. inversion H as [H1].
        apply app_inv_head in H1. discriminate. }
    change (gid g +:+ String Separator "asset.meta") with (gid g +:+ "/asset.meta") in E2.
    exists w2. split; [|split; [|split]].
    + intros rest fin assets. unfold groupEntries. rewrite Hside.
      cbn [app extractEntries]. unfold bind at 1. rewrite E1.
      cbn [fst snd]. unfold bind at 1. rewrite E2.
      cbn [fst snd]. unfold bind at 1. rewrite (extractEntry_pathname _ _ _ _ _ (Hpath _)).
      unfold recordOf. rewrite Hside. reflexivity.
    + rewrite Hn2, Hn1.
      rewrite lookup_insert_ne.
      * rewrite lookup_insert_ne by (apply not_eq_sym, groupFile_not_groupDir).
        apply lookup_insert_eq.
      * unfold groupFile. intros H. inversion H as [H1].
        apply app_inv_head in H1. discriminate.
    + intros meta' Hm. inversion Hm; subst meta'. rewrite Hn2. apply lookup_insert_eq.
    + intros l Hl. rewrite Hn2.
      rewrite !lookup_insert_ne; [now apply Hframe1| |]; intros <-; apply Hl.
      * apply groupDir_inGroup.
      * apply groupFile_inGroup.
  - exists w1. split; [|split; [|split]].
    + intros rest fin assets. unfold groupEntries. rewrite Hside.
      cbn [app extractEntries]. unfold bind at 1. rewrite E1.
      cbn [fst snd]. unfold bind at 1. rewrite (extractEntry_pathname _ _ _ _ _ (Hpath _)).
      unfold recordOf. rewrite Hside. reflexivity.
    + rewrite Hn1. apply lookup_insert_eq.
    + discriminate.
    + exact Hframe1.
Qed.

Lemma extract_archive groups : forall assets w,
  Forall (fun g => plain (gid g) = true) groups ->
  List.NoDup (List.map gid groups) ->
  os.stat (nodes w) (resolve tempDir) = Some Directory ->
  (forall g l, In g groups -> inGroup tempDir (gid g) l -> nodes w !! l = None) ->
  exists w',
    extractEntries tempDir (archiveOf groups) EndOfArchive emptyAsset assets w
    = (Ok (assets ++ List.map (recordOf tempDir) groups), w')
    /\ Forall (fun g =>
                 nodes w' !! groupFile tempDir (gid g) "asset"
                 = Some (File (Plain (payload g)))
                 /\ forall meta, sidecar g = Some meta ->
                       nodes w' !! groupFile tempDir (gid g) "asset.meta"
                       = Some (File (Plain meta))) groups
    /\ (forall l, (forall g, In g groups -> ~ inGroup tempDir (gid g) l) ->
                  nodes w' !! l = nodes w !! l).
Proof.
  induction groups as [|g groups IH]; intros assets w Hplain Hdup HT Hfresh.
  - exists w. simpl. rewrite app_nil_r. repeat split. constructor.
  - inversion Hplain as [|? ? HG Hplain']; subst.
    inversion Hdup as [|? ? Hnotin Hdup']; subst.
    destruct (extract_group g w HG HT) as (w1 & Hrun & Ha & Hm & Hframe1).
    { intros l Hl. apply (Hfresh g l); [now left | exact Hl]. }
    assert (Hother : forall g' l, In g' groups -> inGroup tempDir (gid g') l ->
                                  ~ inGroup tempDir (gid g) l).
    { intros g' l Hin Hl Hl'. apply Hnotin.
      rewrite (inGroup_same _ _ _ Hl' Hl). now apply List.in_map. }
    destruct (IH (assets ++ [recordOf tempDir g]) w1 Hplain' Hdup')
      as (w' & Hrest & Hfiles & Hframe).
    { rewrite <- HT. apply stat_frame, Hframe1, staging_dir_not_inGroup. }
    { intros g' l Hin Hl. rewrite Hframe1 by now apply (Hother g').
      apply (Hfresh g' l); [now right | exact Hl]. }
    exists w'. split; [|split].
    + unfold archiveOf. cbn [List.map List.concat]. rewrite Hrun.
      fold (archiveOf groups). rewrite Hrest. now rewrite <- app_assoc.
    + constructor; [|exact Hfiles]. split.
      * rewrite Hframe; [exact Ha|]. intros g' Hin Hl.
        now apply (Hother g' _ Hin Hl), groupFile_inGroup.
      * intros meta Hs. rewrite Hframe; [now apply Hm|]. intros g' Hin Hl.
        now apply (Hother g' _ Hin Hl), groupFile_inGroup.
    + intros l Hl. rewrite Hframe by (intros g' Hin; apply Hl; now right).
      apply Hframe1, Hl. now left.
Qed.

Lemma staged_file_held G f data w :
  plain G = true -> plain f = true ->
  nodes w !! groupFile tempDir G f = Some (File (Plain data)) ->
  holdsFile w (stagedPath tempDir G f) data.
Proof.
  intros HG Hf H. unfold holdsFile. rewrite resolve_stagedPath by assumption.
  unfold os.stat, groupFile in *.
  replace (snd (resolve tempDir) ++ [G; f])
    with ((snd (resolve tempDir) ++ [G]) ++ [f]) in * by now rewrite <- app_assoc.
  destruct (plain_clean _ Hf) as (_ & _ & Hd).
  now rewrite implicit_dir_plain by exact Hd.
Qed.


End WellFormedArchives.

Section ArchiveShape.

Import filepath.

Lemma member_of_group g f body :
  plain (gid g) = true ->
  member (TarEntry (gid g +:+ String Separator f) body) = Some (gid g, f).
Proof. apply member_of. Qed.


(** The groups of an archive of groups are closed one after the other. *)
Lemma archiveOf_grouped groups :
  Forall (fun g => plain (gid g) = true) groups -> grouped None (archiveOf groups) = true.
Proof.
  induction 1 as [|g groups HG _ IH]; [reflexivity|].
  unfold archiveOf. cbn [List.map List.concat]. fold (archiveOf groups).
  unfold groupEntries.
  change (gid g +:+ "/asset") with (gid g +:+ String Separator "asset").
  change (gid g +:+ "/asset.meta") with (gid g +:+ String Separator "asset.meta").
  change (gid g +:+ "/pathname") with (gid g +:+ String Separator "pathname").
  destruct (sidecar g); cbn [app grouped];
    rewrite !member_of_group by exact HG; simpl; rewrite ?String.eqb_refl; exact IH.
Qed.









End ArchiveShape.




(** ** The deferred removal of the staging directory *)

Section DeferredRemoval.

Lemma noRemoval_refl w : noRemoval w w.
Proof. exists []. now rewrite app_nil_r. Qed.

Lemma noRemoval_trans w1 w2 w3 : noRemoval w1 w2 -> noRemoval w2 w3 -> noRemoval w1 w3.
Proof.
  intros (l & Hl & Hs) (l' & Hl' & Hs'). exists (l ++ l'). split.
  - now rewrite Hl', Hl, <- app_assoc.
  - rewrite forallb_app. now rewrite Hs, Hs'.
Qed.

Lemma noRemoval_printed line w : noRemoval w (printed line w).
Proof. exists []. simpl. now rewrite app_nil_r. Qed.

Lemma noRemoval_called c w : notRemoval c = true -> noRemoval w (called c w).
Proof. intros H. exists [c]. simpl. now rewrite H. Qed.

Ltac one_call c := exists [c]; split; reflexivity.

Lemma neverRemoves_ret {A} (a : A) : neverRemoves (ret a).
Proof. intros w. apply noRemoval_refl. Qed.

Lemma neverRemoves_fail {A} e : neverRemoves (@fail A e).
Proof. intros w. apply noRemoval_refl. Qed.

Lemma neverRemoves_bind {A B} (m : IO A) (k : A -> IO B) :
  neverRemoves m -> (forall a, neverRemoves (k a)) -> neverRemoves (bind m k).
Proof.
  intros Hm Hk w. unfold bind. specialize (Hm w).
  destruct (m w) as [[a|e] w1]; simpl in *; [|exact Hm].
  eapply noRemoval_trans; [exact Hm | apply Hk].
Qed.

Lemma neverRemoves_wrap {A} msg (m : IO A) : neverRemoves m -> neverRemoves (wrap msg m).
Proof.
  intros Hm w. unfold wrap. specialize (Hm w).
  now destruct (m w) as [[a|e] w1].
Qed.

Lemma neverRemoves_defer {A} path (m : IO A) :
  neverRemoves m -> neverRemoves (defer (os.Close path) m).
Proof.
  intros Hm w. unfold defer. specialize (Hm w).
  destruct (m w) as [r w1]; simpl in *.
  eapply noRemoval_trans; [exact Hm | now apply noRemoval_called].
Qed.

Lemma neverRemoves_Printf text : neverRemoves (fmt.Printf text).
Proof. intros w. apply noRemoval_printed. Qed.

Lemma neverRemoves_MkdirAll path : neverRemoves (os.MkdirAll path).
Proof.
  intros w. unfold os.MkdirAll.
  destruct (String.eqb path ""); [|destruct (os.mkdir_all _ _ _)];
    one_call (CallMkdirAll path).
Qed.

Lemma neverRemoves_MkdirTemp dir pattern : neverRemoves (os.MkdirTemp dir pattern).
Proof.
  intros w. unfold os.MkdirTemp.
  destruct (os.prefixAndSuffix pattern) as [p s].
  destruct (os.mkdir_temp _ _ _ _ _) as [[e|[name m]] draws];
    [destruct e|]; one_call (CallMkdirTemp dir pattern).
Qed.

Lemma neverRemoves_Open path : neverRemoves (os.Open path).
Proof.
  intros w. unfold os.Open.
  destruct (String.eqb path ""); [|destruct (os.stat _ _)]; one_call (CallOpen path).
Qed.

Lemma neverRemoves_Create path : neverRemoves (os.Create path).
Proof.
  intros w. unfold os.Create.
  destruct (String.eqb path ""); [one_call (CallCreate path)|].
  cbn zeta.
  destruct (os.stat _ (filepath.resolve path)) as [[|c]|];
    [one_call (CallCreate path)| |];
    destruct (os.stat _ (os.parent (filepath.resolve path))) as [[|c']|];
    one_call (CallCreate path).
Qed.

Lemma neverRemoves_Rename old new : neverRemoves (os.Rename old new).
Proof.
  intros w. unfold os.Rename.
  destruct (String.eqb old "" || String.eqb new ""); [|destruct (os.rename _ _ _ _)];
    one_call (CallRename old new).
Qed.

Lemma neverRemoves_Copy dst src : neverRemoves (io.Copy dst src).
Proof.
  intros w. unfold io.Copy. cbn zeta.
  destruct (os.stat _ _) as [[|c]|]; one_call (CallCopy dst).
Qed.

Lemma neverRemoves_CopyEntry dst body broken : neverRemoves (io.CopyEntry dst body broken).
Proof. intros w. unfold io.CopyEntry. destruct broken; one_call (CallCopy dst). Qed.

Lemma neverRemoves_ReadEntry body broken : neverRemoves (io.ReadEntry body broken).
Proof. intros w. unfold io.ReadEntry. destruct broken; apply noRemoval_refl. Qed.

Lemma neverRemoves_NewReader file : neverRemoves (gzip.NewReader file).
Proof.
  intros w. unfold gzip.NewReader.
  destruct (os.stat _ _) as [[|[data|entries fin]]|]; apply noRemoval_refl.
Qed.

Lemma neverRemoves_extractEntry tempDir header broken current assets :
  neverRemoves (extractEntry tempDir header broken current assets).
Proof.
  unfold extractEntry.
  destruct (strings.SplitN (Name header) "/" 2) as [|d [|f [|x l]]];
    try apply neverRemoves_ret.
  destruct (String.eqb f "asset" || String.eqb f "asset.meta").
  - apply neverRemoves_bind; [apply neverRemoves_wrap, neverRemoves_MkdirAll | intros _].
    apply neverRemoves_bind; [apply neverRemoves_wrap, neverRemoves_Create | intros out].
    apply neverRemoves_bind;
      [apply neverRemoves_wrap, neverRemoves_defer, neverRemoves_CopyEntry | intros _].
    destruct (String.eqb f "asset"); apply neverRemoves_ret.
  - destruct (String.eqb f "pathname"); [|apply neverRemoves_ret].
    apply neverRemoves_bind; [apply neverRemoves_wrap, neverRemoves_ReadEntry | intros buf].
    apply neverRemoves_ret.
Qed.

Lemma neverRemoves_extractEntries tempDir entries fin : forall current assets,
  neverRemoves (extractEntries tempDir entries fin current assets).
Proof.
  induction entries as [|header entries IH]; intros current assets; simpl.
  - destruct fin as [|cause [pending|]].
    + apply neverRemoves_ret.
    + apply neverRemoves_bind; [apply neverRemoves_extractEntry | intros _].
      apply neverRemoves_fail.
    + apply neverRemoves_fail.
  - apply neverRemoves_bind; [apply neverRemoves_extractEntry | intros st; apply IH].
Qed.

Lemma neverRemoves_extractTarGz srcFile tempDir : neverRemoves (extractTarGz srcFile tempDir).
Proof.
  unfold extractTarGz.
  apply neverRemoves_bind; [apply neverRemoves_Printf | intros _].
  apply neverRemoves_bind; [apply neverRemoves_wrap, neverRemoves_Open | intros file].
  apply neverRemoves_defer.
  apply neverRemoves_bind; [apply neverRemoves_wrap, neverRemoves_NewReader | intros r].
  apply neverRemoves_bind; [apply neverRemoves_extractEntries | intros assets].
  apply neverRemoves_bind; [apply neverRemoves_Printf | intros _; apply neverRemoves_ret].
Qed.

Lemma neverRemoves_moveFile source destination : neverRemoves (moveFile source destination).
Proof.
  unfold moveFile.
  apply neverRemoves_bind; [apply neverRemoves_wrap, neverRemoves_MkdirAll | intros _].
  intros w. pose proof (neverRemoves_Rename source destination w) as Hr.
  destruct (os.Rename source destination w) as [[[]|e] w1]; simpl in *; [exact Hr|].
  eapply noRemoval_trans; [exact Hr|]. generalize w1.
  apply neverRemoves_bind; [apply neverRemoves_wrap, neverRemoves_Open | intros in_].
  apply neverRemoves_defer.
  apply neverRemoves_bind; [apply neverRemoves_wrap, neverRemoves_Create | intros out].
  apply neverRemoves_defer.
  apply neverRemoves_bind; [apply neverRemoves_wrap, neverRemoves_Copy | intros _].
  apply neverRemoves_ret.
Qed.

Lemma neverRemoves_reconstructAssets assets targetDir :
  neverRemoves (reconstructAssets assets targetDir).
Proof.
  induction assets as [|asset assets IH]; [apply neverRemoves_ret|].
  simpl. destruct (String.eqb (PathName asset) "" || String.eqb (AssetPath asset) "").
  - apply neverRemoves_bind; [apply neverRemoves_Printf | intros _; exact IH].
  - apply neverRemoves_bind; [apply neverRemoves_Printf | intros _].
    apply neverRemoves_bind; [apply neverRemoves_wrap, neverRemoves_moveFile | intros _].
    apply neverRemoves_bind; [|intros _; exact IH].
    destruct (negb (String.eqb (MetaPath asset) "")).
    + apply neverRemoves_wrap, neverRemoves_moveFile.
    + apply neverRemoves_Printf.
Qed.

Lemma neverRemoves_reconstructStructure assets targetDir :
  neverRemoves (reconstructStructure assets targetDir).
Proof.
  unfold reconstructStructure.
  apply neverRemoves_bind; [apply neverRemoves_Printf | intros _].
  apply neverRemoves_bind; [apply neverRemoves_reconstructAssets | intros _].
  apply neverRemoves_Printf.
Qed.

(** A run that does not end with exit code 0 never attempts the removal of
    the staging directory; a run that ends with exit code 0 attempts it as
    its last system call. *)
Lemma removal_runs_only_on_success args w :
  match main args w with
  | (0, w') =>
      exists w1, noRemoval w w1
                 /\ calls w' = calls w1
                               ++ [CallRemoveAll (filepath.Join [outputDirOf args; ".tmp_unpack"])]
  | (_, w') => noRemoval w w'
  end.
Proof.
  unfold main, mainProc.
  destruct (length args <? 2)%nat; [apply noRemoval_printed|].
  unfold unpackSteps, deferMain, andThen, say, orExit.
  set (inputFile := nth 1 args "").
  set (outputDir := outputDirOf args).
  set (tempParent := filepath.Join [outputDir; ".tmp_unpack"]).
  set (w0 := printed _ (printed _ w)).
  assert (H0 : noRemoval w w0).
  { eapply noRemoval_trans; apply noRemoval_printed. }
  pose proof (neverRemoves_MkdirAll outputDir w0) as H1.
  destruct (os.MkdirAll outputDir w0) as [[[]|e1] w1]; simpl in H1.
  2: { eapply noRemoval_trans; [exact H0|].
       eapply noRemoval_trans; [exact H1 | apply noRemoval_printed]. }
  pose proof (neverRemoves_MkdirAll tempParent w1) as H2.
  destruct (os.MkdirAll tempParent w1) as [[[]|e2] w2]; simpl in H2.
  2: { eapply noRemoval_trans; [exact H0|]. eapply noRemoval_trans; [exact H1|].
       eapply noRemoval_trans; [exact H2 | apply noRemoval_printed]. }
  pose proof (neverRemoves_MkdirTemp tempParent "unpack-unitypackage-*" w2) as H3.
  destruct (os.MkdirTemp tempParent _ w2) as [[tempDir|e3] w3]; simpl in H3.
  2: { eapply noRemoval_trans; [exact H0|]. eapply noRemoval_trans; [exact H1|].
       eapply noRemoval_trans; [exact H2|].
       eapply noRemoval_trans; [exact H3 | apply noRemoval_printed]. }
  assert (H03 : noRemoval w w3).
  { eapply noRemoval_trans; [exact H0|]. eapply noRemoval_trans; [exact H1|].
    eapply noRemoval_trans; eassumption. }
  pose proof (neverRemoves_extractTarGz inputFile tempDir w3) as H4.
  destruct (extractTarGz inputFile tempDir w3) as [[assets|e4] w4]; simpl in H4.
  2: { eapply noRemoval_trans; [exact H03|].
       eapply noRemoval_trans; [exact H4 | apply noRemoval_printed]. }
  pose proof (neverRemoves_reconstructStructure assets outputDir w4) as H5.
  destruct (reconstructStructure assets outputDir w4) as [[[]|e5] w5]; simpl in H5.
  2: { eapply noRemoval_trans; [exact H03|]. eapply noRemoval_trans; [exact H4|].
       eapply noRemoval_trans; [exact H5 | apply noRemoval_printed]. }
  exists (printed ("[SUCCESS] Unpacked " +:+ inputFile +:+ " into " +:+ outputDir +:+ nl) w5).
  split.
  - eapply noRemoval_trans; [exact H03|]. eapply noRemoval_trans; [exact H4|].
    eapply noRemoval_trans; [exact H5 | apply noRemoval_printed].
  - unfold removeTemp, os.RemoveAll.
    destruct (String.eqb tempParent ""); [reflexivity|].
    destruct (os.endsWithDot tempParent); reflexivity.
Qed.

End DeferredRemoval.

(** * Further properties of the record-based variant *)

(** ** Directories created on demand *)

Section MkdirAllFacts.

Import filepath.

Implicit Types (m : gmap loc node) (l : loc).

(** After [MkdirAll] the directory exists. *)
Lemma mkdir_all_made isRooted up : forall m m',
  os.mkdir_all isRooted up m = inr m' -> os.stat m' (isRooted, rev up) = Some Directory.
Proof.
  induction up as [|e up IH]; intros m m'; simpl.
  - intros H; inversion H; subst. reflexivity.
  - destruct (os.stat m (isRooted, rev up ++ [e])) as [[|c]|] eqn:Es.
    + intros H; inversion H; subst. exact Es.
    + discriminate.
    + destruct (os.mkdir_all isRooted up m) as [err|m1] eqn:E; [discriminate|].
      intros H; inversion H; subst m'. unfold os.stat in *.
      destruct (os.implicit_dir (isRooted, rev up ++ [e])); [reflexivity|].
      apply lookup_insert_eq.
Qed.

(** [MkdirAll] below a directory that exists changes the tree only below
    that directory. *)
Lemma mkdir_all_below isRooted base ext : forall m m',
  os.stat m (isRooted, rev base) = Some Directory ->
  os.mkdir_all isRooted (ext ++ base) m = inr m' ->
  forall l, os.within (isRooted, rev base) l = false -> m' !! l = m !! l.
Proof.
  induction ext as [|e ext IH]; intros m m' Hb.
  - simpl. rewrite mkdir_all_existing by exact Hb. intros H; now inversion H.
  - simpl. destruct (os.stat m (isRooted, rev (ext ++ base) ++ [e])) as [[|c]|] eqn:Es.
    + intros H; now inversion H.
    + discriminate.
    + destruct (os.mkdir_all isRooted (ext ++ base) m) as [err|m1] eqn:E; [discriminate|].
      intros H; inversion H; subst m'. intros l Hl.
      rewrite lookup_insert_ne; [now apply (IH m m1)|].
      intros <-. unfold os.within in Hl. simpl in Hl.
      rewrite Bool.eqb_reflx in Hl. simpl in Hl.
      rewrite rev_app_distr, <- app_assoc in Hl.
      rewrite take_app_length in Hl. now rewrite bool_decide_eq_true_2 in Hl.
Qed.

(** [MkdirAll] changes the tree only at the directory and above it. *)
Lemma mkdir_all_above isRooted up : forall m m',
  os.mkdir_all isRooted up m = inr m' ->
  forall l, os.within l (isRooted, rev up) = false -> m' !! l = m !! l.
Proof.
  induction up as [|e up IH]; intros m m'; simpl.
  - intros H; now inversion H.
  - destruct (os.stat m (isRooted, rev up ++ [e])) as [[|c]|] eqn:Es.
    + intros H; now inversion H.
    + discriminate.
    + destruct (os.mkdir_all isRooted up m) as [err|m1] eqn:E; [discriminate|].
      intros H; inversion H; subst m'. intros l Hl.
      rewrite lookup_insert_ne.
      * apply (IH m m1 E). unfold os.within in *. simpl in *.
        destruct (Bool.eqb (fst l) isRooted); [simpl in *|reflexivity].
        apply bool_decide_eq_false in Hl. apply bool_decide_eq_false.
        intros Heq. apply Hl. rewrite <- Heq at 2.
        rewrite take_app_le; [reflexivity|].
        rewrite <- Heq. rewrite length_take. lia.
      * intros <-. unfold os.within in Hl. simpl in Hl.
        rewrite Bool.eqb_reflx in Hl. simpl in Hl.
        rewrite firstn_all in Hl. now rewrite bool_decide_eq_true_2 in Hl.
Qed.

(** [MkdirAll] adds directories only where there was nothing, at the
    directory and above it. *)
Lemma mkdir_all_new isRooted up : forall m m',
  os.mkdir_all isRooted up m = inr m' ->
  forall l, m' !! l = m !! l
            \/ (os.stat m l = None /\ m' !! l = Some Directory
                /\ os.within l (isRooted, rev up) = true).
Proof.
  induction up as [|e up IH]; intros m m'; simpl.
  - intros H; inversion H. now left.
  - destruct (os.stat m (isRooted, rev up ++ [e])) as [[|c]|] eqn:Es.
    + intros H; inversion H. now left.
    + discriminate.
    + destruct (os.mkdir_all isRooted up m) as [err|m1] eqn:E; [discriminate|].
      intros H; inversion H; subst m'. intros l.
      destruct (decide ((isRooted, rev up ++ [e]) = l)) as [<-|Hne].
      * right. split; [exact Es|]. split; [apply lookup_insert_eq|].
        unfold os.within. cbn [fst snd]. rewrite Bool.eqb_reflx, firstn_all. simpl.
        now apply bool_decide_eq_true.
      * rewrite lookup_insert_ne by exact Hne.
        destruct (IH m m1 E l) as [Hs|(H1 & H2 & H3)]; [now left|].
        right. split; [exact H1|]. split; [exact H2|].
        unfold os.within in *. cbn [fst snd] in *.
        apply andb_true_iff in H3 as [Hr Hp]. rewrite Hr. simpl.
        apply bool_decide_eq_true in Hp. apply bool_decide_eq_true.
        rewrite <- Hp at 2. rewrite take_app_le; [reflexivity|].
        rewrite <- Hp. rewrite length_take. lia.
Qed.

(** [MkdirAll] below a directory that exists succeeds when no regular file
    is in the way. *)
Lemma mkdir_all_below_succeeds isRooted base ext : forall m,
  os.stat m (isRooted, rev base) = Some Directory ->
  (forall k c, k < length ext ->
     m !! ((isRooted, rev (drop k ext ++ base)) : loc) <> Some (File c)) ->
  exists m', os.mkdir_all isRooted (ext ++ base) m = inr m'.
Proof.
  induction ext as [|e ext IH]; intros m Hb Hfree.
  - simpl. rewrite mkdir_all_existing by exact Hb. eauto.
  - simpl. destruct (os.stat m (isRooted, rev (ext ++ base) ++ [e])) as [[|c]|] eqn:Es.
    + eauto.
    + exfalso. apply stat_File in Es. apply (Hfree 0 c); [simpl; lia|]. exact Es.
    + destruct (IH m Hb) as [m1 ->]; [|eauto].
      intros k c Hk. apply (Hfree (S k) c). simpl. lia.
Qed.

Lemma MkdirAll_made path w w' :
  os.MkdirAll path w = (Ok tt, w') ->
  os.stat (nodes w') (filepath.resolve path) = Some Directory
  /\ forall l, os.within l (filepath.resolve path) = false -> nodes w' !! l = nodes w !! l.
Proof.
  unfold os.MkdirAll. destruct (String.eqb path ""); [discriminate|].
  destruct (os.mkdir_all _ _ _) as [e|m] eqn:E; [discriminate|].
  intros H; inversion H; subst w'. cbn [nodes called with_nodes] in *. split.
  - apply mkdir_all_made in E. rewrite rev_involutive in E.
    now destruct (filepath.resolve path).
  - intros l Hl. apply (mkdir_all_above _ _ _ _ E).
    rewrite rev_involutive. now destruct (filepath.resolve path).
Qed.

(** [MkdirAll] of a path at or below a directory that exists changes the
    tree only below that directory. *)
Lemma MkdirAll_below path base w :
  os.stat (nodes w) base = Some Directory ->
  os.within base (filepath.resolve path) = true ->
  changedWithin base w (snd (os.MkdirAll path w)).
Proof.
  intros Hb Hin. unfold os.MkdirAll. destruct (String.eqb path ""); [now intros l|].
  destruct (os.mkdir_all _ _ _) as [e|m] eqn:E; [now intros l|].
  intros l Hl. cbn [snd nodes called with_nodes] in *.
  destruct base as [r base], (filepath.resolve path) as [r' elems].
  unfold os.within in Hin. cbn [fst snd] in *.
  apply andb_true_iff in Hin as [Hr Hpre]. apply Bool.eqb_prop in Hr. subst r'.
  apply bool_decide_eq_true in Hpre.
  rewrite <- (take_drop (length base) elems), Hpre, rev_app_distr in E.
  apply (mkdir_all_below r (rev base) _ _ _) with (l := l) in E; trivial.
  - now rewrite rev_involutive.
  - now rewrite rev_involutive.
Qed.

End MkdirAllFacts.

(** ** The relocation primitive: what it touches and when it succeeds *)

Section RelocationFacts.

Import filepath.

(** A successful rename of a regular file. *)
Lemma Rename_file old new w w' c :
  os.stat (nodes w) (resolve old) = Some (File c) ->
  os.Rename old new w = (Ok tt, w') ->
  nodes w' = <[resolve new := File c]> (delete (resolve old) (nodes w))
  /\ os.implicit_dir (resolve new) = false
  /\ os.implicit_dir (resolve old) = false.
Proof.
  intros Hc. unfold os.Rename.
  destruct (String.eqb old "" || String.eqb new ""); [discriminate|].
  destruct (os.rename _ _ _ _) as [e|m] eqn:E; [discriminate|].
  intros H; inversion H; subst w'. cbn [nodes volume called with_nodes] in *.
  unfold os.rename in E. rewrite Hc in E.
  destruct (os.stat (nodes w) (os.parent (resolve new))) as [[|?]|]; try discriminate.
  destruct (negb _); [discriminate|].
  assert (Ho : os.implicit_dir (resolve old) = false)
    by (apply (stat_not_Directory (nodes w)); congruence).
  destruct (os.stat (nodes w) (resolve new)) as [[|c']|] eqn:En;
    try discriminate; inversion E; subst m;
    (assert (Hi : os.implicit_dir (resolve new) = false)
      by (apply (stat_not_Directory (nodes w)); congruence)); now repeat split.
Qed.

Lemma Copy_file dst src w w' :
  io.Copy dst src w = (Ok tt, w') ->
  exists c, os.stat (nodes w) (resolve src) = Some (File c)
            /\ nodes w' = <[resolve dst := File c]> (nodes w).
Proof.
  unfold io.Copy. cbn zeta. cbn [nodes called].
  destruct (os.stat (nodes w) (resolve src)) as [[|c]|]; try discriminate.
  intros H; inversion H. now exists c.
Qed.

Lemma Copy_succeeds dst src w c :
  os.stat (nodes w) (resolve src) = Some (File c) ->
  exists w', io.Copy dst src w = (Ok tt, w').
Proof. intros H. unfold io.Copy. cbn zeta. cbn [nodes called]. rewrite H. eauto. Qed.

Lemma Create_not_at_directory path w f w' :
  os.Create path w = (Ok f, w') -> os.stat (nodes w) (resolve path) <> Some Directory.
Proof.
  unfold os.Create. destruct (String.eqb path ""); [discriminate|].
  cbn zeta. cbn [nodes called].
  destruct (os.stat (nodes w) (resolve path)) as [[|c]|]; [discriminate| |]; congruence.
Qed.

(** A regular file is renamed within a volume, never across volumes. *)
Lemma Rename_Ok_volume old new w w' c :
  os.stat (nodes w) (resolve old) = Some (File c) ->
  os.Rename old new w = (Ok tt, w') ->
  volume w (resolve old) = volume w (resolve new).
Proof.
  intros Hc. unfold os.Rename.
  destruct (String.eqb old "" || String.eqb new ""); [discriminate|].
  cbn [nodes volume called]. unfold os.rename. rewrite Hc.
  destruct (os.stat (nodes w) (os.parent (resolve new))) as [[|?]|]; try discriminate.
  destruct (volume w (resolve old) =? volume w (resolve new))%nat eqn:Ev;
    [intros _; now apply Nat.eqb_eq | discriminate].
Qed.

Lemma Rename_Err_volume old new w e w' c :
  old <> "" -> new <> "" ->
  os.stat (nodes w) (resolve old) = Some (File c) ->
  os.stat (nodes w) (os.parent (resolve new)) = Some Directory ->
  os.stat (nodes w) (resolve new) <> Some Directory ->
  os.Rename old new w = (Err e, w') ->
  volume w (resolve old) <> volume w (resolve new).
Proof.
  intros Ho Hn Hc Hp Hd. unfold os.Rename.
  apply String.eqb_neq in Ho, Hn. rewrite Ho, Hn.
  cbn [orb nodes volume called]. unfold os.rename. rewrite Hc, Hp.
  destruct (volume w (resolve old) =? volume w (resolve new))%nat eqn:Ev.
  - cbn [negb]. destruct (os.stat (nodes w) (resolve new)) as [[|c']|];
      [congruence | discriminate | discriminate].
  - intros _. now apply Nat.eqb_neq.
Qed.

Lemma forallb_reversed {A} (f : A -> bool) (l : list A) : forallb f (rev l) = forallb f l.
Proof.
  induction l as [|a l IH]; [reflexivity|].
  simpl. rewrite forallb_app, IH. simpl. rewrite andb_true_r. apply andb_comm.
Qed.

(** A resolved path that is not one of the directories that always exist
    ends with a plain component. *)
Lemma normalLoc_last (l : loc) :
  normalLoc l = true -> os.implicit_dir l = false ->
  exists elems e, snd l = elems ++ [e] /\ plain e = true.
Proof.
  destruct l as [r els]. unfold normalLoc, os.implicit_dir. cbn [fst snd].
  intros Hn Hi. destruct (rev els) as [|top below] eqn:Er.
  - apply (f_equal (@rev string)) in Er. rewrite rev_involutive in Er. subst els.
    discriminate.
  - apply (f_equal (@rev string)) in Er. rewrite rev_involutive in Er. subst els.
    exists (rev below), top. split; [reflexivity|].
    simpl in Hn. destruct (String.eqb top "..") eqn:Et.
    + apply andb_true_iff in Hn as [_ Hb]. apply String.eqb_eq in Et. subst top.
      simpl in Hi. rewrite forallb_app in Hi. simpl in Hi.
      rewrite forallb_reversed, Hb in Hi. discriminate.
    + now apply andb_true_iff in Hn as [Hp _].
Qed.

(** What a successful [moveFile] of a regular file leaves: the directory of
    the destination has been created, the bytes are at the destination,
    every other path is as the creation of that directory left it, and the
    source is gone or kept. *)
Lemma moveFile_outcome source destination w c w' :
  os.stat (nodes w) (resolve source) = Some (File c) ->
  moveFile source destination w = (Ok tt, w') ->
  exists w1,
    os.MkdirAll (Dir destination) w = (Ok tt, w1)
    /\ os.stat (nodes w') (resolve destination) = Some (File c)
    /\ (forall l, l <> resolve source -> l <> resolve destination ->
          nodes w' !! l = nodes w1 !! l)
    /\ ((newCalls w w' = [CallMkdirAll (Dir destination); CallRename source destination]
         /\ (resolve source <> resolve destination ->
             os.stat (nodes w') (resolve source) = None))
        \/ (In (CallCopy destination) (newCalls w w')
            /\ os.stat (nodes w') (resolve source) = Some (File c))).
Proof.
  intros Hsrc. unfold moveFile, bind, wrap.
  destruct (os.MkdirAll (Dir destination) w) as [[[]|e] w1] eqn:Emk; [|discriminate].
  destruct (MkdirAll_Ok _ _ _ Emk) as (Hdirs0 & Hvol1 & Hcalls1).
  pose proof (onlyNewDirs_stat _ _ _ _ Hdirs0 Hsrc) as Hsrc1.
  destruct (os.Rename source destination w1) as [[[]|e] w2] eqn:Ern.
  - intros H; inversion H; subst w'. clear H.
    destruct (Rename_Ok _ _ _ _ Ern) as (_ & Hcalls2 & Hmoved).
    destruct (Rename_file _ _ _ _ _ Hsrc1 Ern) as (Hn2 & Hin & Hio).
    exists w1. split; [reflexivity|]. split; [now apply Hmoved|]. split.
    + intros l Hl1 Hl2. rewrite Hn2.
      rewrite lookup_insert_ne by congruence.
      now rewrite lookup_delete_ne by congruence.
    + left. split.
      * apply newCalls_app. rewrite Hcalls2, Hcalls1. now rewrite <- app_assoc.
      * intros Hne. unfold os.stat. rewrite Hio, Hn2.
        rewrite lookup_insert_ne by congruence. apply lookup_delete_eq.
  - destruct (Rename_Err _ _ _ _ _ Ern) as (Hn2 & Hvol2 & Hcalls2).
    unfold defer, ret, os.Close.
    destruct (os.Open source w2) as [[f|e'] w3] eqn:Eo; [|discriminate].
    destruct (os.Create destination w3) as [[g|e'] w4] eqn:Ec; [|discriminate].
    destruct (io.Copy g f w4) as [[[]|e'] w5] eqn:Ey; [|discriminate].
    intros H; inversion H; subst w'. clear H.
    apply Open_Ok in Eo as (-> & Hs & Hn3 & _ & Hcalls3).
    apply Create_Ok in Ec as (-> & Hd & Hi & Hpar & Hn4 & _ & Hcalls4).
    pose proof (Copy_Ok _ _ _ _ Hi Ey) as (_ & _ & _ & Hcalls5).
    apply Copy_file in Ey as (c' & Hread & Hn5).
    assert (Hne : resolve source <> resolve destination).
    { intros Heq. rewrite Hn3, Hn2 in Hpar.
      destruct (Rename_onto_itself source destination w1 c Hsrc1 Heq Hpar Hs Hd) as [w0 Hok].
      rewrite Hok in Ern. discriminate. }
    assert (Hc' : c' = c).
    { rewrite Hn4 in Hread. unfold os.stat in Hread, Hsrc1.
      destruct (os.implicit_dir (resolve source)); [congruence|].
      rewrite lookup_insert_ne in Hread by congruence.
      rewrite Hn3, Hn2, Hsrc1 in Hread. congruence. }
    subst c'. cbn [nodes called]. exists w1. split; [reflexivity|]. split; [|split].
    + rewrite Hn5. unfold os.stat. rewrite Hi. apply lookup_insert_eq.
    + intros l Hl1 Hl2. rewrite Hn5, Hn4, Hn3, Hn2.
      now rewrite !lookup_insert_ne by congruence.
    + right. split.
      * rewrite (newCalls_app w _ ([CallMkdirAll (Dir destination);
                                   CallRename source destination; CallOpen source;
                                   CallCreate destination; CallCopy destination;
                                   CallClose destination; CallClose source])).
        -- simpl. tauto.
        -- simpl. rewrite Hcalls5, Hcalls4, Hcalls3, Hcalls2, Hcalls1.
           now rewrite <- !app_assoc.
      * unfold os.stat in *. destruct (os.implicit_dir (resolve source)); [congruence|].
        rewrite Hn5, Hn4, Hn3, Hn2. now rewrite !lookup_insert_ne by congruence.
Qed.

(** X1. [moveFile] of a regular file, when it reports success, leaves every
    other path as it was, apart from directories it created.  When the
    rename did the move the source is gone; when the copy did it the source
    still holds its bytes: the fallback never removes the source. *)
Theorem moveFile_touches_only_source_and_destination source destination w c w' :
  os.stat (nodes w) (resolve source) = Some (File c) ->
  moveFile source destination w = (Ok tt, w') ->
  onlyNewDirsBut [resolve source; resolve destination] (nodes w) (nodes w')
  /\ ((newCalls w w' = [CallMkdirAll (Dir destination); CallRename source destination]
       /\ (resolve source <> resolve destination ->
           os.stat (nodes w') (resolve source) = None))
      \/ (In (CallCopy destination) (newCalls w w')
          /\ os.stat (nodes w') (resolve source) = Some (File c))).
Proof.
  intros Hsrc Hrun.
  destruct (moveFile_outcome _ _ _ _ _ Hsrc Hrun) as (w1 & Hmk & _ & Hframe & Hfate).
  split; [|exact Hfate].
  apply MkdirAll_Ok in Hmk as (Hdirs & _).
  intros l Hl. rewrite Hframe.
  - apply Hdirs.
  - intros ->. apply Hl. simpl. tauto.
  - intros ->. apply Hl. simpl. tauto.
Qed.

(** X1 at a concrete input: a move across two volumes, done by the copy. *)
Lemma moveFile_touches_only_source_and_destination_witness :
  let run := moveFile "stage/asset" "usb/Wood.mat" twoVolumes in
  os.stat (nodes twoVolumes) (resolve "stage/asset") = Some (File (Plain bytes0to9))
  /\ run = (Ok tt, snd run)
  /\ onlyNewDirsBut [resolve "stage/asset"; resolve "usb/Wood.mat"]
                    (nodes twoVolumes) (nodes (snd run))
  /\ os.stat (nodes (snd run)) (resolve "stage/asset") = Some (File (Plain bytes0to9)).
Proof.
  assert (H1 : os.stat (nodes twoVolumes) (resolve "stage/asset")
               = Some (File (Plain bytes0to9))) by reflexivity.
  assert (H2 : moveFile "stage/asset" "usb/Wood.mat" twoVolumes
               = (Ok tt, snd (moveFile "stage/asset" "usb/Wood.mat" twoVolumes)))
    by (vm_compute; reflexivity).
  split; [exact H1|]. split; [exact H2|].
  destruct (moveFile_touches_only_source_and_destination _ _ _ _ _ H1 H2) as [Hf Hs].
  split; [exact Hf|]. vm_compute. reflexivity.
Defined.

Lemma moveFile_total source destination w c :
  os.stat (nodes w) (resolve source) = Some (File c) ->
  Clean destination = destination ->
  os.stat (nodes w) (resolve destination) <> Some Directory ->
  fst (os.MkdirAll (Dir destination) w) = Ok tt ->
  fst (moveFile source destination w) = Ok tt.
Proof.
  intros Hsrc Hclean Hnd Hmk. unfold moveFile, bind, wrap.
  destruct (os.MkdirAll (Dir destination) w) as [[[]|e] w1] eqn:Emk; [|discriminate].
  destruct (MkdirAll_Ok _ _ _ Emk) as (Hdirs & Hvol1 & Hcalls1).
  pose proof (onlyNewDirs_stat _ _ _ _ Hdirs Hsrc) as Hsrc1.
  destruct (MkdirAll_made _ _ _ Emk) as (Hmade & Hframe).
  pose proof (stat_not_Directory _ _ Hnd) as Himp.
  destruct (normalLoc_last _ (resolve_normalLoc destination) Himp) as (elems & e & Hl & He).
  destruct (resolve destination) as [r els] eqn:Er. cbn [snd] in Hl. subst els.
  assert (Hdest : destination = render (r, elems ++ [e])).
  { rewrite <- Hclean. unfold Clean. now rewrite Er. }
  assert (Hee : String.eqb e ".." = false) by now apply plain_not_dotdot.
  assert (Hdir : resolve (Dir destination) = (r, elems)).
  { rewrite Hdest. apply resolve_Dir_render. rewrite <- Er. apply resolve_normalLoc. }
  rewrite Hdir in Hmade, Hframe.
  assert (Hne : destination <> "").
  { rewrite Hdest. apply render_nonempty. rewrite <- Er. apply resolve_normalLoc. }
  assert (Hkeep : nodes w1 !! ((r, elems ++ [e]) : loc) = nodes w !! ((r, elems ++ [e]) : loc)).
  { apply Hframe. unfold os.within. cbn [fst snd]. rewrite Bool.eqb_reflx. simpl.
    apply bool_decide_eq_false. rewrite length_app. simpl.
    rewrite take_ge by lia. intros Heq.
    apply (f_equal (@length string)) in Heq. rewrite length_app in Heq. simpl in Heq. lia. }
  assert (Hnd1 : nodes w1 !! ((r, elems ++ [e]) : loc) <> Some Directory).
  { rewrite Hkeep. unfold os.stat in Hnd. now rewrite Himp in Hnd. }
  destruct (os.Rename source destination w1) as [[[]|e'] w2] eqn:Ern; [reflexivity|].
  destruct (Rename_Err _ _ _ _ _ Ern) as (Hn2 & Hvol2 & Hcalls2).
  unfold defer, ret, os.Close.
  assert (Hs : source <> "").
  { intros ->. unfold os.stat in Hsrc. simpl in Hsrc. discriminate. }
  assert (Eo : exists w3, os.Open source w2 = (Ok source, w3) /\ nodes w3 = nodes w2).
  { unfold os.Open. apply String.eqb_neq in Hs. rewrite Hs. cbn [nodes called].
    rewrite Hn2, Hsrc1. eauto. }
  destruct Eo as (w3 & -> & Hn3).
  destruct (Create_child destination r elems e w3 Hne Er Hee) as (w4 & -> & Hn4 & _).
  { now rewrite Hn3, Hn2. }
  { now rewrite Hn3, Hn2. }
  assert (Hneq : resolve source <> (r, elems ++ [e])).
  { intros Heq. rewrite <- Er in Heq.
    destruct (Rename_onto_itself source destination w1 c Hsrc1 Heq) as [w0 Hok]; trivial.
    - rewrite Er, parent_plain by exact Hee. exact Hmade.
    - rewrite Hok in Ern. discriminate. }
  destruct (Copy_succeeds destination source w4 c) as [w5 ->]; [|reflexivity].
  unfold os.stat in *. destruct (os.implicit_dir (resolve source)); [congruence|].
  rewrite Hn4, lookup_insert_ne by congruence. now rewrite Hn3, Hn2.
Qed.

(** Which way a successful [moveFile] of a regular file went: the rename
    within a volume, the copy across volumes. *)
Lemma moveFile_by_volume source destination w c w' :
  os.stat (nodes w) (resolve source) = Some (File c) ->
  moveFile source destination w = (Ok tt, w') ->
  if (volume w (resolve source) =? volume w (resolve destination))%nat
  then newCalls w w' = [CallMkdirAll (Dir destination); CallRename source destination]
       /\ (resolve source <> resolve destination ->
           os.stat (nodes w') (resolve source) = None)
  else newCalls w w'
       = [ CallMkdirAll (Dir destination); CallRename source destination;
           CallOpen source; CallCreate destination; CallCopy destination;
           CallClose destination; CallClose source ]
       /\ os.stat (nodes w') (resolve source) = Some (File c).
Proof.
  intros Hsrc. unfold moveFile, bind, wrap.
  destruct (os.MkdirAll (Dir destination) w) as [[[]|e] w1] eqn:Emk; [|discriminate].
  destruct (MkdirAll_Ok _ _ _ Emk) as (Hdirs0 & Hvol1 & Hcalls1).
  pose proof (onlyNewDirs_stat _ _ _ _ Hdirs0 Hsrc) as Hsrc1.
  destruct (os.Rename source destination w1) as [[[]|e] w2] eqn:Ern.
  - intros H; inversion H; subst w'. clear H.
    pose proof (Rename_Ok_volume _ _ _ _ _ Hsrc1 Ern) as Hv. rewrite Hvol1 in Hv.
    rewrite Hv, Nat.eqb_refl.
    destruct (Rename_Ok _ _ _ _ Ern) as (_ & Hcalls2 & _).
    destruct (Rename_file _ _ _ _ _ Hsrc1 Ern) as (Hn2 & Hin & Hio). split.
    + apply newCalls_app. rewrite Hcalls2, Hcalls1. now rewrite <- app_assoc.
    + intros Hne. unfold os.stat. rewrite Hio, Hn2.
      rewrite lookup_insert_ne by congruence. apply lookup_delete_eq.
  - destruct (Rename_Err _ _ _ _ _ Ern) as (Hn2 & Hvol2 & Hcalls2).
    unfold defer, ret, os.Close.
    destruct (os.Open source w2) as [[f|e'] w3] eqn:Eo; [|discriminate].
    destruct (os.Create destination w3) as [[g|e'] w4] eqn:Ec; [|discriminate].
    destruct (io.Copy g f w4) as [[[]|e'] w5] eqn:Ey; [|discriminate].
    intros H; inversion H; subst w'. clear H.
    apply Open_Ok in Eo as (-> & Hs & Hn3 & _ & Hcalls3).
    pose proof (Create_not_at_directory _ _ _ _ Ec) as Hnd.
    apply Create_Ok in Ec as (-> & Hd & Hi & Hpar & Hn4 & _ & Hcalls4).
    pose proof (Copy_Ok _ _ _ _ Hi Ey) as (_ & _ & _ & Hcalls5).
    apply Copy_file in Ey as (c' & Hread & Hn5).
    rewrite Hn3, Hn2 in Hpar, Hnd.
    pose proof (Rename_Err_volume _ _ _ _ _ _ Hs Hd Hsrc1 Hpar Hnd Ern) as Hv.
    rewrite Hvol1 in Hv. apply Nat.eqb_neq in Hv. rewrite Hv.
    assert (Hne : resolve source <> resolve destination).
    { intros Heq. rewrite Heq, Nat.eqb_refl in Hv. discriminate. }
    cbn [nodes called]. split.
    + apply newCalls_app. simpl. rewrite Hcalls5, Hcalls4, Hcalls3, Hcalls2, Hcalls1.
      now rewrite <- !app_assoc.
    + unfold os.stat in *. destruct (os.implicit_dir (resolve source)); [congruence|].
      rewrite Hn5, Hn4, Hn3, Hn2. now rewrite !lookup_insert_ne by congruence.
Qed.

(** X2. [moveFile] of a regular file to a destination that is not a
    directory succeeds whenever the directory of the destination can be
    created, and it is the volumes that decide how: within one volume the
    rename does the move, after which the source is gone; across volumes the
    rename fails and the copy does it, after which the source is still
    there.  In both cases the destination holds what the source held.  The
    paths hold no NUL byte and are clean. *)
Theorem moveFile_succeeds source destination w c :
  noNul source = true -> noNul destination = true ->
  Clean source = source -> Clean destination = destination ->
  os.stat (nodes w) (resolve source) = Some (File c) ->
  os.stat (nodes w) (resolve destination) <> Some Directory ->
  fst (os.MkdirAll (Dir destination) w) = Ok tt ->
  exists w',
    moveFile source destination w = (Ok tt, w')
    /\ os.stat (nodes w') (resolve destination) = Some (File c)
    /\ if (volume w (resolve source) =? volume w (resolve destination))%nat
       then newCalls w w' = [CallMkdirAll (Dir destination); CallRename source destination]
            /\ (resolve source <> resolve destination ->
                os.stat (nodes w') (resolve source) = None)
       else newCalls w w'
            = [ CallMkdirAll (Dir destination); CallRename source destination;
                CallOpen source; CallCreate destination; CallCopy destination;
                CallClose destination; CallClose source ]
            /\ os.stat (nodes w') (resolve source) = Some (File c).
Proof.
  intros _ _ _ Hclean Hsrc Hnd Hmk.
  pose proof (moveFile_total source destination w c Hsrc Hclean Hnd Hmk) as Htot.
  destruct (moveFile source destination w) as [[[]|e] w'] eqn:E; [|discriminate].
  exists w'. split; [reflexivity|].
  destruct (moveFile_outcome _ _ _ _ _ Hsrc E) as (w1 & _ & Hdst & _).
  split; [exact Hdst|]. exact (moveFile_by_volume _ _ _ _ _ Hsrc E).
Qed.

(** X2 at a concrete input: a move across two volumes. *)
Lemma moveFile_succeeds_witness :
  noNul "stage/asset" = true /\ noNul "usb/Wood.mat" = true
  /\ Clean "stage/asset" = "stage/asset" /\ Clean "usb/Wood.mat" = "usb/Wood.mat"
  /\ os.stat (nodes twoVolumes) (resolve "stage/asset") = Some (File (Plain bytes0to9))
  /\ os.stat (nodes twoVolumes) (resolve "usb/Wood.mat") <> Some Directory
  /\ fst (os.MkdirAll (Dir "usb/Wood.mat") twoVolumes) = Ok tt
  /\ exists w',
       moveFile "stage/asset" "usb/Wood.mat" twoVolumes = (Ok tt, w')
       /\ os.stat (nodes w') (resolve "usb/Wood.mat") = Some (File (Plain bytes0to9))
       /\ os.stat (nodes w') (resolve "stage/asset") = Some (File (Plain bytes0to9)).
Proof.
  assert (N1 : noNul "stage/asset" = true) by reflexivity.
  assert (N2 : noNul "usb/Wood.mat" = true) by reflexivity.
  assert (C1 : Clean "stage/asset" = "stage/asset") by reflexivity.
  assert (H2 : Clean "usb/Wood.mat" = "usb/Wood.mat") by reflexivity.
  assert (H1 : os.stat (nodes twoVolumes) (resolve "stage/asset")
               = Some (File (Plain bytes0to9))) by reflexivity.
  assert (H3 : os.stat (nodes twoVolumes) (resolve "usb/Wood.mat") <> Some Directory)
    by (vm_compute; discriminate).
  assert (H4 : fst (os.MkdirAll (Dir "usb/Wood.mat") twoVolumes) = Ok tt) by reflexivity.
  repeat (split; [assumption|]).
  destruct (moveFile_succeeds "stage/asset" "usb/Wood.mat" twoVolumes _ N1 N2 C1 H2 H1 H3 H4)
    as (w' & E & Hd & Hway).
  exists w'. split; [exact E|]. split; [exact Hd|].
  change ((volume twoVolumes (resolve "stage/asset")
           =? volume twoVolumes (resolve "usb/Wood.mat"))%nat) with false in Hway.
  exact (proj2 Hway).
Defined.

End RelocationFacts.
(** ** The reconstruction pass *)

Section ReconstructionPass.

Variable targetDir : string.

(** The pass over a sequence of records is the pass over its first part
    followed, unless that failed, by the pass over the rest. *)
Lemma reconstructAssets_app done rest : forall w,
  reconstructAssets (done ++ rest) targetDir w
  = match reconstructAssets done targetDir w with
    | (Ok _, w1) => reconstructAssets rest targetDir w1
    | (Err e, w1) => (Err e, w1)
    end.
Proof.
  induction done as [|asset done IH]; intros w; [reflexivity|].
  simpl. destruct (String.eqb (PathName asset) "" || String.eqb (AssetPath asset) "").
  - unfold bind, fmt.Printf. apply IH.
  - unfold bind, fmt.Printf, wrap.
    destruct (moveFile (AssetPath asset) _ _) as [[[]|e] w1]; [|reflexivity].
    destruct (negb (String.eqb (MetaPath asset) "")).
    + destruct (moveFile (MetaPath asset) _ _) as [[[]|e] w2]; [apply IH | reflexivity].
    + apply IH.
Qed.

Lemma reconstructAssets_error assets : forall w e,
  fst (reconstructAssets assets targetDir w) = Err e ->
  exists cause, e = Errorf "failed to move asset" cause
                \/ e = Errorf "failed to move meta" cause.
Proof.
  induction assets as [|asset assets IH]; intros w e; [discriminate|].
  simpl. destruct (String.eqb (PathName asset) "" || String.eqb (AssetPath asset) "").
  - unfold bind, fmt.Printf. apply IH.
  - unfold bind, fmt.Printf, wrap.
    destruct (moveFile (AssetPath asset) _ _) as [[[]|e1] w1].
    2: { simpl. intros H; inversion H. eauto. }
    destruct (negb (String.eqb (MetaPath asset) "")).
    + destruct (moveFile (MetaPath asset) _ _) as [[[]|e2] w2]; [apply IH|].
      simpl. intros H; inversion H. eauto.
    + apply IH.
Qed.

End ReconstructionPass.

(** X3. A failed relocation is fatal to the pass: when the pass over some
    records fails, the pass over these records followed by any others ends
    in the same way, with the same error and in the same world, so that no
    later record is touched; the error is the error of a move, wrapped. *)
Theorem reconstruction_stops_at_the_first_failure done rest targetDir w e :
  fst (reconstructStructure done targetDir w) = Err e ->
  reconstructStructure (done ++ rest) targetDir w = reconstructStructure done targetDir w
  /\ exists cause, e = Errorf "failed to move asset" cause
                   \/ e = Errorf "failed to move meta" cause.
Proof.
  unfold reconstructStructure, bind, fmt.Printf.
  rewrite reconstructAssets_app.
  set (w0 := printed _ w).
  pose proof (reconstructAssets_error targetDir done w0) as He.
  destruct (reconstructAssets done targetDir w0) as [[[]|e'] w1]; [discriminate|].
  simpl. intros H; inversion H; subst e'. split; [reflexivity|]. now apply He.
Qed.

(** X3 at a concrete input: the staged payload of the first record does not
    exist. *)
Lemma reconstruction_stops_at_the_first_failure_witness :
  let e := Errorf "failed to move asset"
             (Errorf "failed to open source file stage/missing"
                (PathError "open" "stage/missing" ENOENT)) in
  fst (reconstructStructure [missingRecord] "out" twoVolumes) = Err e
  /\ reconstructStructure ([missingRecord] ++ [stagedRecord]) "out" twoVolumes
     = reconstructStructure [missingRecord] "out" twoVolumes
  /\ os.stat (nodes (snd (reconstructStructure ([missingRecord] ++ [stagedRecord])
                                               "out" twoVolumes)))
             (filepath.resolve "stage/asset")
     = Some (File (Plain bytes0to9)).
Proof.
  assert (H : fst (reconstructStructure [missingRecord] "out" twoVolumes)
              = Err (Errorf "failed to move asset"
                       (Errorf "failed to open source file stage/missing"
                          (PathError "open" "stage/missing" ENOENT))))
    by (vm_compute; reflexivity).
  split; [exact H|].
  destruct (reconstruction_stops_at_the_first_failure
              [missingRecord] [stagedRecord] "out" twoVolumes _ H) as [Heq _].
  split; [exact Heq|]. rewrite Heq. vm_compute. reflexivity.
Defined.

(** ** Entries the extractor ignores *)

Section IgnoredEntries.

Import filepath.

Lemma SplitN_two (s : string) :
  strings.SplitN s Separator 2
  = match strings.cut Separator s with
    | Some (a, b) => [a; b]
    | None => [s]
    end.
Proof.
  unfold strings.SplitN. destruct s as [|c s]; [reflexivity|].
  simpl String.length. unfold strings.SplitN_aux.
  destruct (strings.cut Separator (String c s)) as [[a b]|]; [|reflexivity].
  now destruct (String.length s).
Qed.

Lemma cut_Some (sep : ascii) (s a b : string) :
  strings.cut sep s = Some (a, b) <-> s = a +:+ String sep b /\ strings.cut sep a = None.
Proof.
  revert a. induction s as [|c s IH]; intros a; simpl.
  - split; [discriminate|]. intros [H _]. destruct a; discriminate.
  - destruct (Ascii.eqb c sep) eqn:Ec.
    + apply Ascii.eqb_eq in Ec. subst c. split.
      * intros H; inversion H; subst. now split.
      * intros [H Ha]. destruct a as [|c' a].
        -- now inversion H.
        -- rewrite append_cons in H. inversion H; subst c'.
           simpl in Ha. now rewrite Ascii.eqb_refl in Ha.
    + destruct (strings.cut sep s) as [[a' b']|] eqn:Es.
      * split.
        -- intros H; inversion H; subst. destruct (proj1 (IH a') eq_refl) as [-> Ha'].
           split; [reflexivity|]. simpl. now rewrite Ec, Ha'.
        -- intros [H Ha]. destruct a as [|c' a].
           ++ inversion H; subst. now rewrite Ascii.eqb_refl in Ec.
           ++ rewrite append_cons in H. inversion H; subst c' s.
              simpl in Ha. rewrite Ec in Ha.
              destruct (strings.cut sep a) as [[]|] eqn:Ea; [discriminate|].
              assert (Hx : Some (a', b') = Some (a, b)) by (apply IH; now split).
              now inversion Hx.
      * split; [discriminate|]. intros [H Ha]. destruct a as [|c' a].
        -- inversion H; subst. now rewrite Ascii.eqb_refl in Ec.
        -- rewrite append_cons in H. inversion H; subst c' s.
           simpl in Ha. rewrite Ec in Ha.
           destruct (strings.cut sep a) as [[]|] eqn:Ea; [discriminate|].
           assert (Hx : None = Some (a, b)) by (apply IH; now split).
           discriminate.
Qed.

Lemma member_Some header G f :
  member header = Some (G, f)
  <-> Name header = G +:+ String Separator f /\ strings.cut Separator G = None.
Proof.
  unfold member. change "/"%char with Separator. rewrite SplitN_two.
  rewrite <- cut_Some.
  destruct (strings.cut Separator (Name header)) as [[a b]|]; split; congruence.
Qed.

Lemma isMember_named f header :
  isMember f header = true
  <-> exists G, strings.cut Separator G = None /\ Name header = G +:+ String Separator f.
Proof.
  unfold isMember. destruct (member header) as [[G f']|] eqn:Em.
  - apply member_Some in Em as [Hn HG]. split.
    + intros H. apply String.eqb_eq in H. subst f'. eauto.
    + intros (G' & HG' & Hn'). apply String.eqb_eq.
      assert (Hx : Some (G, f') = Some (G', f)).
      { rewrite <- (proj2 (cut_Some Separator (Name header) G f') (conj Hn HG)).
        apply cut_Some. now split. }
      now inversion Hx.
  - split; [discriminate|]. intros (G & HG & Hn).
    assert (Hx : member header = Some (G, f)) by (apply member_Some; now split).
    congruence.
Qed.

Lemma extractEntry_unrecognised tempDir header broken current assets w :
  recognised header = false ->
  extractEntry tempDir header broken current assets w = (Ok (current, assets), w).
Proof.
  unfold recognised, isPathname, isMember, member, extractEntry.
  destruct (strings.SplitN (Name header) "/" 2) as [|d [|f [|x l]]]; try reflexivity.
  intros H. apply orb_false_iff in H as [H Hp]. apply orb_false_iff in H as [Ha Hm].
  now rewrite Ha, Hm, Hp.
Qed.

End IgnoredEntries.

(** X4. The extractor acts on the entries named [G/asset], [G/asset.meta]
    and [G/pathname], for [G] without separator, and on no others: the
    extraction runs as if every other entry (a preview image, a member in a
    sub-directory of the group, an entry at the root of the archive) were
    absent. *)
Theorem unrecognised_entries_are_ignored tempDir entries :
  (forall fin current assets w,
      extractEntries tempDir (List.filter recognised entries) fin current assets w
      = extractEntries tempDir entries fin current assets w)
  /\ (forall header,
         recognised header = true
         <-> exists G, strings.cut filepath.Separator G = None
                       /\ (Name header = G +:+ "/asset"
                           \/ Name header = G +:+ "/asset.meta"
                           \/ Name header = G +:+ "/pathname")).
Proof.
  split.
  - induction entries as [|header entries' IH]; intros fin current assets w; [reflexivity|].
    simpl. destruct (recognised header) eqn:E.
    + simpl. unfold bind. destruct (extractEntry tempDir header None current assets w)
        as [[st|e] w1]; [apply IH | reflexivity].
    + unfold bind. rewrite extractEntry_unrecognised by exact E. apply IH.
  - intros header. unfold recognised, isPathname.
    rewrite !orb_true_iff, !isMember_named. split.
    + intros [[(G & HG & Hn)|(G & HG & Hn)]|(G & HG & Hn)]; exists G; tauto.
    + intros (G & HG & [Hn|[Hn|Hn]]); eauto.
Qed.
(** ** Where the extractor writes *)

Section Confinement.

Import filepath.

Variable top : loc.

Lemma changedWithin_refl w : changedWithin top w w.
Proof. now intros l. Qed.

Lemma changedWithin_trans w1 w2 w3 :
  changedWithin top w1 w2 -> changedWithin top w2 w3 -> changedWithin top w1 w3.
Proof. intros H12 H23 l Hl. rewrite H23, H12; trivial. Qed.

Lemma within_refl l : os.within l l = true.
Proof.
  unfold os.within. rewrite Bool.eqb_reflx, firstn_all. simpl.
  now apply bool_decide_eq_true.
Qed.

Lemma within_trans a b c :
  os.within a b = true -> os.within b c = true -> os.within a c = true.
Proof.
  unfold os.within. intros Hab Hbc.
  apply andb_true_iff in Hab as [Hr1 H1], Hbc as [Hr2 H2].
  apply Bool.eqb_prop in Hr1, Hr2. apply bool_decide_eq_true in H1, H2.
  rewrite Hr1, Hr2, Bool.eqb_reflx. simpl. apply bool_decide_eq_true.
  rewrite <- H1 at 2. rewrite <- H2.
  rewrite take_take. f_equal.
  assert (length (snd a) <= length (snd b)); [|lia].
  rewrite <- H1. rewrite length_take. lia.
Qed.

Lemma within_app r elems more : os.within (r, elems) (r, elems ++ more) = true.
Proof.
  unfold os.within. cbn [fst snd]. rewrite Bool.eqb_reflx, take_app_length. simpl.
  now apply bool_decide_eq_true.
Qed.

Lemma stat_insert_ne (m : gmap loc node) l k n :
  l <> k -> os.stat (<[k := n]> m) l = os.stat m l.
Proof.
  intros H. unfold os.stat. destruct (os.implicit_dir l); [reflexivity|].
  now apply lookup_insert_ne.
Qed.

Lemma confinedTo_ret {A} (a : A) : confinedTo top (ret a).
Proof. intros w H. split; [apply changedWithin_refl | exact H]. Qed.

Lemma confinedTo_fail {A} e : confinedTo top (@fail A e).
Proof. intros w H. split; [apply changedWithin_refl | exact H]. Qed.

Lemma confinedTo_bind {A B} (m : IO A) (k : A -> IO B) :
  confinedTo top m -> (forall a, confinedTo top (k a)) -> confinedTo top (bind m k).
Proof.
  intros Hm Hk w Hw. unfold bind. destruct (Hm w Hw) as [H1 H2].
  destruct (m w) as [[a|e] w1]; simpl in *; [|now split].
  destruct (Hk a w1 H2) as [H3 H4]. split; [|exact H4].
  eapply changedWithin_trans; eassumption.
Qed.

Lemma confinedTo_wrap {A} msg (m : IO A) : confinedTo top m -> confinedTo top (wrap msg m).
Proof.
  intros Hm w Hw. unfold wrap. specialize (Hm w Hw).
  now destruct (m w) as [[a|e] w1].
Qed.

Lemma confinedTo_defer {A} path (m : IO A) :
  confinedTo top m -> confinedTo top (defer (os.Close path) m).
Proof.
  intros Hm w Hw. unfold defer. specialize (Hm w Hw).
  now destruct (m w) as [r w1].
Qed.

Lemma confinedTo_Printf text : confinedTo top (fmt.Printf text).
Proof. intros w Hw. split; [now intros l | exact Hw]. Qed.

Lemma confinedTo_Open path : confinedTo top (os.Open path).
Proof.
  intros w Hw. unfold os.Open.
  destruct (String.eqb path "");
    [|cbn [nodes called]; destruct (os.stat (nodes w) (resolve path))];
    (split; [intros l _; reflexivity | exact Hw]).
Qed.

Lemma confinedTo_NewReader file : confinedTo top (gzip.NewReader file).
Proof.
  intros w Hw. unfold gzip.NewReader.
  destruct (os.stat (nodes w) (resolve file)) as [[|[data|entries fin]]|];
    (split; [intros l _; reflexivity | exact Hw]).
Qed.

Lemma confinedTo_ReadEntry body broken : confinedTo top (io.ReadEntry body broken).
Proof.
  intros w Hw. unfold io.ReadEntry.
  destruct broken; (split; [intros l _; reflexivity | exact Hw]).
Qed.

Lemma confinedTo_MkdirAll path :
  os.within top (resolve path) = true -> confinedTo top (os.MkdirAll path).
Proof.
  intros Hin w Hw. split; [now apply MkdirAll_below|].
  destruct (os.MkdirAll path w) as [[[]|e] w1] eqn:E; simpl.
  - apply MkdirAll_Ok in E as (Hd & _). eapply onlyNewDirs_stat; eassumption.
  - apply MkdirAll_Err in E as (Hn & _). now rewrite Hn.
Qed.

(** Creating a file at or below [top]: at [top] itself it fails, [top]
    being a directory. *)
Lemma confinedTo_Create msg path {B} (k : string -> IO B) :
  os.within top (resolve path) = true ->
  (resolve path <> top -> confinedTo top (k path)) ->
  confinedTo top (bind (wrap msg (os.Create path)) k).
Proof.
  intros Hin Hk w Hw. unfold bind, wrap.
  destruct (os.Create path w) as [[f|e] w1] eqn:E.
  - pose proof (Create_not_at_directory _ _ _ _ E) as Hnd.
    apply Create_Ok in E as (-> & _ & Hi & _ & Hn & _).
    assert (Hne : resolve path <> top) by congruence.
    assert (H1 : changedWithin top w w1).
    { intros l Hl. rewrite Hn. apply lookup_insert_ne. intros <-. congruence. }
    assert (H2 : os.stat (nodes w1) top = Some Directory).
    { rewrite Hn, stat_insert_ne; trivial. congruence. }
    destruct (Hk Hne w1 H2) as [H3 H4]. split; [|exact H4].
    eapply changedWithin_trans; eassumption.
  - apply Create_Err in E as (Hn & _). simpl. split.
    + intros l _. now rewrite Hn.
    + now rewrite Hn.
Qed.

Lemma confinedTo_CopyEntry dst body broken :
  os.within top (resolve dst) = true -> resolve dst <> top ->
  confinedTo top (io.CopyEntry dst body broken).
Proof.
  intros Hin Hne w Hw. unfold io.CopyEntry. cbn zeta.
  assert (H1 : forall l, os.within top l = false ->
                 <[resolve dst := File (Plain body)]> (nodes w) !! l = nodes w !! l).
  { intros l Hl. apply lookup_insert_ne. intros <-. congruence. }
  assert (H2 : os.stat (<[resolve dst := File (Plain body)]> (nodes w)) top = Some Directory).
  { rewrite stat_insert_ne; trivial. congruence. }
  destruct broken; (split; [exact H1 | exact H2]).
Qed.

End Confinement.

Section StagedPaths.

Import filepath.

Lemma resolve_append_pieces path s :
  path <> "" ->
  resolve (path +:+ String Separator s)
  = (fst (resolve path),
     rev (clean_loop (rooted path) (rev (snd (resolve path))) (strings.Split s Separator))).
Proof.
  intros Hp. unfold resolve at 1. rewrite rooted_append by exact Hp.
  rewrite Split_app, clean_loop_app. unfold resolve. cbn [fst snd].
  now rewrite rev_involutive.
Qed.

Lemma rooted_unseparated d : strings.cut Separator d = None -> rooted d = false.
Proof.
  destruct d as [|c d]; [reflexivity|]. simpl.
  unfold Separator. now destruct (Ascii.eqb c "/").
Qed.

Lemma staged_member_plain f :
  String.eqb f "asset" || String.eqb f "asset.meta" = true -> plain f = true.
Proof.
  intros H. apply orb_true_iff in H as [H|H]; apply String.eqb_eq in H; now subst.
Qed.

Lemma clean_loop_member r out d f :
  String.eqb d ".." = false -> plain f = true ->
  clean_loop r out [d; f] = f :: groupPieces d ++ out.
Proof.
  intros Hd Hf. destruct (plain_clean _ Hf) as (F1 & F2 & F3).
  unfold groupPieces. simpl.
  destruct (String.eqb d ""); simpl; [now rewrite F1, F2, F3|].
  destruct (String.eqb d "."); simpl; [now rewrite F1, F2, F3|].
  rewrite Hd. now rewrite F1, F2, F3.
Qed.

(** Where a member of a group whose name is not [..] is staged. *)
Lemma resolve_staged tempDir d f :
  strings.cut Separator d = None -> String.eqb d ".." = false -> plain f = true ->
  resolve (stagedPath tempDir d f)
  = (fst (resolve tempDir), (snd (resolve tempDir) ++ groupPieces d) ++ [f]).
Proof.
  intros Hc Hd Hf. unfold stagedPath.
  destruct (plain_clean _ Hf) as (F1 & _).
  assert (Hcf : strings.cut Separator f = None) by now apply plain_cut.
  change (Join [tempDir; d; f])
    with (if String.eqb tempDir ""
          then if String.eqb d ""
               then if String.eqb f "" then "" else Clean f
               else Clean (d +:+ String Separator f)
          else Clean (tempDir +:+ String Separator (d +:+ String Separator f))).
  destruct (String.eqb tempDir "") eqn:Et.
  - apply String.eqb_eq in Et. subst tempDir.
    destruct (String.eqb d "") eqn:Ed.
    + rewrite F1, resolve_Clean. apply String.eqb_eq in Ed. subst d.
      apply (resolve_names [f]). simpl. now rewrite Hf.
    + rewrite resolve_Clean. unfold resolve at 1.
      rewrite rooted_append by now apply String.eqb_neq.
      rewrite (rooted_unseparated d Hc).
      rewrite Split_app, !Split_whole by assumption.
      change ([d] ++ [f]) with [d; f]. rewrite clean_loop_member by assumption.
      simpl. rewrite app_nil_r. unfold groupPieces. rewrite Ed. simpl.
      now destruct (String.eqb d ".").
  - rewrite resolve_Clean, resolve_append_pieces by now apply String.eqb_neq.
    rewrite Split_app, !Split_whole by assumption.
    change ([d] ++ [f]) with [d; f]. rewrite clean_loop_member by assumption.
    f_equal. simpl. rewrite rev_app_distr, rev_involutive.
    unfold groupPieces. now destruct (String.eqb d "" || String.eqb d ".").
Qed.

Lemma staged_rendered tempDir d f :
  f <> "" -> stagedPath tempDir d f = render (resolve (stagedPath tempDir d f)).
Proof.
  intros Hf. apply String.eqb_neq in Hf. unfold stagedPath.
  change (Join [tempDir; d; f])
    with (if String.eqb tempDir ""
          then if String.eqb d ""
               then if String.eqb f "" then "" else Clean f
               else Clean (d +:+ String Separator f)
          else Clean (tempDir +:+ String Separator (d +:+ String Separator f))).
  rewrite Hf. destruct (String.eqb tempDir ""), (String.eqb d "");
    now rewrite resolve_Clean.
Qed.

Lemma resolve_Dir_staged tempDir d f :
  strings.cut Separator d = None -> String.eqb d ".." = false -> plain f = true ->
  resolve (Dir (stagedPath tempDir d f))
  = (fst (resolve tempDir), snd (resolve tempDir) ++ groupPieces d).
Proof.
  intros Hc Hd Hf. rewrite staged_rendered.
  - rewrite resolve_staged by assumption. apply resolve_Dir_render.
    rewrite <- resolve_staged by assumption. apply resolve_normalLoc.
  - destruct (plain_clean _ Hf) as (F1 & _). now apply String.eqb_neq.
Qed.

Lemma longer_path_differs (r : bool) (elems : list string) (e : string) more :
  ((r, (elems ++ more) ++ [e]) : loc) <> (r, elems).
Proof.
  intros H. inversion H as [Heq]. apply (f_equal (@length string)) in Heq.
  rewrite !length_app in Heq. simpl in Heq. lia.
Qed.

(** An iteration of the extractor's loop on an entry whose group is not
    named [..] writes below the staging directory only. *)
Lemma extractEntry_confined tempDir header broken current assets :
  stagedInParent header = false ->
  confinedTo (resolve tempDir) (extractEntry tempDir header broken current assets).
Proof.
  unfold stagedInParent, member, extractEntry.
  change "/"%char with Separator. rewrite SplitN_two.
  destruct (strings.cut Separator (Name header)) as [[d f]|] eqn:Ec;
    [|intros _; apply confinedTo_ret].
  apply cut_Some in Ec as [_ Hd].
  destruct (String.eqb f "asset" || String.eqb f "asset.meta") eqn:Ef.
  - rewrite andb_true_r. intros Hdd.
    pose proof (staged_member_plain f Ef) as Hf.
    fold (stagedPath tempDir d f).
    pose proof (resolve_staged tempDir d f Hd Hdd Hf) as Hr.
    pose proof (resolve_Dir_staged tempDir d f Hd Hdd Hf) as Hrd.
    destruct (resolve tempDir) as [r ts] eqn:Et. cbn [fst snd] in *.
    apply confinedTo_bind; [|intros _].
    { apply confinedTo_wrap, confinedTo_MkdirAll. rewrite Hrd. apply within_app. }
    apply confinedTo_Create.
    { rewrite Hr, <- app_assoc. apply within_app. }
    intros Hne. apply confinedTo_bind.
    + apply confinedTo_wrap, confinedTo_defer, confinedTo_CopyEntry.
      * rewrite Hr, <- app_assoc. apply within_app.
      * exact Hne.
    + intros _. destruct (String.eqb f "asset"); apply confinedTo_ret.
  - intros _. destruct (String.eqb f "pathname"); [|apply confinedTo_ret].
    apply confinedTo_bind; [apply confinedTo_wrap, confinedTo_ReadEntry | intros buf].
    apply confinedTo_ret.
Qed.

Lemma extractEntries_confined tempDir entries fin : forall current assets,
  existsb stagedInParent (delivered entries fin) = false ->
  confinedTo (resolve tempDir) (extractEntries tempDir entries fin current assets).
Proof.
  induction entries as [|header entries IH]; intros current assets; simpl.
  - destruct fin as [|cause [pending|]]; simpl.
    + intros _. apply confinedTo_ret.
    + rewrite orb_false_r. intros H.
      apply confinedTo_bind; [now apply extractEntry_confined | intros _].
      apply confinedTo_fail.
    + intros _. apply confinedTo_fail.
  - intros H. apply orb_false_iff in H as [H1 H2].
    apply confinedTo_bind; [now apply extractEntry_confined | intros st].
    now apply IH.
Qed.

End StagedPaths.

(** X5. Staging is confined to the staging directory unless the archive
    holds a payload or sidecar entry of a group named [..]: whatever the
    archive holds otherwise, and whether the extraction succeeds or fails,
    it changes nothing outside the staging directory. *)
Theorem staging_stays_in_the_staging_directory srcFile tempDir w :
  os.stat (nodes w) (filepath.resolve tempDir) = Some Directory ->
  (forall entries fin,
      os.stat (nodes w) (filepath.resolve srcFile) = Some (File (Package entries fin)) ->
      existsb stagedInParent (delivered entries fin) = false) ->
  changedWithin (filepath.resolve tempDir) w (snd (extractTarGz srcFile tempDir w)).
Proof.
  intros Hdir Hsafe. unfold extractTarGz, bind, wrap, defer, fmt.Printf, os.Close.
  set (w0 := printed _ w).
  destruct (os.Open srcFile w0) as [[file|e] w1] eqn:Eo.
  - apply Open_Ok in Eo as (-> & _ & Hn1 & _).
    unfold gzip.NewReader. rewrite Hn1. cbn [nodes printed w0].
    destruct (os.stat (nodes w) (filepath.resolve srcFile)) as [[|[data|entries fin]]|] eqn:Es;
      try (intros l _; simpl; now rewrite Hn1).
    cbn [fst snd].
    assert (Hw1 : os.stat (nodes w1) (filepath.resolve tempDir) = Some Directory)
      by now rewrite Hn1.
    destruct (extractEntries_confined tempDir entries fin emptyAsset []
                (Hsafe _ _ eq_refl) w1 Hw1) as [Hc _].
    destruct (extractEntries tempDir entries fin emptyAsset [] w1) as [[found|e] w2];
      simpl in *; intros l Hl; rewrite Hc by exact Hl; now rewrite Hn1.
  - apply Open_Err in Eo as (Hn1 & _). intros l _. simpl. now rewrite Hn1.
Qed.

(** X5 at a concrete input: the package of the wood scenario, staged under
    [tmp]. *)
Lemma staging_stays_in_the_staging_directory_witness :
  os.stat (nodes stagingWorld) (filepath.resolve "tmp") = Some Directory
  /\ existsb stagedInParent (delivered (archiveOf [woodGroup]) EndOfArchive) = false
  /\ changedWithin (filepath.resolve "tmp") stagingWorld
       (snd (extractTarGz "Wood.unitypackage" "tmp" stagingWorld)).
Proof.
  assert (H1 : os.stat (nodes stagingWorld) (filepath.resolve "tmp") = Some Directory)
    by reflexivity.
  split; [exact H1|]. split; [reflexivity|].
  apply (staging_stays_in_the_staging_directory "Wood.unitypackage" "tmp" stagingWorld H1).
  intros entries fin H. vm_compute in H. inversion H. reflexivity.
Defined.
(** ** What the staged files hold *)

Section StagedBytes.

Import filepath.

Variable tempDir : string.

(** A successful iteration on a staged entry leaves the entry's bytes at
    its staged path. *)
Lemma extractEntry_writes header current assets w st w' l :
  extractEntry tempDir header None current assets w = (Ok st, w') ->
  stagedAt tempDir header = Some l ->
  os.stat (nodes w') l = Some (File (Plain (Body header))).
Proof.
  unfold stagedAt, member, extractEntry.
  destruct (strings.SplitN (Name header) "/" 2) as [|d [|f [|x rest]]]; try discriminate.
  destruct (String.eqb f "asset" || String.eqb f "asset.meta"); [|discriminate].
  fold (stagedPath tempDir d f). unfold bind, wrap, defer, io.CopyEntry, os.Close.
  destruct (os.MkdirAll _ w) as [[[]|e] w1]; [|discriminate].
  destruct (os.Create (stagedPath tempDir d f) w1) as [[g|e] w2] eqn:Ec; [|discriminate].
  apply Create_Ok in Ec as (-> & _ & Hi & _).
  cbn zeta. intros H Hl. inversion Hl; subst l.
  destruct (String.eqb f "asset"); inversion H; subst; cbn [nodes called with_nodes];
    unfold os.stat; rewrite Hi; apply lookup_insert_eq.
Qed.

(** A successful iteration leaves every regular file it does not stage as
    it was. *)
Lemma extractEntry_keeps header broken current assets w st w' l c :
  extractEntry tempDir header broken current assets w = (Ok st, w') ->
  stagedAt tempDir header <> Some l ->
  os.stat (nodes w) l = Some (File c) ->
  os.stat (nodes w') l = Some (File c).
Proof.
  unfold stagedAt, member, extractEntry.
  destruct (strings.SplitN (Name header) "/" 2) as [|d [|f [|x rest]]];
    try (unfold ret; intros H; now inversion H).
  destruct (String.eqb f "asset" || String.eqb f "asset.meta").
  - fold (stagedPath tempDir d f). unfold bind, wrap, defer, io.CopyEntry, os.Close.
    destruct (os.MkdirAll _ w) as [[[]|e] w1] eqn:Em; [|discriminate].
    apply MkdirAll_Ok in Em as (Hd & _).
    destruct (os.Create (stagedPath tempDir d f) w1) as [[g|e] w2] eqn:Ec; [|discriminate].
    apply Create_Ok in Ec as (-> & _ & Hi & _ & Hn2 & _).
    cbn zeta. intros H Hne Hc.
    assert (Hl : l <> resolve (stagedPath tempDir d f)) by congruence.
    apply (onlyNewDirs_stat _ _ _ _ Hd) in Hc.
    destruct broken; [discriminate|].
    destruct (String.eqb f "asset"); inversion H; subst; cbn [nodes called with_nodes];
      rewrite Hn2, !stat_insert_ne by exact Hl; exact Hc.
  - destruct (String.eqb f "pathname").
    + unfold bind, wrap, io.ReadEntry, ret. destruct broken; [discriminate|].
      intros H; now inversion H.
    + unfold ret. intros H; now inversion H.
Qed.

Lemma extractEntries_keep entries : forall fin current assets w found w' l c,
  extractEntries tempDir entries fin current assets w = (Ok found, w') ->
  Forall (fun later => stagedAt tempDir later <> Some l) entries ->
  os.stat (nodes w) l = Some (File c) ->
  os.stat (nodes w') l = Some (File c).
Proof.
  induction entries as [|header entries IH]; intros fin current assets w found w' l c; simpl.
  - destruct fin as [|cause [pending|]].
    + unfold ret. intros H; now inversion H.
    + unfold bind, fail.
      destruct (extractEntry tempDir pending (Some cause) current assets w) as [[st|e] w1];
        discriminate.
    + discriminate.
  - unfold bind.
    destruct (extractEntry tempDir header None current assets w) as [[st|e] w1] eqn:E;
      [|discriminate].
    intros H Hall Hc. inversion Hall as [|? ? Hh Hrest]; subst.
    eapply IH; [exact H | exact Hrest|].
    eapply extractEntry_keeps; eassumption.
Qed.

Lemma extractEntries_write before header after : forall fin current assets w found w' l,
  extractEntries tempDir (before ++ header :: after) fin current assets w = (Ok found, w') ->
  stagedAt tempDir header = Some l ->
  Forall (fun later => stagedAt tempDir later <> Some l) after ->
  os.stat (nodes w') l = Some (File (Plain (Body header))).
Proof.
  induction before as [|first before IH]; intros fin current assets w found w' l; simpl;
    unfold bind.
  - destruct (extractEntry tempDir header None current assets w) as [[st|e] w1] eqn:E;
      [|discriminate].
    intros H Hl Hall. eapply extractEntries_keep; [exact H | exact Hall|].
    eapply extractEntry_writes; eassumption.
  - destruct (extractEntry tempDir first None current assets w) as [[st|e] w1] eqn:E;
      [|discriminate].
    apply IH.
Qed.

End StagedBytes.

(** X6. After a successful extraction, every staged payload or sidecar
    entry whose staged path no later entry of the archive is staged at holds
    exactly the bytes of that entry, whatever the order and the grouping of
    the entries: of the entries staged at one path the last one wins. *)
Theorem staged_file_holds_the_bytes_of_its_last_entry
    srcFile tempDir before header after fin w found w' l :
  os.stat (nodes w) (filepath.resolve srcFile)
  = Some (File (Package (before ++ header :: after) fin)) ->
  stagedAt tempDir header = Some l ->
  Forall (fun later => stagedAt tempDir later <> Some l) after ->
  extractTarGz srcFile tempDir w = (Ok found, w') ->
  os.stat (nodes w') l = Some (File (Plain (Body header))).
Proof.
  intros Hsrc Hl Hall. unfold extractTarGz, bind, wrap, defer, fmt.Printf, os.Close, ret.
  set (w0 := printed _ w).
  destruct (os.Open srcFile w0) as [[file|e] w1'] eqn:Eo; [|discriminate].
  destruct (gzip.NewReader file w1') as [[tarReader|e] w2'] eqn:Eg; [|discriminate].
  destruct (extractEntries tempDir tarReader.1 tarReader.2 emptyAsset [] w2')
    as [[assets|e] w3'] eqn:Ee; [|discriminate].
  intros H; inversion H; subst found w'. cbn [nodes called printed].
  pose proof Eo as Eo'. apply Open_Ok in Eo' as (-> & _ & Hn1' & _).
  unfold gzip.NewReader in Eg. rewrite Hn1' in Eg. cbn [nodes printed w0] in Eg.
  rewrite Hsrc in Eg. inversion Eg; subst tarReader w2'. cbn [fst snd] in Ee.
  eapply extractEntries_write; eassumption.
Qed.
(** X6 at a concrete input: the payload of the group is stored twice. *)
Lemma staged_file_holds_the_bytes_of_its_last_entry_witness :
  let w := worldWith "Twice.unitypackage" rewrittenEntries EndOfArchive in
  let run := extractTarGz "Twice.unitypackage" "tmp" w in
  stagedAt "tmp" (TarEntry "g1/asset" bytes10to19) = Some (filepath.resolve "tmp/g1/asset")
  /\ run = (Ok [mkUnityAsset "tmp/g1/asset" "" "A.mat"], snd run)
  /\ os.stat (nodes (snd run)) (filepath.resolve "tmp/g1/asset")
     = Some (File (Plain bytes10to19)).
Proof.
  assert (H1 : os.stat (nodes (worldWith "Twice.unitypackage" rewrittenEntries EndOfArchive))
                       (filepath.resolve "Twice.unitypackage")
               = Some (File (Package ([TarEntry "g1/asset" bytes0to9]
                                      ++ TarEntry "g1/asset" bytes10to19
                                      :: [TarEntry "g1/pathname" (list_byte_of_string "A.mat")])
                                     EndOfArchive))) by reflexivity.
  assert (H2 : stagedAt "tmp" (TarEntry "g1/asset" bytes10to19)
               = Some (filepath.resolve "tmp/g1/asset")) by reflexivity.
  assert (H3 : Forall (fun later => stagedAt "tmp" later <> Some (filepath.resolve "tmp/g1/asset"))
                      [TarEntry "g1/pathname" (list_byte_of_string "A.mat")])
    by (repeat constructor; discriminate).
  assert (H4 : extractTarGz "Twice.unitypackage" "tmp"
                 (worldWith "Twice.unitypackage" rewrittenEntries EndOfArchive)
               = (Ok [mkUnityAsset "tmp/g1/asset" "" "A.mat"],
                  snd (extractTarGz "Twice.unitypackage" "tmp"
                         (worldWith "Twice.unitypackage" rewrittenEntries EndOfArchive))))
    by (vm_compute; reflexivity).
  split; [exact H2|]. split; [exact H4|].
  exact (staged_file_holds_the_bytes_of_its_last_entry _ _ _ _ _ _ _ _ _ _ H1 H2 H3 H4).
Defined.

(** ** A group named [..] *)

Section ParentGroup.

Import filepath.

Lemma MkdirAll_existing path w :
  path <> "" ->
  os.stat (nodes w) (resolve path) = Some Directory ->
  exists w', os.MkdirAll path w = (Ok tt, w') /\ nodes w' = nodes w.
Proof.
  intros Hp Hs. unfold os.MkdirAll. apply String.eqb_neq in Hp. rewrite Hp.
  cbn [nodes called]. rewrite mkdir_all_existing.
  - eexists. split; reflexivity.
  - rewrite rev_involutive. now destruct (resolve path).
Qed.

Lemma resolve_staged_parent tempDir r ts t f :
  resolve tempDir = (r, ts ++ [t]) -> plain t = true -> plain f = true ->
  resolve (stagedPath tempDir ".." f) = (r, ts ++ [f]).
Proof.
  intros Ht Hpt Hf. unfold stagedPath.
  destruct (plain_clean _ Hf) as (F1 & F2 & F3).
  assert (Hne : tempDir <> "").
  { intros ->. unfold resolve in Ht. simpl in Ht. inversion Ht as [[Hr Hl]].
    destruct ts; discriminate. }
  change (Join [tempDir; ".."; f])
    with (if String.eqb tempDir ""
          then Clean (".." +:+ String Separator f)
          else Clean (tempDir +:+ String Separator (".." +:+ String Separator f))).
  apply String.eqb_neq in Hne. rewrite Hne. apply String.eqb_neq in Hne.
  rewrite resolve_Clean, resolve_append_pieces by exact Hne.
  rewrite Split_app, (Split_whole Separator f) by now apply plain_cut.
  change (strings.Split ".." Separator) with [".."].
  rewrite Ht. cbn [fst snd]. f_equal.
  rewrite rev_app_distr. simpl. rewrite (plain_not_dotdot _ Hpt).
  rewrite F1, F2, F3. simpl. now rewrite rev_involutive.
Qed.

End ParentGroup.

(** X7. A payload or sidecar entry of a group named [..] is staged in the
    directory that holds the staging directory, not below the staging
    directory: the group name is joined to the staging path as it is. *)
Theorem group_named_dotdot_is_staged_outside tempDir r ts t f body current assets w :
  filepath.resolve tempDir = (r, ts ++ [t]) ->
  plain t = true ->
  f = "asset" \/ f = "asset.meta" ->
  os.stat (nodes w) (filepath.resolve tempDir) = Some Directory ->
  os.stat (nodes w) (r, ts) = Some Directory ->
  os.stat (nodes w) (r, ts ++ [f]) <> Some Directory ->
  exists st w',
    extractEntry tempDir (TarEntry ("../" +:+ f) body) None current assets w = (Ok st, w')
    /\ os.stat (nodes w') (r, ts ++ [f]) = Some (File (Plain body))
    /\ os.within (filepath.resolve tempDir) (r, ts ++ [f]) = false.
Proof.
  intros Ht Hpt Hf Htmp Hup Hfree.
  assert (Hpf : plain f = true) by (destruct Hf; now subst).
  assert (Hff : String.eqb f ".." = false) by now apply plain_not_dotdot.
  pose proof (resolve_staged_parent tempDir r ts t f Ht Hpt Hpf) as Hr.
  assert (Hfne : f <> "") by (destruct Hf; subst; discriminate).
  pose proof (staged_rendered tempDir ".." f Hfne) as Hrend.
  assert (Hnorm : normalLoc (r, ts ++ [f]) = true).
  { rewrite <- Hr. apply resolve_normalLoc. }
  assert (Hdir : filepath.resolve (filepath.Dir (stagedPath tempDir ".." f)) = (r, ts)).
  { rewrite Hrend, Hr. now apply resolve_Dir_render. }
  assert (Hpne : stagedPath tempDir ".." f <> "").
  { rewrite Hrend, Hr. now apply render_nonempty. }
  assert (Hsplit : strings.SplitN ("../" +:+ f) "/" 2 = [".."; f])
    by (destruct Hf; now subst).
  unfold extractEntry. cbn [Name Body]. rewrite Hsplit.
  assert (Hm : String.eqb f "asset" || String.eqb f "asset.meta" = true)
    by (destruct Hf; now subst).
  rewrite Hm. fold (stagedPath tempDir ".." f).
  unfold bind, wrap, defer, io.CopyEntry, os.Close, ret.
  destruct (MkdirAll_existing (filepath.Dir (stagedPath tempDir ".." f)) w) as (w1 & -> & Hn1).
  { apply Dir_nonempty. }
  { now rewrite Hdir. }
  destruct (Create_child (stagedPath tempDir ".." f) r ts f w1 Hpne Hr Hff)
    as (w2 & -> & Hn2 & _).
  { now rewrite Hn1. }
  { rewrite Hn1. unfold os.stat in Hfree. rewrite implicit_dir_plain in Hfree by exact Hff.
    exact Hfree. }
  cbn zeta. rewrite Hr.
  assert (Hheld : os.stat (<[((r, ts ++ [f]) : filepath.loc) := File (Plain body)]> (nodes w2))
                          (r, ts ++ [f]) = Some (File (Plain body))).
  { unfold os.stat. rewrite implicit_dir_plain by exact Hff. apply lookup_insert_eq. }
  assert (Hout : os.within (filepath.resolve tempDir) (r, ts ++ [f]) = false).
  { rewrite Ht. unfold os.within. cbn [fst snd]. rewrite Bool.eqb_reflx. simpl.
    apply bool_decide_eq_false. rewrite !length_app. simpl.
    rewrite take_ge by (rewrite length_app; simpl; lia).
    intros Heq. apply app_inj_tail in Heq as [_ ->].
    rewrite <- Ht in Hfree. congruence. }
  destruct (String.eqb f "asset"); eexists _, _; (split; [reflexivity|]);
    cbn [nodes called with_nodes]; now split.
Qed.

(** X7 at a concrete input: the staging directory [stage/tmp]. *)
Lemma group_named_dotdot_is_staged_outside_witness :
  filepath.resolve "stage/tmp" = (false, ["stage"] ++ ["tmp"])
  /\ plain "tmp" = true
  /\ os.stat (nodes nestedStaging) (filepath.resolve "stage/tmp") = Some Directory
  /\ os.stat (nodes nestedStaging) (false, ["stage"]) = Some Directory
  /\ os.stat (nodes nestedStaging) (false, ["stage"] ++ ["asset"]) <> Some Directory
  /\ exists st w',
       extractEntry "stage/tmp" (TarEntry ("../" +:+ "asset") bytes0to9) None emptyAsset []
                    nestedStaging = (Ok st, w')
       /\ os.stat (nodes w') (false, ["stage"] ++ ["asset"]) = Some (File (Plain bytes0to9))
       /\ os.within (filepath.resolve "stage/tmp") (false, ["stage"] ++ ["asset"]) = false.
Proof.
  assert (H1 : filepath.resolve "stage/tmp" = (false, ["stage"] ++ ["tmp"])) by reflexivity.
  assert (H2 : plain "tmp" = true) by reflexivity.
  assert (H3 : os.stat (nodes nestedStaging) (filepath.resolve "stage/tmp") = Some Directory)
    by reflexivity.
  assert (H4 : os.stat (nodes nestedStaging) (false, ["stage"]) = Some Directory)
    by reflexivity.
  assert (H5 : os.stat (nodes nestedStaging) (false, ["stage"] ++ ["asset"]) <> Some Directory)
    by (vm_compute; discriminate).
  split; [exact H1|]. split; [exact H2|]. split; [exact H3|]. split; [exact H4|].
  split; [exact H5|].
  exact (group_named_dotdot_is_staged_outside "stage/tmp" false ["stage"] "tmp" "asset"
           bytes0to9 emptyAsset [] nestedStaging H1 H2 (or_introl eq_refl) H3 H4 H5).
Defined.
(** ** The run as a whole *)

Section WholeRun.

Import filepath.

Lemma Split_render_last r ts e :
  normalLoc (r, ts ++ [e]) = true ->
  List.last (strings.Split (render (r, ts ++ [e])) Separator) "" = e.
Proof.
  intros Hn.
  assert (Hcut : Forall (fun x => strings.cut Separator x = None) (ts ++ [e])).
  { unfold normalLoc in Hn. cbn [fst snd] in Hn. apply normalOut_pieces in Hn.
    apply Forall_rev in Hn. rewrite rev_involutive in Hn.
    eapply Forall_impl; [exact Hn|]. now intros x [Hx _]. }
  assert (Hne : ts ++ [e] <> []) by (destruct ts; discriminate).
  destruct r.
  - cbn [render]. rewrite append_cons, append_nil_l. simpl strings.Split.
    rewrite Split_Join by assumption.
    change ("" :: ts ++ [e]) with (("" :: ts) ++ [e]). apply last_last.
  - assert (Hr : render (false, ts ++ [e]) = strings.Join (ts ++ [e]) "/")
      by (destruct ts; reflexivity).
    rewrite Hr, Split_Join by assumption. apply last_last.
Qed.

(** The staging root [main] works with is never the empty path and never
    ends in a dot: its removal cannot be refused. *)
Lemma staging_root_removable outputDir :
  Join [outputDir; ".tmp_unpack"] <> ""
  /\ os.endsWithDot (Join [outputDir; ".tmp_unpack"]) = false.
Proof.
  assert (Hp : plain ".tmp_unpack" = true) by reflexivity.
  pose proof (Join_rendered outputDir ".tmp_unpack" [] Hp) as Hr.
  pose proof (resolve_Join outputDir [".tmp_unpack"]) as Hj.
  rewrite Hj in Hr by (discriminate || reflexivity).
  assert (Hn : normalLoc (fst (resolve outputDir), snd (resolve outputDir) ++ [".tmp_unpack"])
               = true).
  { rewrite <- Hj by (discriminate || reflexivity). apply resolve_normalLoc. }
  split.
  - rewrite Hr. now apply render_nonempty.
  - unfold os.endsWithDot. rewrite Hr, Split_render_last by exact Hn. reflexivity.
Qed.

Lemma RemoveAll_removes path w :
  path <> "" -> os.endsWithDot path = false ->
  os.RemoveAll path w
  = (Ok tt, with_nodes (filter (fun kv => os.within (resolve path) (fst kv) = false) (nodes w))
                       (called (CallRemoveAll path) w)).
Proof.
  intros Hp Hd. unfold os.RemoveAll. apply String.eqb_neq in Hp. now rewrite Hp, Hd.
Qed.

(** A run that ends with exit code 0 ends with the removal of the staging
    root. *)
Lemma main_success args w :
  fst (main args w) = 0 ->
  exists w1,
    nodes (snd (main args w))
    = filter (fun kv => os.within (resolve (Join [outputDirOf args; ".tmp_unpack"])) (fst kv)
                        = false) (nodes w1).
Proof.
  unfold main, mainProc.
  destruct (length args <? 2)%nat; [discriminate|].
  unfold unpackSteps, deferMain, andThen, say, orExit.
  set (inputFile := nth 1 args "").
  set (outputDir := outputDirOf args).
  set (tempParent := Join [outputDir; ".tmp_unpack"]).
  set (w0 := printed _ (printed _ w)).
  destruct (os.MkdirAll outputDir w0) as [[[]|e1] w1]; [|discriminate].
  destruct (os.MkdirAll tempParent w1) as [[[]|e2] w2]; [|discriminate].
  destruct (os.MkdirTemp tempParent _ w2) as [[tempDir|e3] w3]; [|discriminate].
  destruct (extractTarGz inputFile tempDir w3) as [[assets|e4] w4]; [|discriminate].
  destruct (reconstructStructure assets outputDir w4) as [[[]|e5] w5]; [|discriminate].
  intros _. unfold removeTemp.
  destruct (staging_root_removable outputDir) as [Hne Hdot].
  fold tempParent in Hne, Hdot. rewrite RemoveAll_removes by assumption.
  eexists. reflexivity.
Qed.

Lemma strip_trailing_separators_unseparated s :
  strings.cut Separator s = None -> strip_trailing_separators s = s.
Proof.
  induction s as [|c s IH]; [reflexivity|]. simpl.
  destruct (Ascii.eqb c Separator) eqn:Ec; [discriminate|].
  destruct (strings.cut Separator s) as [[a b]|]; [discriminate|].
  intros _. rewrite IH by reflexivity. now destruct s.
Qed.

Lemma Base_unseparated s :
  s <> "" -> strings.cut Separator s = None -> Base s = s.
Proof.
  intros Hs Hc. unfold Base. apply String.eqb_neq in Hs. rewrite Hs.
  rewrite strip_trailing_separators_unseparated, Split_whole by exact Hc.
  apply String.eqb_neq in Hs. simpl. now destruct s.
Qed.

Lemma mkdir_all_at_file (r : bool) (up : list string) (m : gmap loc node) c :
  os.stat m (r, rev up) = Some (File c) -> os.mkdir_all r up m = inl ENOTDIR.
Proof. intros H. destruct up; simpl in *; [discriminate | now rewrite H]. Qed.

End WholeRun.

(** X8. A run that ends with exit code 0 leaves nothing at or below the
    staging root [<output directory>/.tmp_unpack], whatever was there before
    the run. *)
Theorem successful_run_leaves_no_staging_root args w :
  fst (main args w) = 0 ->
  forall l,
    os.within (filepath.resolve (filepath.Join [outputDirOf args; ".tmp_unpack"])) l = true ->
    nodes (snd (main args w)) !! l = None.
Proof.
  intros H l Hl. destruct (main_success args w H) as [w1 ->].
  apply map_lookup_filter_None. right. intros n _. cbn [fst]. congruence.
Qed.

(** X8 at a concrete input: the wood scenario. *)
Lemma successful_run_leaves_no_staging_root_witness :
  let run := main ["unpack"; "Wood.unitypackage"; "out/"]
                  (worldWith "Wood.unitypackage" woodEntries EndOfArchive) in
  fst run = 0
  /\ nodes (snd run) !! filepath.resolve "out/.tmp_unpack/unpack-unitypackage-7/abc123" = None.
Proof.
  assert (H : fst (main ["unpack"; "Wood.unitypackage"; "out/"]
                        (worldWith "Wood.unitypackage" woodEntries EndOfArchive)) = 0)
    by (vm_compute; reflexivity).
  split; [exact H|].
  apply (successful_run_leaves_no_staging_root _ _ H). vm_compute. reflexivity.
Defined.

(** X9. An input file without extension, given by its bare name, cannot be
    unpacked without naming an output directory: the output directory
    derived from the name is the input file itself, creating it fails, and
    the run ends with exit code 1 before it opens the input, leaving the file
    tree as it was. *)
Theorem input_without_extension_is_its_own_output_directory prog inputFile w c :
  strings.cut filepath.Separator inputFile = None ->
  hasDot inputFile = false ->
  os.stat (nodes w) (filepath.resolve inputFile) = Some (File c) ->
  let run := main [prog; inputFile] w in
  outputDirOf [prog; inputFile] = inputFile
  /\ fst run = 1
  /\ nodes (snd run) = nodes w
  /\ calls (snd run) = calls w ++ [CallMkdirAll inputFile]
  /\ stdout (snd run)
     = stdout w ++ [ "[INFO] Input File: " +:+ inputFile +:+ nl;
                     "[INFO] Output Directory: " +:+ inputFile +:+ nl;
                     "[ERROR] Failed to create output directory: mkdir " +:+ inputFile
                     +:+ ": not a directory" +:+ nl ].
Proof.
  intros Hcut Hdot Hfile.
  assert (Hne : inputFile <> "").
  { intros ->. unfold os.stat in Hfile. simpl in Hfile. discriminate. }
  assert (Hout : outputDirOf [prog; inputFile] = inputFile).
  { unfold outputDirOf. simpl. rewrite Base_unseparated by assumption.
    rewrite TrimSuffix_Ext by exact Hcut. now apply stripFinalExtension_no_dot. }
  cbn zeta. split; [exact Hout|].
  unfold main, mainProc. rewrite Hout.
  change ((length [prog; inputFile] <? 2)%nat) with false.
  change (nth 1 [prog; inputFile] "") with inputFile. cbv iota.
  unfold andThen, say, orExit, os.MkdirAll.
  apply String.eqb_neq in Hne. rewrite Hne. cbn [nodes called printed].
  rewrite mkdir_all_at_file with (c := c).
  - cbn [fst snd nodes calls stdout printed called Error errno_text].
    repeat split. rewrite <- !app_assoc. simpl. now rewrite !append_assoc.
  - rewrite rev_involutive. now destruct (filepath.resolve inputFile).
Qed.

(** X9 at a concrete input: a package named [Wood]. *)
Lemma input_without_extension_is_its_own_output_directory_witness :
  let w := worldWith "Wood" woodEntries EndOfArchive in
  strings.cut filepath.Separator "Wood" = None
  /\ hasDot "Wood" = false
  /\ os.stat (nodes w) (filepath.resolve "Wood") = Some (File (Package woodEntries EndOfArchive))
  /\ outputDirOf ["unpack"; "Wood"] = "Wood"
  /\ fst (main ["unpack"; "Wood"] w) = 1
  /\ nodes (snd (main ["unpack"; "Wood"] w)) = nodes w.
Proof.
  assert (H1 : strings.cut filepath.Separator "Wood" = None) by reflexivity.
  assert (H2 : hasDot "Wood" = false) by reflexivity.
  assert (H3 : os.stat (nodes (worldWith "Wood" woodEntries EndOfArchive))
                       (filepath.resolve "Wood")
               = Some (File (Package woodEntries EndOfArchive))) by reflexivity.
  split; [exact H1|]. split; [exact H2|]. split; [exact H3|].
  destruct (input_without_extension_is_its_own_output_directory
              "unpack" "Wood" _ _ H1 H2 H3) as (E1 & E2 & E3 & _).
  split; [exact E1|]. split; [exact E2 | exact E3].
Defined.

(** * Properties of the directory-walking variant *)

(** ** Its relocation primitive *)

Lemma copyFile_nodes source destination w c w' :
  os.stat (nodes w) (filepath.resolve source) = Some (File c) ->
  TreeVariant.copyFile source destination w = (Ok tt, w') ->
  nodes w'
  = <[filepath.resolve destination :=
        File (if bool_decide (filepath.resolve source = filepath.resolve destination)
              then Plain [] else c)]> (nodes w)
  /\ os.implicit_dir (filepath.resolve destination) = false.
Proof.
  intros Hsrc.
  unfold TreeVariant.copyFile, bind, wrap, defer, ret, os.Sync, os.Close.
  destruct (os.Open source w) as [[f|e] w1] eqn:Eo; [|discriminate].
  destruct (os.Create destination w1) as [[g|e] w2] eqn:Ec; [|discriminate].
  destruct (io.Copy g f w2) as [[[]|e] w3] eqn:Ey; [|discriminate].
  intros H; inversion H; subst w'. clear H. cbn [nodes called].
  apply Open_Ok in Eo as (-> & _ & Hn1 & _).
  apply Create_Ok in Ec as (-> & _ & Hi & _ & Hn2 & _).
  apply Copy_file in Ey as (c' & Hread & Hn3).
  split; [|exact Hi].
  rewrite Hn3, Hn2, insert_insert_eq, Hn1. f_equal. f_equal.
  rewrite Hn2, Hn1 in Hread. unfold os.stat in Hread, Hsrc.
  destruct (decide (filepath.resolve source = filepath.resolve destination)) as [Heq|Hne].
  - rewrite bool_decide_eq_true_2 by exact Heq.
    rewrite Heq, Hi, lookup_insert_eq in Hread. congruence.
  - rewrite bool_decide_eq_false_2 by exact Hne.
    destruct (os.implicit_dir (filepath.resolve source)); [congruence|].
    rewrite lookup_insert_ne in Hread by congruence. congruence.
Qed.

(** X10. [copyFile], when it reports success, has changed the destination
    and nothing else: the destination holds what the source held and the
    source is kept.  Copying a file onto itself leaves the file empty: the
    destination is truncated before the source is read. *)
Theorem copyFile_changes_only_the_destination source destination w c w' :
  os.stat (nodes w) (filepath.resolve source) = Some (File c) ->
  TreeVariant.copyFile source destination w = (Ok tt, w') ->
  nodes w'
  = <[filepath.resolve destination :=
        File (if bool_decide (filepath.resolve source = filepath.resolve destination)
              then Plain [] else c)]> (nodes w).
Proof. intros Hsrc Hrun. now destruct (copyFile_nodes _ _ _ _ _ Hsrc Hrun). Qed.

(** X10 at concrete inputs: a copy to another file, and a copy of a file
    onto itself. *)
Lemma copyFile_changes_only_the_destination_witness :
  os.stat (nodes twoVolumes) (filepath.resolve "stage/asset") = Some (File (Plain bytes0to9))
  /\ (let run := TreeVariant.copyFile "stage/asset" "usb/Wood.mat" twoVolumes in
      run = (Ok tt, snd run)
      /\ nodes (snd run)
         = <[filepath.resolve "usb/Wood.mat" := File (Plain bytes0to9)]> (nodes twoVolumes))
  /\ (let run := TreeVariant.copyFile "stage/asset" "stage/./asset" twoVolumes in
      run = (Ok tt, snd run)
      /\ nodes (snd run)
         = <[filepath.resolve "stage/asset" := File (Plain [])]> (nodes twoVolumes)).
Proof.
  assert (H1 : os.stat (nodes twoVolumes) (filepath.resolve "stage/asset")
               = Some (File (Plain bytes0to9))) by reflexivity.
  assert (H2 : TreeVariant.copyFile "stage/asset" "usb/Wood.mat" twoVolumes
               = (Ok tt, snd (TreeVariant.copyFile "stage/asset" "usb/Wood.mat" twoVolumes)))
    by (vm_compute; reflexivity).
  assert (H3 : TreeVariant.copyFile "stage/asset" "stage/./asset" twoVolumes
               = (Ok tt, snd (TreeVariant.copyFile "stage/asset" "stage/./asset" twoVolumes)))
    by (vm_compute; reflexivity).
  split; [exact H1|]. split; (split; [assumption|]).
  - exact (copyFile_changes_only_the_destination _ _ _ _ _ H1 H2).
  - exact (copyFile_changes_only_the_destination _ _ _ _ _ H1 H3).
Defined.
(** ** Its extractor *)

Section TreeExtractor.

Variable Typeflag : tar_entry -> byte.
Variable destDir : string.

Lemma ignoresOutput_fail {A} e : ignoresOutput (@fail A e).
Proof. intros w v H. now split. Qed.

Lemma ignoresOutput_CopyEntry dst body broken : ignoresOutput (io.CopyEntry dst body broken).
Proof.
  intros [n vo en s c] [n' vo' en' s' c'] (H1 & H2 & H3 & H4). simpl in *. subst.
  unfold io.CopyEntry. simpl. destruct broken; now repeat split.
Qed.

Lemma ignoresOutput_extractEntry header broken :
  ignoresOutput (TreeVariant.extractEntry Typeflag destDir header broken).
Proof.
  unfold TreeVariant.extractEntry.
  destruct (Byte.eqb (Typeflag header) tar.TypeDir); [apply ignoresOutput_ret|].
  destruct (Byte.eqb (Typeflag header) tar.TypeReg); [|apply ignoresOutput_Printf].
  apply ignoresOutput_bind; [apply ignoresOutput_wrap, ignoresOutput_MkdirAll | intros _].
  apply ignoresOutput_bind; [apply ignoresOutput_wrap, ignoresOutput_Create | intros out].
  apply ignoresOutput_wrap, ignoresOutput_defer, ignoresOutput_CopyEntry.
Qed.

(** An entry that is not a regular file: nothing but, for an unsupported
    type, a printed line. *)
Lemma extractEntry_not_regular header broken w :
  regularEntry Typeflag header = false ->
  fst (TreeVariant.extractEntry Typeflag destDir header broken w) = Ok tt
  /\ sameButOutput (snd (TreeVariant.extractEntry Typeflag destDir header broken w)) w.
Proof.
  unfold regularEntry, TreeVariant.extractEntry. intros ->.
  destruct (Byte.eqb (Typeflag header) tar.TypeDir); simpl; split;
    try reflexivity;
    first [apply sameButOutput_refl | apply sameButOutput_printed_l, sameButOutput_refl].
Qed.

Lemma sameButOutput_trans w1 w2 w3 :
  sameButOutput w1 w2 -> sameButOutput w2 w3 -> sameButOutput w1 w3.
Proof.
  intros (A1 & A2 & A3 & A4) (B1 & B2 & B3 & B4). repeat split; congruence.
Qed.

Lemma extractEntries_regular_only entries fin : forall w v,
  sameButOutput w v ->
  fst (TreeVariant.extractEntries Typeflag destDir entries fin w)
  = fst (TreeVariant.extractEntries Typeflag destDir
           (List.filter (regularEntry Typeflag) entries) fin v)
  /\ sameButOutput
       (snd (TreeVariant.extractEntries Typeflag destDir entries fin w))
       (snd (TreeVariant.extractEntries Typeflag destDir
               (List.filter (regularEntry Typeflag) entries) fin v)).
Proof.
  induction entries as [|header entries IH]; intros w v Hwv.
  - simpl. destruct fin as [|cause [pending|]].
    + now split.
    + apply (ignoresOutput_bind _ (fun _ => fail _)); trivial.
      * apply ignoresOutput_extractEntry.
      * intros _. apply ignoresOutput_fail.
    + now split.
  - simpl. destruct (regularEntry Typeflag header) eqn:Er.
    + simpl. unfold bind.
      destruct (ignoresOutput_extractEntry header None w v Hwv) as [Hf Hs].
      destruct (TreeVariant.extractEntry Typeflag destDir header None w) as [[[]|e] w1],
               (TreeVariant.extractEntry Typeflag destDir header None v) as [[[]|e'] v1];
        simpl in *; try discriminate.
      * now apply IH.
      * now split.
    + unfold bind.
      destruct (extractEntry_not_regular header None w Er) as [Hf Hs].
      destruct (TreeVariant.extractEntry Typeflag destDir header None w) as [[[]|e] w1];
        simpl in *; [|discriminate].
      apply IH. eapply sameButOutput_trans; eassumption.
Qed.

(** A successful iteration on a regular entry leaves the entry's bytes at
    its target path. *)
Lemma tree_extractEntry_writes header w w' l :
  TreeVariant.extractEntry Typeflag destDir header None w = (Ok tt, w') ->
  writtenAt Typeflag destDir header = Some l ->
  os.stat (nodes w') l = Some (File (Plain (Body header))).
Proof.
  unfold writtenAt, regularEntry, TreeVariant.extractEntry.
  destruct (Byte.eqb (Typeflag header) tar.TypeReg) eqn:Er; [|discriminate].
  assert (Hd : Byte.eqb (Typeflag header) tar.TypeDir = false).
  { apply Byte.byte_dec_bl in Er. now rewrite Er. }
  rewrite Hd. unfold bind, wrap, defer, io.CopyEntry, os.Close.
  set (targetPath := filepath.Join [destDir; Name header]).
  destruct (os.MkdirAll _ w) as [[[]|e] w1]; [|discriminate].
  destruct (os.Create _ w1) as [[g|e] w2] eqn:Ec; [|discriminate].
  apply Create_Ok in Ec as (-> & _ & Hi & _).
  cbn zeta. intros H Hl. inversion Hl; subst l. inversion H; subst.
  cbn [nodes called with_nodes]. unfold os.stat. rewrite Hi. apply lookup_insert_eq.
Qed.

(** A successful iteration leaves every regular file it does not write as
    it was. *)
Lemma tree_extractEntry_keeps header broken w w' l c :
  TreeVariant.extractEntry Typeflag destDir header broken w = (Ok tt, w') ->
  writtenAt Typeflag destDir header <> Some l ->
  os.stat (nodes w) l = Some (File c) ->
  os.stat (nodes w') l = Some (File c).
Proof.
  unfold writtenAt, regularEntry, TreeVariant.extractEntry.
  destruct (Byte.eqb (Typeflag header) tar.TypeDir).
  { unfold ret. intros H; now inversion H. }
  destruct (Byte.eqb (Typeflag header) tar.TypeReg).
  - unfold bind, wrap, defer, io.CopyEntry, os.Close.
    set (targetPath := filepath.Join [destDir; Name header]).
    destruct (os.MkdirAll _ w) as [[[]|e] w1] eqn:Em; [|discriminate].
    apply MkdirAll_Ok in Em as (Hd & _).
    destruct (os.Create _ w1) as [[g|e] w2] eqn:Ec; [|discriminate].
    apply Create_Ok in Ec as (-> & _ & Hi & _ & Hn2 & _).
    cbn zeta. intros H Hne Hc.
    assert (Hl : l <> filepath.resolve targetPath) by congruence.
    apply (onlyNewDirs_stat _ _ _ _ Hd) in Hc.
    destruct broken; [discriminate|]. inversion H; subst.
    cbn [nodes called with_nodes]. rewrite Hn2, !stat_insert_ne by exact Hl. exact Hc.
  - unfold fmt.Printf. intros H; now inversion H.
Qed.

Lemma tree_extractEntries_keep entries : forall fin w w' l c,
  TreeVariant.extractEntries Typeflag destDir entries fin w = (Ok tt, w') ->
  Forall (fun later => writtenAt Typeflag destDir later <> Some l) entries ->
  os.stat (nodes w) l = Some (File c) ->
  os.stat (nodes w') l = Some (File c).
Proof.
  induction entries as [|header entries IH]; intros fin w w' l c; simpl.
  - destruct fin as [|cause [pending|]].
    + unfold ret. intros H; now inversion H.
    + unfold bind, fail.
      destruct (TreeVariant.extractEntry Typeflag destDir pending (Some cause) w)
        as [[[]|e] w1]; discriminate.
    + discriminate.
  - unfold bind.
    destruct (TreeVariant.extractEntry Typeflag destDir header None w) as [[[]|e] w1] eqn:E;
      [|discriminate].
    intros H Hall Hc. inversion Hall as [|? ? Hh Hrest]; subst.
    eapply IH; [exact H | exact Hrest|].
    eapply tree_extractEntry_keeps; eassumption.
Qed.

Lemma tree_extractEntries_write before header after : forall fin w w' l,
  TreeVariant.extractEntries Typeflag destDir (before ++ header :: after) fin w = (Ok tt, w') ->
  writtenAt Typeflag destDir header = Some l ->
  Forall (fun later => writtenAt Typeflag destDir later <> Some l) after ->
  os.stat (nodes w') l = Some (File (Plain (Body header))).
Proof.
  induction before as [|first before IH]; intros fin w w' l; simpl; unfold bind.
  - destruct (TreeVariant.extractEntry Typeflag destDir header None w) as [[[]|e] w1] eqn:E;
      [|discriminate].
    intros H Hl Hall. eapply tree_extractEntries_keep; [exact H | exact Hall|].
    eapply tree_extractEntry_writes; eassumption.
  - destruct (TreeVariant.extractEntry Typeflag destDir first None w) as [[[]|e] w1] eqn:E;
      [|discriminate].
    apply IH.
Qed.

End TreeExtractor.

(** X11. The directory-walking extractor writes the regular-file entries
    and nothing else: the outcome, the file tree and the system calls of the
    extraction of an archive are those of the extraction of its regular-file
    entries alone.  A directory entry creates no directory; an entry of
    another type only has a line printed. *)
Theorem only_regular_entries_are_extracted Typeflag destDir entries fin w :
  fst (TreeVariant.extractEntries Typeflag destDir entries fin w)
  = fst (TreeVariant.extractEntries Typeflag destDir
           (List.filter (regularEntry Typeflag) entries) fin w)
  /\ sameButOutput
       (snd (TreeVariant.extractEntries Typeflag destDir entries fin w))
       (snd (TreeVariant.extractEntries Typeflag destDir
               (List.filter (regularEntry Typeflag) entries) fin w))
  /\ (forall header broken,
         Typeflag header = tar.TypeDir ->
         TreeVariant.extractEntry Typeflag destDir header broken w = (Ok tt, w))
  /\ (forall header broken,
         Typeflag header <> tar.TypeDir -> Typeflag header <> tar.TypeReg ->
         TreeVariant.extractEntry Typeflag destDir header broken w
         = (Ok tt, printed ("Skipping unsupported file type for " +:+ Name header +:+ nl) w)).
Proof.
  destruct (extractEntries_regular_only Typeflag destDir entries fin w w
              (sameButOutput_refl w)) as [H1 H2].
  split; [exact H1|]. split; [exact H2|]. split.
  - intros header broken Hd. unfold TreeVariant.extractEntry. now rewrite Hd.
  - intros header broken Hd Hr. unfold TreeVariant.extractEntry.
    destruct (Byte.eqb (Typeflag header) tar.TypeDir) eqn:Ed.
    { apply Byte.byte_dec_bl in Ed. congruence. }
    destruct (Byte.eqb (Typeflag header) tar.TypeReg) eqn:Er.
    { apply Byte.byte_dec_bl in Er. congruence. }
    reflexivity.
Qed.

(** X11 at a concrete input: an archive of symbolic links. *)
Lemma only_regular_entries_are_extracted_witness :
  let w := worldWithTmp "Wood.unitypackage" unityEntries EndOfArchive in
  List.filter (regularEntry flagLinks) unityEntries = []
  /\ fst (TreeVariant.extractEntries flagLinks "/tmp" unityEntries EndOfArchive w) = Ok tt
  /\ nodes (snd (TreeVariant.extractEntries flagLinks "/tmp" unityEntries EndOfArchive w))
     = nodes w
  /\ flagLinks (TarEntry "abc123/" []) = tar.TypeDir
  /\ TreeVariant.extractEntry flagLinks "/tmp" (TarEntry "abc123/" []) None w = (Ok tt, w).
Proof.
  intros w.
  destruct (only_regular_entries_are_extracted flagLinks "/tmp" unityEntries EndOfArchive w)
    as (H1 & H2 & H3 & _).
  split; [reflexivity|]. split; [exact H1|]. split; [apply H2|].
  split; [reflexivity|]. now apply H3.
Defined.

(** X12. After a successful extraction by the directory-walking variant,
    the file written for a regular entry holds exactly the bytes of that
    entry, unless a later regular entry of the archive is written to the same
    path. *)
Theorem extracted_file_holds_the_bytes_of_its_last_entry
    Typeflag srcFile destDir before header after fin w w' l :
  os.stat (nodes w) (filepath.resolve srcFile)
  = Some (File (Package (before ++ header :: after) fin)) ->
  writtenAt Typeflag destDir header = Some l ->
  Forall (fun later => writtenAt Typeflag destDir later <> Some l) after ->
  TreeVariant.extractTarGz Typeflag srcFile destDir w = (Ok tt, w') ->
  os.stat (nodes w') l = Some (File (Plain (Body header))).
Proof.
  intros Hsrc Hl Hall.
  unfold TreeVariant.extractTarGz, bind, wrap, defer, os.Close.
  destruct (os.Open srcFile w) as [[file|e] w1] eqn:Eo; [|discriminate].
  destruct (gzip.NewReader file w1) as [[tarReader|e] w2] eqn:Eg; [|discriminate].
  destruct (TreeVariant.extractEntries Typeflag destDir tarReader.1 tarReader.2 w2)
    as [[[]|e] w3] eqn:Ee; [|discriminate].
  intros H; inversion H; subst w'. cbn [nodes called].
  apply Open_Ok in Eo as (-> & _ & Hn1 & _).
  unfold gzip.NewReader in Eg. rewrite Hn1, Hsrc in Eg.
  inversion Eg; subst tarReader w2. cbn [fst snd] in Ee.
  eapply tree_extractEntries_write; eassumption.
Qed.

(** X12 at a concrete input: an archive as Unity writes it. *)
Lemma extracted_file_holds_the_bytes_of_its_last_entry_witness :
  let w := worldWithTmp "Wood.unitypackage" unityEntries EndOfArchive in
  let run := TreeVariant.extractTarGz flagByName "Wood.unitypackage" "/tmp" w in
  run = (Ok tt, snd run)
  /\ os.stat (nodes (snd run)) (filepath.resolve "/tmp/abc123/asset.meta")
     = Some (File (Plain bytes10to19)).
Proof.
  assert (H1 : os.stat (nodes (worldWithTmp "Wood.unitypackage" unityEntries EndOfArchive))
                       (filepath.resolve "Wood.unitypackage")
               = Some (File (Package
                   ([TarEntry "abc123/" []; TarEntry "abc123/asset" bytes0to9]
                    ++ TarEntry "abc123/asset.meta" bytes10to19
                    :: [TarEntry "abc123/pathname" (list_byte_of_string "Materials/Wood.mat");
                        TarEntry ".icon.png" bytes0to9]) EndOfArchive))) by reflexivity.
  assert (H2 : writtenAt flagByName "/tmp" (TarEntry "abc123/asset.meta" bytes10to19)
               = Some (filepath.resolve "/tmp/abc123/asset.meta")) by reflexivity.
  assert (H3 : Forall (fun later => writtenAt flagByName "/tmp" later
                                    <> Some (filepath.resolve "/tmp/abc123/asset.meta"))
                      [TarEntry "abc123/pathname" (list_byte_of_string "Materials/Wood.mat");
                       TarEntry ".icon.png" bytes0to9])
    by (repeat constructor; vm_compute; discriminate).
  assert (H4 : TreeVariant.extractTarGz flagByName "Wood.unitypackage" "/tmp"
                 (worldWithTmp "Wood.unitypackage" unityEntries EndOfArchive)
               = (Ok tt, snd (TreeVariant.extractTarGz flagByName "Wood.unitypackage" "/tmp"
                                (worldWithTmp "Wood.unitypackage" unityEntries EndOfArchive))))
    by (vm_compute; reflexivity).
  split; [exact H4|].
  exact (extracted_file_holds_the_bytes_of_its_last_entry _ _ _ _ _ _ _ _ _ _ H1 H2 H3 H4).
Defined.
(** ** Its reconstructor *)

Section TreeReconstructor.

Import filepath.

Variable raw : list tar_entry -> stream_end -> list byte.
Variables outputDir targetDir : string.

Lemma ReadFile_missing path w :
  os.stat (nodes w) (resolve path) = None ->
  exists e, os.ReadFile raw path w = (Err (PathError "open" path e), w).
Proof.
  intros H. unfold os.ReadFile. destruct (String.eqb path ""); [eauto|].
  rewrite H. eauto.
Qed.

Lemma ReadFile_plain path w data :
  os.stat (nodes w) (resolve path) = Some (File (Plain data)) ->
  os.ReadFile raw path w = (Ok data, w).
Proof.
  intros H. unfold os.ReadFile.
  destruct (String.eqb path "") eqn:E; [|now rewrite H].
  apply String.eqb_eq in E. subst path. unfold os.stat in H. simpl in H. discriminate.
Qed.

Lemma Stat_found path w n :
  os.stat (nodes w) (resolve path) = Some n ->
  n <> Directory ->
  os.Stat path w = (Ok n, w).
Proof.
  intros H Hn. unfold os.Stat.
  destruct (String.eqb path "") eqn:E; [|now rewrite H].
  apply String.eqb_eq in E. subst path. unfold os.stat in H. simpl in H. congruence.
Qed.

Lemma Remove_file path w c :
  os.stat (nodes w) (resolve path) = Some (File c) ->
  os.Remove path w = (Ok tt, with_nodes (delete (resolve path) (nodes w)) w).
Proof.
  intros H. unfold os.Remove.
  destruct (String.eqb path "") eqn:E; [|cbn zeta; now rewrite H].
  apply String.eqb_eq in E. subst path. unfold os.stat in H. simpl in H. discriminate.
Qed.

End TreeReconstructor.

(** X13. In the directory-walking variant a staged directory without a
    [pathname] file is fatal to the reconstruction: the pass ends there with
    the error of the read, the file tree as it was and the entries after it
    untouched. *)
Theorem staged_directory_without_pathname_is_fatal raw outputDir targetDir entry rest w :
  os.IsDir entry = true ->
  os.stat (nodes w) (filepath.resolve (filepath.Join [outputDir; os.Name entry; "pathname"]))
  = None ->
  exists e,
    TreeVariant.reconstructEntries raw outputDir targetDir (entry :: rest) w
    = (Err (Errorf ("failed to read metadata file "
                    +:+ filepath.Join [outputDir; os.Name entry; "pathname"])
                   (PathError "open" (filepath.Join [outputDir; os.Name entry; "pathname"]) e)),
       w).
Proof.
  intros Hd Hnone. simpl. unfold TreeVariant.reconstructEntry, bind, wrap. rewrite Hd.
  set (metadataPath := filepath.Join [outputDir; os.Name entry; "pathname"]) in *.
  destruct (ReadFile_missing raw metadataPath w Hnone) as [e ->]. now exists e.
Qed.

(** X13 at a concrete input: the staged directory [nopath] holds a payload
    and no [pathname] file. *)
Lemma staged_directory_without_pathname_is_fatal_witness :
  os.stat (nodes stagedGroupWorld)
          (filepath.resolve (filepath.Join ["/tmp/stage"; "nopath"; "pathname"])) = None
  /\ TreeVariant.reconstructEntries noBytes "/tmp/stage" "out"
       [os.mkDirEntry "nopath" true; os.mkDirEntry "abc123" true] stagedGroupWorld
     = (Err (Errorf "failed to read metadata file /tmp/stage/nopath/pathname"
               (PathError "open" "/tmp/stage/nopath/pathname" ENOENT)), stagedGroupWorld).
Proof.
  assert (H : os.stat (nodes stagedGroupWorld)
                (filepath.resolve (filepath.Join ["/tmp/stage"; "nopath"; "pathname"])) = None)
    by (vm_compute; reflexivity).
  split; [exact H|].
  destruct (staged_directory_without_pathname_is_fatal noBytes "/tmp/stage" "out"
              (os.mkDirEntry "nopath" true) [os.mkDirEntry "abc123" true] stagedGroupWorld
              eq_refl H) as [e He].
  rewrite He. vm_compute in He. now inversion He.
Defined.

(** X14. For a staged directory that holds a [pathname] and an [asset]
    file, an iteration of the reconstruction that succeeds has copied the
    payload to the path that the text of [pathname] names below the target
    directory and has removed the staged payload; every other path is as it
    was, apart from directories created on the way: a staged [asset.meta] is
    never relocated. *)
Theorem staged_payload_is_copied_then_removed raw outputDir targetDir entry w w' p c :
  os.IsDir entry = true ->
  os.stat (nodes w) (filepath.resolve (filepath.Join [outputDir; os.Name entry; "pathname"]))
  = Some (File (Plain p)) ->
  os.stat (nodes w) (filepath.resolve (filepath.Join [outputDir; os.Name entry; "asset"]))
  = Some (File c) ->
  filepath.resolve (filepath.Join [outputDir; os.Name entry; "asset"])
  <> filepath.resolve (filepath.Join [targetDir; string_of_list_byte p]) ->
  TreeVariant.reconstructEntry raw outputDir targetDir entry w = (Ok tt, w') ->
  os.stat (nodes w') (filepath.resolve (filepath.Join [targetDir; string_of_list_byte p]))
  = Some (File c)
  /\ os.stat (nodes w') (filepath.resolve (filepath.Join [outputDir; os.Name entry; "asset"]))
     = None
  /\ onlyNewDirsBut [ filepath.resolve (filepath.Join [outputDir; os.Name entry; "asset"]);
                      filepath.resolve (filepath.Join [targetDir; string_of_list_byte p]) ]
                    (nodes w) (nodes w').
Proof.
  intros Hd Hp Hc Hne. unfold TreeVariant.reconstructEntry, bind, wrap. rewrite Hd.
  set (metadataPath := filepath.Join [outputDir; os.Name entry; "pathname"]) in *.
  set (sourcePath := filepath.Join [outputDir; os.Name entry; "asset"]) in *.
  rewrite (ReadFile_plain raw metadataPath w p Hp).
  set (newTargetPath := filepath.Join [targetDir; string_of_list_byte p]) in *.
  destruct (os.MkdirAll (filepath.Dir newTargetPath) w) as [[[]|e] w1] eqn:Em; [|discriminate].
  apply MkdirAll_Ok in Em as (Hdirs & _).
  pose proof (onlyNewDirs_stat _ _ _ _ Hdirs Hc) as Hc1.
  rewrite (Stat_found sourcePath w1 (File c) Hc1) by discriminate.
  destruct (TreeVariant.copyFile sourcePath newTargetPath w1) as [[[]|e] w2] eqn:Ecp;
    [|discriminate].
  destruct (copyFile_nodes _ _ _ _ _ Hc1 Ecp) as [Hn2 Hi].
  rewrite bool_decide_eq_false_2 in Hn2 by exact Hne.
  assert (Hc2 : os.stat (nodes w2) (filepath.resolve sourcePath) = Some (File c)).
  { rewrite Hn2, stat_insert_ne by exact Hne. exact Hc1. }
  rewrite (Remove_file sourcePath w2 c Hc2).
  intros H; inversion H; subst w'. clear H. cbn [nodes with_nodes].
  assert (His : os.implicit_dir (filepath.resolve sourcePath) = false).
  { apply (stat_not_Directory (nodes w)). congruence. }
  split; [|split].
  - unfold os.stat. rewrite Hi, lookup_delete_ne by congruence.
    rewrite Hn2. apply lookup_insert_eq.
  - unfold os.stat. rewrite His. apply lookup_delete_eq.
  - intros l Hl. rewrite lookup_delete_ne by (intros <-; apply Hl; simpl; tauto).
    rewrite Hn2, lookup_insert_ne by (intros <-; apply Hl; simpl; tauto).
    apply Hdirs.
Qed.

(** X14 at a concrete input: the staged group [abc123]; its sidecar stays
    where it was staged. *)
Lemma staged_payload_is_copied_then_removed_witness :
  let run := TreeVariant.reconstructEntry noBytes "/tmp/stage" "out"
               (os.mkDirEntry "abc123" true) stagedGroupWorld in
  run = (Ok tt, snd run)
  /\ os.stat (nodes (snd run)) (filepath.resolve "out/Materials/Wood.mat")
     = Some (File (Plain bytes0to9))
  /\ os.stat (nodes (snd run)) (filepath.resolve "/tmp/stage/abc123/asset") = None
  /\ os.stat (nodes (snd run)) (filepath.resolve "/tmp/stage/abc123/asset.meta")
     = Some (File (Plain bytes10to19))
  /\ os.stat (nodes (snd run)) (filepath.resolve "out/Materials/Wood.mat.meta") = None.
Proof.
  assert (H1 : os.stat (nodes stagedGroupWorld)
                 (filepath.resolve (filepath.Join ["/tmp/stage"; "abc123"; "pathname"]))
               = Some (File (Plain (list_byte_of_string "Materials/Wood.mat"))))
    by reflexivity.
  assert (H2 : os.stat (nodes stagedGroupWorld)
                 (filepath.resolve (filepath.Join ["/tmp/stage"; "abc123"; "asset"]))
               = Some (File (Plain bytes0to9))) by reflexivity.
  assert (H3 : filepath.resolve (filepath.Join ["/tmp/stage"; "abc123"; "asset"])
               <> filepath.resolve
                    (filepath.Join ["out"; string_of_list_byte
                                             (list_byte_of_string "Materials/Wood.mat")]))
    by (vm_compute; discriminate).
  assert (H4 : TreeVariant.reconstructEntry noBytes "/tmp/stage" "out"
                 (os.mkDirEntry "abc123" true) stagedGroupWorld
               = (Ok tt, snd (TreeVariant.reconstructEntry noBytes "/tmp/stage" "out"
                                (os.mkDirEntry "abc123" true) stagedGroupWorld)))
    by (vm_compute; reflexivity).
  destruct (staged_payload_is_copied_then_removed noBytes "/tmp/stage" "out"
              (os.mkDirEntry "abc123" true) stagedGroupWorld _ _ _ eq_refl H1 H2 H3 H4)
    as (E1 & E2 & _).
  split; [exact H4|]. split; [exact E1|]. split; [exact E2|].
  split; vm_compute; reflexivity.
Defined.
(** ** Its staging directory *)

Section TreeStaging.

Import filepath.

Variable Typeflag : tar_entry -> byte.
Variable raw : list tar_entry -> stream_end -> list byte.

Lemma keepsDirs_refl w : keepsDirs w w.
Proof. now intros l. Qed.

Lemma keepsDirs_trans w1 w2 w3 : keepsDirs w1 w2 -> keepsDirs w2 w3 -> keepsDirs w1 w3.
Proof. intros H12 H23 l Hl. now apply H23, H12. Qed.

Lemma keepsDirs_same w w' : nodes w' = nodes w -> keepsDirs w w'.
Proof. intros H l. now rewrite H. Qed.

Lemma keepsDirs_via w w1 w2 w' :
  nodes w1 = nodes w -> keepsDirs w1 w2 -> nodes w' = nodes w2 -> keepsDirs w w'.
Proof. intros H1 H H2 l Hl. rewrite H2. apply H. now rewrite H1. Qed.

Lemma keepsDirs_onlyNewDirs w w' : onlyNewDirs (nodes w) (nodes w') -> keepsDirs w w'.
Proof. intros H l Hl. destruct (H l) as [E|[E _]]; congruence. Qed.

(** Writing a file where there is no directory. *)
Lemma keepsDirs_insert w w' l c :
  nodes w !! l <> Some Directory -> nodes w' = <[l := File c]> (nodes w) -> keepsDirs w w'.
Proof.
  intros Hl Hn k Hk. rewrite Hn, lookup_insert_ne; [exact Hk | congruence].
Qed.

Lemma leavesDirs_bind {A B} (m : IO A) (k : A -> IO B) :
  leavesDirs m -> (forall a, leavesDirs (k a)) -> leavesDirs (bind m k).
Proof.
  intros Hm Hk w. unfold bind. specialize (Hm w).
  destruct (m w) as [[a|e] w1]; simpl in *; [|exact Hm].
  eapply keepsDirs_trans; [exact Hm | apply Hk].
Qed.

Lemma leavesDirs_wrap {A} msg (m : IO A) : leavesDirs m -> leavesDirs (wrap msg m).
Proof.
  intros Hm w. unfold wrap. specialize (Hm w). now destruct (m w) as [[a|e] w1].
Qed.

Lemma leavesDirs_MkdirAll path : leavesDirs (os.MkdirAll path).
Proof.
  intros w. destruct (os.MkdirAll path w) as [[[]|e] w1] eqn:E; simpl.
  - apply MkdirAll_Ok in E as (Hd & _). now apply keepsDirs_onlyNewDirs.
  - apply MkdirAll_Err in E as (Hn & _). now apply keepsDirs_same.
Qed.

Lemma Create_keepsDirs path w :
  keepsDirs w (snd (os.Create path w))
  /\ forall f w', os.Create path w = (Ok f, w') ->
       f = path /\ exists c, nodes w' !! resolve path = Some (File c).
Proof.
  destruct (os.Create path w) as [[f|e] w1] eqn:E; simpl.
  - pose proof (Create_not_at_directory _ _ _ _ E) as Hnd.
    apply Create_Ok in E as (-> & _ & Hi & _ & Hn & _). split.
    + eapply keepsDirs_insert; [|exact Hn]. unfold os.stat in Hnd. now rewrite Hi in Hnd.
    + intros f w' H. inversion H; subst. split; [reflexivity|].
      eexists. rewrite Hn. apply lookup_insert_eq.
  - apply Create_Err in E as (Hn & _). split; [now apply keepsDirs_same | discriminate].
Qed.

Lemma leavesDirs_extractEntry destDir header broken :
  leavesDirs (TreeVariant.extractEntry Typeflag destDir header broken).
Proof.
  intros w. unfold TreeVariant.extractEntry.
  destruct (Byte.eqb (Typeflag header) tar.TypeDir); [apply keepsDirs_refl|].
  destruct (Byte.eqb (Typeflag header) tar.TypeReg); [|now apply keepsDirs_same].
  set (targetPath := Join [destDir; Name header]).
  unfold bind, wrap, defer, io.CopyEntry, os.Close.
  pose proof (leavesDirs_MkdirAll (Dir targetPath) w) as H1.
  destruct (os.MkdirAll (Dir targetPath) w) as [[[]|e] w1]; simpl in H1; [|exact H1].
  destruct (Create_keepsDirs targetPath w1) as [H2 H3].
  destruct (os.Create targetPath w1) as [[f|e] w2]; simpl in H2.
  2: { eapply keepsDirs_trans; eassumption. }
  destruct (H3 f w2 eq_refl) as (-> & c & Hc).
  assert (H4 : keepsDirs w2 (with_nodes (<[resolve targetPath := File (Plain (Body header))]>
                                           (nodes (called (CallCopy targetPath) w2)))
                                        (called (CallCopy targetPath) w2))).
  { eapply keepsDirs_insert; [|reflexivity]. cbn [nodes called]. congruence. }
  cbn zeta.
  destruct broken; simpl; (eapply keepsDirs_trans; [exact H1|]);
    (eapply keepsDirs_trans; [exact H2|]); exact H4.
Qed.

Lemma leavesDirs_extractEntries destDir entries fin :
  leavesDirs (TreeVariant.extractEntries Typeflag destDir entries fin).
Proof.
  induction entries as [|header entries IH]; simpl.
  - destruct fin as [|cause [pending|]]; try (intros w; apply keepsDirs_refl).
    apply leavesDirs_bind; [apply leavesDirs_extractEntry|].
    intros _ w. apply keepsDirs_refl.
  - apply leavesDirs_bind; [apply leavesDirs_extractEntry | intros _; exact IH].
Qed.

Lemma leavesDirs_extractTarGz srcFile destDir :
  leavesDirs (TreeVariant.extractTarGz Typeflag srcFile destDir).
Proof.
  intros w. unfold TreeVariant.extractTarGz, bind, wrap, defer, os.Close.
  destruct (os.Open srcFile w) as [[file|e] w1] eqn:Eo.
  - apply Open_Ok in Eo as (_ & _ & Hn1 & _).
    unfold gzip.NewReader.
    destruct (os.stat (nodes w1) (resolve file)) as [[|[data|entries fin]]|];
      try (now apply keepsDirs_same).
    cbn [fst snd].
    pose proof (leavesDirs_extractEntries destDir entries fin w1) as H.
    destruct (TreeVariant.extractEntries Typeflag destDir entries fin w1) as [r w2].
    simpl in *. intros l Hl. cbn [nodes called]. apply H. now rewrite Hn1.
  - apply Open_Err in Eo as (Hn1 & _). now apply keepsDirs_same.
Qed.

Lemma copyFile_keepsDirs source destination w :
  keepsDirs w (snd (TreeVariant.copyFile source destination w))
  /\ (fst (TreeVariant.copyFile source destination w) = Ok tt ->
      exists c, os.stat (nodes (snd (TreeVariant.copyFile source destination w)))
                        (resolve source) = Some (File c)).
Proof.
  unfold TreeVariant.copyFile, bind, wrap, defer, ret, os.Sync, os.Close.
  destruct (os.Open source w) as [[f|e] w1] eqn:Eo.
  2: { apply Open_Err in Eo as (Hn1 & _). split; [now apply keepsDirs_same | discriminate]. }
  apply Open_Ok in Eo as (-> & _ & Hn1 & _).
  destruct (Create_keepsDirs destination w1) as [H2 H3].
  destruct (os.Create destination w1) as [[g|e] w2]; simpl in H2.
  2: { split; [|discriminate]. simpl.
       eapply keepsDirs_via; [exact Hn1 | exact H2 | reflexivity]. }
  destruct (H3 g w2 eq_refl) as (-> & c0 & Hc0).
  destruct (io.Copy destination source w2) as [[[]|e] w3] eqn:Ey.
  - pose proof Ey as Ey'. apply Copy_file in Ey' as (c & Hread & Hn3).
    assert (H4 : keepsDirs w2 w3) by (eapply keepsDirs_insert; [|exact Hn3]; congruence).
    simpl. split.
    + eapply keepsDirs_via; [exact Hn1 | | reflexivity].
      eapply keepsDirs_trans; eassumption.
    + intros _. exists c. cbn [nodes called]. rewrite Hn3.
      destruct (decide (resolve source = resolve destination)) as [Heq|Hne].
      * rewrite Heq in *. unfold os.stat in *.
        destruct (os.implicit_dir (resolve destination)); [congruence|].
        rewrite lookup_insert_eq. rewrite Hc0 in Hread. congruence.
      * now rewrite stat_insert_ne.
  - split; [|discriminate]. simpl.
    assert (H4 : keepsDirs w2 w3).
    { unfold io.Copy in Ey. cbn zeta in Ey. cbn [nodes called] in Ey.
      destruct (os.stat (nodes w2) (resolve source)) as [[|c]|];
        inversion Ey; now apply keepsDirs_same. }
    eapply keepsDirs_via; [exact Hn1 | | reflexivity].
    eapply keepsDirs_trans; eassumption.
Qed.

Lemma leavesDirs_reconstructEntry outputDir targetDir entry :
  leavesDirs (TreeVariant.reconstructEntry raw outputDir targetDir entry).
Proof.
  intros w. unfold TreeVariant.reconstructEntry.
  destruct (os.IsDir entry); [|apply keepsDirs_refl].
  set (metadataPath := Join [outputDir; os.Name entry; "pathname"]).
  set (sourcePath := Join [outputDir; os.Name entry; "asset"]).
  unfold bind, wrap.
  assert (Hread : snd (os.ReadFile raw metadataPath w) = w).
  { unfold os.ReadFile. destruct (String.eqb metadataPath ""); [reflexivity|].
    now destruct (os.stat (nodes w) (resolve metadataPath)) as [[|[data|entries fin]]|]. }
  destruct (os.ReadFile raw metadataPath w) as [[content|e] w0]; simpl in Hread; subst w0;
    [|apply keepsDirs_refl].
  set (newTargetPath := Join [targetDir; string_of_list_byte content]).
  pose proof (leavesDirs_MkdirAll (Dir newTargetPath) w) as H1.
  destruct (os.MkdirAll (Dir newTargetPath) w) as [[[]|e] w1]; simpl in H1; [|exact H1].
  assert (Hstat : snd (os.Stat sourcePath w1) = w1).
  { unfold os.Stat. destruct (String.eqb sourcePath ""); [reflexivity|].
    now destruct (os.stat (nodes w1) (resolve sourcePath)). }
  destruct (os.Stat sourcePath w1) as [[n|e] w1']; simpl in Hstat; subst w1'.
  2: { destruct (negb (os.IsNotExist e)); exact H1. }
  destruct (copyFile_keepsDirs sourcePath newTargetPath w1) as [H2 H3].
  destruct (TreeVariant.copyFile sourcePath newTargetPath w1) as [[[]|e] w2]; simpl in *.
  2: { eapply keepsDirs_trans; eassumption. }
  destruct (H3 eq_refl) as [c Hc].
  pose proof (Remove_file sourcePath w2 c Hc) as Hrm. rewrite Hrm. simpl.
  eapply keepsDirs_trans; [exact H1|]. eapply keepsDirs_trans; [exact H2|].
  intros l Hl. cbn [nodes with_nodes]. rewrite lookup_delete_ne; [exact Hl|].
  intros <-. unfold os.stat in Hc.
  destruct (os.implicit_dir (resolve sourcePath)); congruence.
Qed.

Lemma leavesDirs_reconstructEntries outputDir targetDir entries :
  leavesDirs (TreeVariant.reconstructEntries raw outputDir targetDir entries).
Proof.
  induction entries as [|entry entries IH]; simpl; [intros w; apply keepsDirs_refl|].
  apply leavesDirs_bind; [apply leavesDirs_reconstructEntry | intros _; exact IH].
Qed.

Lemma ReadDir_world path w : snd (os.ReadDir path w) = w.
Proof.
  unfold os.ReadDir. destruct (String.eqb path ""); [reflexivity|].
  now destruct (os.stat (nodes w) (resolve path)) as [[|c]|].
Qed.

Lemma leavesDirs_reconstructStructure outputDir targetDir :
  leavesDirs (TreeVariant.reconstructStructure raw outputDir targetDir).
Proof.
  intros w. unfold TreeVariant.reconstructStructure, bind, wrap.
  pose proof (ReadDir_world outputDir w) as Hw.
  destruct (os.ReadDir outputDir w) as [[entries|e] w0]; simpl in Hw; subst w0;
    [apply leavesDirs_reconstructEntries | apply keepsDirs_refl].
Qed.

(** No call of the directory-walking variant before the deferred function
    attempts the removal of a tree. *)
Lemma neverRemoves_tree_extractTarGz srcFile destDir :
  neverRemoves (TreeVariant.extractTarGz Typeflag srcFile destDir).
Proof.
  unfold TreeVariant.extractTarGz.
  apply neverRemoves_bind; [apply neverRemoves_wrap, neverRemoves_Open | intros file].
  apply neverRemoves_defer.
  apply neverRemoves_bind; [apply neverRemoves_wrap, neverRemoves_NewReader | intros r].
  generalize (fst r) as entries. intros entries.
  induction entries as [|header entries IH]; simpl.
  - destruct (snd r) as [|cause [pending|]]; try apply neverRemoves_ret;
      [|apply neverRemoves_fail].
    apply neverRemoves_bind; [|intros _; apply neverRemoves_fail].
    unfold TreeVariant.extractEntry.
    destruct (Byte.eqb _ tar.TypeDir); [apply neverRemoves_ret|].
    destruct (Byte.eqb _ tar.TypeReg); [|apply neverRemoves_Printf].
    apply neverRemoves_bind; [apply neverRemoves_wrap, neverRemoves_MkdirAll | intros _].
    apply neverRemoves_bind; [apply neverRemoves_wrap, neverRemoves_Create | intros out].
    apply neverRemoves_wrap, neverRemoves_defer, neverRemoves_CopyEntry.
  - apply neverRemoves_bind; [|intros _; exact IH].
    unfold TreeVariant.extractEntry.
    destruct (Byte.eqb _ tar.TypeDir); [apply neverRemoves_ret|].
    destruct (Byte.eqb _ tar.TypeReg); [|apply neverRemoves_Printf].
    apply neverRemoves_bind; [apply neverRemoves_wrap, neverRemoves_MkdirAll | intros _].
    apply neverRemoves_bind; [apply neverRemoves_wrap, neverRemoves_Create | intros out].
    apply neverRemoves_wrap, neverRemoves_defer, neverRemoves_CopyEntry.
Qed.

Lemma neverRemoves_unlogged {A} (m : IO A) :
  (forall w, calls (snd (m w)) = calls w) -> neverRemoves m.
Proof. intros H w. exists []. rewrite H, app_nil_r. now split. Qed.

Lemma neverRemoves_copyFile source destination :
  neverRemoves (TreeVariant.copyFile source destination).
Proof.
  unfold TreeVariant.copyFile.
  apply neverRemoves_bind; [apply neverRemoves_wrap, neverRemoves_Open | intros f].
  apply neverRemoves_defer.
  apply neverRemoves_bind; [apply neverRemoves_wrap, neverRemoves_Create | intros g].
  apply neverRemoves_defer.
  apply neverRemoves_bind; [apply neverRemoves_wrap, neverRemoves_Copy | intros _].
  apply neverRemoves_bind; [|intros _; apply neverRemoves_ret].
  apply neverRemoves_wrap. intros w. exists [CallSync g]. now split.
Qed.

Lemma neverRemoves_reconstructEntry outputDir targetDir entry :
  neverRemoves (TreeVariant.reconstructEntry raw outputDir targetDir entry).
Proof.
  unfold TreeVariant.reconstructEntry.
  destruct (os.IsDir entry); [|apply neverRemoves_ret].
  apply neverRemoves_bind; [|intros content].
  { apply neverRemoves_wrap, neverRemoves_unlogged. intros w. unfold os.ReadFile.
    destruct (String.eqb _ ""); [reflexivity|].
    now destruct (os.stat _ _) as [[|[data|entries fin]]|]. }
  apply neverRemoves_bind; [apply neverRemoves_wrap, neverRemoves_MkdirAll | intros _].
  intros w. set (sourcePath := Join [outputDir; os.Name entry; "asset"]).
  assert (Hstat : snd (os.Stat sourcePath w) = w).
  { unfold os.Stat. destruct (String.eqb sourcePath ""); [reflexivity|].
    now destruct (os.stat (nodes w) (resolve sourcePath)). }
  destruct (os.Stat sourcePath w) as [[n|e] w']; simpl in Hstat; subst w'.
  - generalize w. apply neverRemoves_bind; [apply neverRemoves_wrap, neverRemoves_copyFile|].
    intros _. apply neverRemoves_wrap, neverRemoves_unlogged. intros w0. unfold os.Remove.
    destruct (String.eqb sourcePath ""); [reflexivity|]. cbn zeta.
    destruct (os.stat (nodes w0) (resolve sourcePath)) as [[|c]|]; try reflexivity.
    destruct (os.implicit_dir _); [reflexivity|]. now destruct (bool_decide _).
  - destruct (negb (os.IsNotExist e)); apply noRemoval_refl.
Qed.

Lemma neverRemoves_tree_reconstructStructure outputDir targetDir :
  neverRemoves (TreeVariant.reconstructStructure raw outputDir targetDir).
Proof.
  unfold TreeVariant.reconstructStructure.
  apply neverRemoves_bind.
  { apply neverRemoves_wrap, neverRemoves_unlogged. intros w. now rewrite ReadDir_world. }
  intros entries. induction entries as [|entry entries IH]; simpl; [apply neverRemoves_ret|].
  apply neverRemoves_bind; [apply neverRemoves_reconstructEntry | intros _; exact IH].
Qed.

Lemma MkdirTemp_made dir pattern w name w' :
  os.MkdirTemp dir pattern w = (Ok name, w') ->
  nodes w' !! resolve name = Some Directory.
Proof.
  unfold os.MkdirTemp. destruct (os.prefixAndSuffix pattern) as [p s].
  cbn [nodes entropy called].
  generalize (os.joinPath dir p). intros pre.
  generalize (default "" s). intros suf.
  generalize (entropy w) at 1. generalize (100 * 100). intros tries.
  induction tries as [|tries IH]; intros draws;
    unfold os.mkdir_temp; fold os.mkdir_temp; [discriminate|].
  destruct (os.mkdir (pre +:+ os.Uitoa (hd 0 draws) +:+ suf) (nodes w)) as [e|m] eqn:Em.
  - destruct e; try discriminate. apply IH.
  - intros H; inversion H; subst. cbn [nodes with_nodes with_entropy].
    unfold os.mkdir in Em. destruct (String.eqb _ ""); [discriminate|].
    cbn zeta in Em. destruct (os.stat (nodes w) (resolve _)); [discriminate|].
    destruct (os.stat (nodes w) (os.parent _)) as [[|c]|]; try discriminate.
    inversion Em. apply lookup_insert_eq.
Qed.

End TreeStaging.
(** X15. The directory-walking variant removes its staging directory only
    when the run succeeds.  Once the staging directory has been created, a
    run that ends with exit code 0 attempts the removal as its last system
    call; any other run ends with exit code 1 through [os.Exit], never
    attempts the removal, and leaves the staging directory behind. *)
Theorem tree_variant_removes_staging_only_on_success Typeflag raw args w w1 tempDir w2 :
  2 <= length args ->
  os.MkdirAll (outputDirOf args) w = (Ok tt, w1) ->
  os.MkdirTemp os.TempDir "unpack-unitypackage-*" w1 = (Ok tempDir, w2) ->
  let run := TreeVariant.main Typeflag raw args w in
  (fst run = 0 ->
   exists w3, noRemoval w w3 /\ calls (snd run) = calls w3 ++ [CallRemoveAll tempDir])
  /\ (fst run <> 0 ->
      fst run = 1
      /\ noRemoval w (snd run)
      /\ nodes (snd run) !! filepath.resolve tempDir = Some Directory).
Proof.
  intros Hargs Hmk Htmp. cbn zeta.
  unfold TreeVariant.main, TreeVariant.mainProc.
  assert (Hlen : (length args <? 2)%nat = false) by (apply Nat.ltb_ge; lia).
  rewrite Hlen.
  unfold TreeVariant.unpackSteps, deferMain, andThen, say, orExit.
  rewrite Hmk, Htmp.
  pose proof (neverRemoves_MkdirAll (outputDirOf args) w) as N1. rewrite Hmk in N1.
  pose proof (neverRemoves_MkdirTemp os.TempDir "unpack-unitypackage-*" w1) as N2.
  rewrite Htmp in N2. simpl in N1, N2.
  assert (N02 : noRemoval w w2) by (eapply noRemoval_trans; eassumption).
  pose proof (MkdirTemp_made _ _ _ _ _ Htmp) as Hdir.
  set (inputFile := nth 1 args "").
  pose proof (neverRemoves_tree_extractTarGz Typeflag inputFile tempDir w2) as N3.
  pose proof (leavesDirs_extractTarGz Typeflag inputFile tempDir w2) as K3.
  destruct (TreeVariant.extractTarGz Typeflag inputFile tempDir w2) as [[[]|e3] w3];
    simpl in N3, K3.
  2: { simpl. split; [discriminate|]. intros _. split; [reflexivity|]. split.
       - eapply noRemoval_trans; [exact N02|].
         eapply noRemoval_trans; [exact N3 | apply noRemoval_printed].
       - now apply K3. }
  pose proof (neverRemoves_tree_reconstructStructure raw tempDir (outputDirOf args) w3) as N4.
  pose proof (leavesDirs_reconstructStructure raw tempDir (outputDirOf args) w3) as K4.
  destruct (TreeVariant.reconstructStructure raw tempDir (outputDirOf args) w3)
    as [[[]|e4] w4]; simpl in N4, K4.
  2: { simpl. split; [discriminate|]. intros _. split; [reflexivity|]. split.
       - eapply noRemoval_trans; [exact N02|]. eapply noRemoval_trans; [exact N3|].
         eapply noRemoval_trans; [exact N4 | apply noRemoval_printed].
       - now apply K4, K3. }
  simpl. split; [|congruence]. intros _.
  exists (printed ("Successfully unpacked " +:+ inputFile +:+ " into "
                   +:+ outputDirOf args +:+ nl) w4).
  split.
  - eapply noRemoval_trans; [exact N02|]. eapply noRemoval_trans; [exact N3|].
    eapply noRemoval_trans; [exact N4 | apply noRemoval_printed].
  - unfold TreeVariant.removeTemp, os.RemoveAll.
    destruct (String.eqb tempDir ""); [reflexivity|].
    destruct (os.endsWithDot tempDir); reflexivity.
Qed.

(** X15 at concrete inputs: a package that is unpacked, and an input file
    that does not exist. *)
Lemma tree_variant_removes_staging_only_on_success_witness :
  let w := worldWithTmp "Wood.unitypackage" unityEntries EndOfArchive in
  let good := TreeVariant.main flagByName noBytes ["unpack"; "Wood.unitypackage"; "out"] w in
  let bad := TreeVariant.main flagByName noBytes ["unpack"; "Missing.unitypackage"; "out"] w in
  fst good = 0
  /\ os.stat (nodes (snd good)) (filepath.resolve "out/Materials/Wood.mat")
     = Some (File (Plain bytes0to9))
  /\ (exists w3, noRemoval w w3
                 /\ calls (snd good)
                    = calls w3 ++ [CallRemoveAll "/tmp/unpack-unitypackage-7"])
  /\ fst bad = 1
  /\ noRemoval w (snd bad)
  /\ nodes (snd bad) !! filepath.resolve "/tmp/unpack-unitypackage-7" = Some Directory.
Proof.
  intros w good bad.
  assert (H0 : 2 <= length ["unpack"; "Wood.unitypackage"; "out"]) by (simpl; lia).
  assert (H0' : 2 <= length ["unpack"; "Missing.unitypackage"; "out"]) by (simpl; lia).
  assert (H1 : os.MkdirAll "out" w = (Ok tt, snd (os.MkdirAll "out" w)))
    by (vm_compute; reflexivity).
  assert (H2 : os.MkdirTemp os.TempDir "unpack-unitypackage-*" (snd (os.MkdirAll "out" w))
               = (Ok "/tmp/unpack-unitypackage-7",
                  snd (os.MkdirTemp os.TempDir "unpack-unitypackage-*"
                         (snd (os.MkdirAll "out" w)))))
    by (vm_compute; reflexivity).
  destruct (tree_variant_removes_staging_only_on_success flagByName noBytes
              ["unpack"; "Wood.unitypackage"; "out"] w _ _ _ H0 H1 H2) as [G _].
  destruct (tree_variant_removes_staging_only_on_success flagByName noBytes
              ["unpack"; "Missing.unitypackage"; "out"] w _ _ _ H0' H1 H2) as [_ B].
  assert (Hg : fst good = 0) by (vm_compute; reflexivity).
  assert (Hb : fst bad <> 0) by (vm_compute; discriminate).
  split; [exact Hg|]. split; [vm_compute; reflexivity|].
  split; [exact (G Hg)|]. exact (B Hb).
Defined.

(** ** Unpacking into a fresh directory *)

Section TargetPaths.

Import filepath.

Lemma Join_Split (s : string) :
  strings.Join (strings.Split s Separator) "/" = s.
Proof.
  induction s as [|c s IH]; [reflexivity|]. simpl strings.Split.
  destruct (Ascii.eqb c Separator) eqn:Ec.
  - apply Ascii.eqb_eq in Ec. subst c.
    destruct (strings.Split s Separator) as [|h t] eqn:Es.
    + now destruct (Split_nonempty Separator s).
    + change (strings.Join ("" :: h :: t) "/") with ("" +:+ "/" +:+ strings.Join (h :: t) "/").
      now rewrite IH.
  - destruct (strings.Split s Separator) as [|h t] eqn:Es.
    + now destruct (Split_nonempty Separator s).
    + destruct t as [|h' t].
      * simpl in *. now rewrite IH.
      * change (strings.Join (String c h :: h' :: t) "/")
          with (String c h +:+ "/" +:+ strings.Join (h' :: t) "/").
        change (strings.Join (h :: h' :: t) "/")
          with (h +:+ "/" +:+ strings.Join (h' :: t) "/") in IH.
        now rewrite append_cons, IH.
Qed.

(** Joining a directory and a clean relative path is joining the directory
    and the components of the path. *)
Lemma Join_components dir p :
  forallb plain (strings.Split p Separator) = true ->
  Join [dir; p] = Join (dir :: strings.Split p Separator).
Proof.
  intros Hpl. pose proof (Join_Split p) as Hp.
  destruct (strings.Split p Separator) as [|e rest] eqn:Es.
  { now destruct (Split_nonempty Separator p). }
  simpl in Hpl. apply andb_true_iff in Hpl as [He _].
  destruct (plain_clean _ He) as (E1 & _).
  assert (Hpne : String.eqb p "" = false).
  { apply String.eqb_neq. intros ->. simpl in Es. inversion Es; subst. discriminate. }
  change (Join [dir; p])
    with (if String.eqb dir "" then if String.eqb p "" then "" else Clean p
          else Clean (dir +:+ "/" +:+ p)).
  change (Join (dir :: e :: rest))
    with (if String.eqb dir ""
          then if String.eqb e "" then Join rest else Clean (strings.Join (e :: rest) "/")
          else Clean (dir +:+ "/" +:+ strings.Join (e :: rest) "/")).
  now rewrite Hpne, E1, Hp.
Qed.

(** Where the payload of a group with a clean logical path is moved to. *)
Lemma target_path dir p :
  forallb plain (strings.Split p Separator) = true ->
  resolve (Join [dir; p]) = under (resolve dir) (strings.Split p Separator)
  /\ Clean (Join [dir; p]) = Join [dir; p].
Proof.
  intros Hpl. rewrite Join_components by exact Hpl.
  destruct (strings.Split p Separator) as [|e rest] eqn:Es.
  { now destruct (Split_nonempty Separator p). }
  assert (He : plain e = true) by (simpl in Hpl; now apply andb_true_iff in Hpl as [He _]).
  split.
  - now apply resolve_Join.
  - unfold Clean. symmetry. now apply Join_rendered.
Qed.

Lemma render_append_last r elems e s :
  render (r, elems ++ [e]) +:+ s = render (r, elems ++ [e +:+ s]).
Proof.
  destruct elems as [|x elems].
  - destruct r; simpl; [|reflexivity]. now rewrite !append_cons, !append_nil_l.
  - rewrite !render_snoc by discriminate. rewrite append_assoc. now rewrite append_cons.
Qed.

Lemma removelast_last_split (comps : list string) :
  comps <> [] -> comps = removelast comps ++ [List.last comps ""].
Proof. intros H. now apply app_removelast_last. Qed.

(** Where the sidecar of a group with a clean logical path is moved to. *)
Lemma meta_target_path dir p :
  forallb plain (strings.Split p Separator) = true ->
  forallb plain (metaPath (strings.Split p Separator)) = true ->
  resolve (Join [dir; p] +:+ ".meta") = under (resolve dir) (metaPath (strings.Split p Separator))
  /\ Clean (Join [dir; p] +:+ ".meta") = Join [dir; p] +:+ ".meta".
Proof.
  intros Hpl Hmeta. destruct (target_path dir p Hpl) as [Hr Hc].
  set (comps := strings.Split p Separator) in *.
  assert (Hne : comps <> []) by apply Split_nonempty.
  assert (Hrend : Join [dir; p] = render (under (resolve dir) comps)).
  { rewrite <- Hc, <- Hr. reflexivity. }
  unfold under in *. rewrite (removelast_last_split comps Hne) in Hrend.
  rewrite app_assoc in Hrend. rewrite Hrend, render_append_last.
  unfold metaPath. rewrite <- app_assoc.
  assert (Hn : normalLoc ((resolve dir).1, (resolve dir).2
                                            ++ removelast comps ++ [List.last comps "" +:+ ".meta"])
               = true).
  { pose proof (resolve_normalLoc dir) as Hd. unfold normalLoc in *. cbn [fst snd] in *.
    rewrite rev_app_distr.
    assert (G : forall names out, forallb plain names = true ->
                  normalOut (resolve dir).1 out = true ->
                  normalOut (resolve dir).1 (rev names ++ out) = true).
    { intros names. induction names as [|x names IH]; intros out Hx Ho; [exact Ho|].
      simpl in Hx. apply andb_true_iff in Hx as [Hx1 Hx2].
      simpl. rewrite <- app_assoc. apply IH; [exact Hx2|].
      simpl. rewrite (plain_not_dotdot _ Hx1), Hx1. exact Ho. }
    apply G; [exact Hmeta | exact Hd]. }
  split.
  - now apply resolve_render.
  - unfold Clean. now rewrite resolve_render.
Qed.

End TargetPaths.
Section Moves.

Import filepath.

Lemma within_under B q : os.within B (under B q) = true.
Proof. destruct B as [r base]. apply within_app. Qed.

Lemma under_inj B q q' : under B q = under B q' -> q = q'.
Proof. unfold under. intros H. inversion H as [Heq]. now apply app_inv_head in Heq. Qed.

Lemma within_is_under B l :
  os.within B l = true -> l = under B (drop (length (snd B)) (snd l)).
Proof.
  destruct B as [r base], l as [r' els]. unfold os.within, under. cbn [fst snd].
  intros H. apply andb_true_iff in H as [Hr Hp].
  apply Bool.eqb_prop in Hr. apply bool_decide_eq_true in Hp. subst r'.
  f_equal. rewrite <- (take_drop (length base) els) at 1. now rewrite Hp.
Qed.

Lemma within_under_prefix B q comps :
  os.within (under B q) (under B comps) = true -> take (length q) comps = q.
Proof.
  destruct B as [r base]. unfold os.within, under. cbn [fst snd].
  rewrite Bool.eqb_reflx. simpl. intros H. apply bool_decide_eq_true in H.
  rewrite length_app, take_app_ge in H by lia.
  apply app_inv_head in H. now replace (length base + length q - length base) with (length q) in H by lia.
Qed.

Lemma MkdirAll_new path w w1 :
  os.MkdirAll path w = (Ok tt, w1) ->
  forall l, nodes w1 !! l = nodes w !! l
            \/ (os.stat (nodes w) l = None /\ nodes w1 !! l = Some Directory
                /\ os.within l (resolve path) = true).
Proof.
  unfold os.MkdirAll. destruct (String.eqb path ""); [discriminate|].
  destruct (os.mkdir_all _ _ _) as [e|m] eqn:E; [discriminate|].
  intros H; inversion H; subst w1. cbn [nodes called with_nodes] in *.
  intros l. destruct (mkdir_all_new _ _ _ _ E l) as [Hs|(H1 & H2 & H3)]; [now left|].
  right. rewrite rev_involutive in H3. now destruct (resolve path).
Qed.

(** Moving a regular file to a clean path below a directory that exists,
    with no regular file in the way and no directory at the target. *)
Lemma move_below B comps source destination w c :
  os.stat (nodes w) (resolve source) = Some (File c) ->
  Clean destination = destination ->
  resolve destination = under B comps ->
  forallb plain comps = true -> comps <> [] ->
  os.stat (nodes w) B = Some Directory ->
  (forall q c', q <> [] -> q <> comps -> take (length q) comps = q ->
     nodes w !! under B q <> Some (File c')) ->
  nodes w !! under B comps <> Some Directory ->
  exists w',
    moveFile source destination w = (Ok tt, w')
    /\ nodes w' !! under B comps = Some (File c)
    /\ forall l, l <> resolve source -> l <> under B comps ->
         nodes w' !! l = nodes w !! l
         \/ (nodes w !! l = None /\ nodes w' !! l = Some Directory
             /\ exists q, q <> [] /\ q <> comps /\ take (length q) comps = q
                          /\ l = under B q).
Proof.
  intros Hsrc Hclean Hres Hpl Hne HB Hfree Hnd.
  assert (Hcomps : comps = removelast comps ++ [List.last comps ""])
    by now apply removelast_last_split.
  set (init := removelast comps) in *. set (e := List.last comps "") in *.
  assert (He : plain e = true).
  { rewrite Hcomps, forallb_app in Hpl. apply andb_true_iff in Hpl as [_ Hl].
    simpl in Hl. now rewrite andb_true_r in Hl. }
  assert (Hee : String.eqb e ".." = false) by now apply plain_not_dotdot.
  destruct B as [r base].
  assert (HD : under (r, base) comps = (r, (base ++ init) ++ [e])).
  { unfold under. cbn [fst snd]. now rewrite Hcomps at 1; rewrite app_assoc. }
  assert (Hdest : destination = render (r, (base ++ init) ++ [e])).
  { rewrite <- Hclean. unfold Clean. now rewrite Hres, HD. }
  assert (Hnorm : normalLoc (r, (base ++ init) ++ [e]) = true).
  { rewrite <- HD, <- Hres. apply resolve_normalLoc. }
  assert (Hdir : resolve (Dir destination) = (r, base ++ init)).
  { rewrite Hdest. now apply resolve_Dir_render. }
  assert (Hshort : forall q, take (length q) init = q ->
                     q <> comps /\ take (length q) comps = q).
  { intros q Hq. assert (Hlen : length q <= length init).
    { rewrite <- Hq. rewrite length_take. lia. }
    split.
    - intros ->. rewrite Hcomps, length_app in Hlen. simpl in Hlen. lia.
    - rewrite Hcomps, take_app_le by exact Hlen. exact Hq. }
  assert (Hmk : exists w1, os.MkdirAll (Dir destination) w = (Ok tt, w1)).
  { unfold os.MkdirAll.
    assert (Hd : String.eqb (Dir destination) "" = false)
      by (apply String.eqb_neq, Dir_nonempty).
    rewrite Hd, Hdir. cbn [fst snd nodes called]. rewrite rev_app_distr.
    destruct (mkdir_all_below_succeeds r (rev base) (rev init) (nodes w)) as [m1 ->];
      [| |eauto].
    - now rewrite rev_involutive.
    - intros k c' Hk. rewrite rev_app_distr, rev_involutive.
      rewrite length_rev in Hk. rewrite skipn_rev, rev_involutive.
      set (q := take (length init - k) init).
      assert (Hq : take (length q) init = q).
      { unfold q. rewrite length_take, Nat.min_l by lia. reflexivity. }
      destruct (Hshort q Hq) as [Hq1 Hq2].
      apply (Hfree q c'); trivial.
      intros Hnil. apply (f_equal (@length string)) in Hnil.
      unfold q in Hnil. rewrite length_take in Hnil. simpl in Hnil. lia. }
  destruct Hmk as [w1 Hmk].
  assert (Hnd' : os.stat (nodes w) (resolve destination) <> Some Directory).
  { rewrite Hres, HD. unfold os.stat. rewrite implicit_dir_plain by exact Hee.
    now rewrite <- HD. }
  assert (Htot : fst (moveFile source destination w) = Ok tt).
  { apply (moveFile_total _ _ _ c); trivial. now rewrite Hmk. }
  destruct (moveFile source destination w) as [[[]|err] w'] eqn:Emv; [|discriminate].
  destruct (moveFile_outcome _ _ _ _ _ Hsrc Emv) as (w1' & Hmk' & Hdst & Hframe & _).
  rewrite Hmk in Hmk'. inversion Hmk'; subst w1'. clear Hmk'.
  exists w'. split; [reflexivity|]. split.
  { apply stat_File in Hdst. now rewrite Hres in Hdst. }
  intros l Hl1 Hl2. rewrite Hframe by (rewrite ?Hres; assumption).
  destruct (os.within (r, base) l) eqn:Ein.
  - destruct (MkdirAll_new _ _ _ Hmk l) as [Hs|(H1 & H2 & H3)]; [now left|].
    right. split; [now apply stat_None|]. split; [exact H2|].
    rewrite Hdir in H3. pose proof (within_is_under _ _ Ein) as Hl. cbn [snd] in Hl.
    set (q := drop (length base) (snd l)) in *.
    assert (Hq : take (length q) init = q).
    { rewrite Hl in H3. apply (within_under_prefix (r, base) q init). exact H3. }
    destruct (Hshort q Hq) as [Hq1 Hq2].
    exists q. repeat split; trivial.
    intros Hnil. rewrite Hnil in Hl. unfold under in Hl. cbn [fst snd] in Hl.
    rewrite app_nil_r in Hl. subst l. congruence.
  - left. pose proof (MkdirAll_below (Dir destination) (r, base) w HB) as Hb.
    rewrite Hmk in Hb. apply Hb; [|exact Ein].
    rewrite Hdir. apply within_app.
Qed.

End Moves.

Section Reassembly.

Import filepath.

Variables (tempDir outputDir : string) (stage : list string).

Hypothesis Hstage :
  resolve tempDir = under (resolve outputDir) (".tmp_unpack" :: stage).

Lemma reconstructAssets_step asset assets targetDir w :
  eligible asset = true ->
  reconstructAssets (asset :: assets) targetDir w
  = match moveFile (AssetPath asset) (Join [targetDir; PathName asset])
                   (printed ("[INFO] Moving asset: " +:+ PathName asset +:+ nl) w) with
    | (Ok _, w1) =>
        if String.eqb (MetaPath asset) ""
        then reconstructAssets assets targetDir
               (printed ("[INFO] No .meta file found for " +:+ PathName asset +:+ nl) w1)
        else match moveFile (MetaPath asset) (Join [targetDir; PathName asset] +:+ ".meta") w1 with
             | (Ok _, w2) => reconstructAssets assets targetDir w2
             | (Err e, w2) => (Err (Errorf "failed to move meta" e), w2)
             end
    | (Err e, w1) => (Err (Errorf "failed to move asset" e), w1)
    end.
Proof.
  unfold eligible. intros H. apply negb_true_iff in H.
  simpl. rewrite H. simpl.
  unfold bind, wrap, fmt.Printf.
  destruct (moveFile _ _ _) as [[?|?] w1]; [|reflexivity].
  destruct (String.eqb (MetaPath asset) ""); simpl; [reflexivity|].
  now destruct (moveFile _ _ _) as [[?|?] ?].
Qed.

(** A path below the output directory that does not start with the staging
    root is not in the staging directory. *)
Lemma outside_staging q :
  hd "" q <> ".tmp_unpack" -> os.within (resolve tempDir) (under (resolve outputDir) q) = false.
Proof.
  intros Hq. apply not_true_is_false. intros H.
  apply within_is_under in H. rewrite Hstage in H. unfold under in H. cbn [fst snd] in H.
  inversion H as [Heq]. rewrite <- app_assoc in Heq. apply app_inv_head in Heq.
  apply Hq. destruct q as [|x q']; [discriminate Heq|].
  simpl in Heq. now inversion Heq.
Qed.

Lemma groupFile_staged G f : os.within (resolve tempDir) (groupFile tempDir G f) = true.
Proof. apply (within_under (resolve tempDir) [G; f]). Qed.

Lemma groupFile_inj G f G' f' :
  groupFile tempDir G f = groupFile tempDir G' f' -> G = G' /\ f = f'.
Proof.
  intros H. apply (under_inj (resolve tempDir) [G; f] [G'; f']) in H.
  now inversion H.
Qed.

Lemma properPrefix_head q t : properPrefix q t -> hd "" q = hd "" t.
Proof.
  intros (Hne & _ & Htake). destruct q as [|x q]; [contradiction|].
  destruct t as [|y t]; [discriminate|]. simpl in Htake. now inversion Htake.
Qed.

Lemma cleanPath_parts t :
  cleanPath t = true -> forallb plain t = true /\ hd "" t <> ".tmp_unpack".
Proof.
  unfold cleanPath. intros H. apply andb_true_iff in H as [H H2].
  apply andb_true_iff in H as [H1 _]. split; [exact H1|].
  apply negb_true_iff, String.eqb_neq in H2. exact H2.
Qed.

Lemma unrelated_parts a b :
  unrelated a b = true -> take (length a) b <> a /\ take (length b) a <> b.
Proof.
  unfold unrelated. intros H. apply andb_true_iff in H as [H1 H2].
  apply negb_true_iff, bool_decide_eq_false in H1.
  apply negb_true_iff, bool_decide_eq_false in H2. now split.
Qed.

Lemma unrelated_ne a b : unrelated a b = true -> a <> b.
Proof.
  intros H ->. apply unrelated_parts in H as [H _]. apply H. apply firstn_all.
Qed.

Lemma unrelated_prefix a b q :
  unrelated a b = true -> properPrefix q a -> q <> b.
Proof.
  intros H (_ & _ & Hq) ->. apply unrelated_parts in H as [_ H]. now apply H.
Qed.

Lemma placed_refl top m : placed top [] [] m m.
Proof. intros l _ _. now left. Qed.

Lemma placed_same top srcs ts m m1 m' :
  m1 = m -> placed top srcs ts m1 m' -> placed top srcs ts m m'.
Proof. now intros ->. Qed.

Lemma placed_trans top s1 s2 ts1 ts2 m m1 m2 :
  placed top s1 ts1 m m1 -> placed top s2 ts2 m1 m2 ->
  placed top (s1 ++ s2) (ts1 ++ ts2) m m2.
Proof.
  intros H1 H2 l Hs Ht.
  assert (Hs1 : ~ In l s1) by (intros H; apply Hs, in_or_app; now left).
  assert (Hs2 : ~ In l s2) by (intros H; apply Hs, in_or_app; now right).
  assert (Ht1 : forall t, In t ts1 -> l <> under top t)
    by (intros t H; apply Ht, in_or_app; now left).
  assert (Ht2 : forall t, In t ts2 -> l <> under top t)
    by (intros t H; apply Ht, in_or_app; now right).
  destruct (H1 l Hs1 Ht1) as [E1|(E1 & D1 & t & q & Hin & Hq & Hl)];
    destruct (H2 l Hs2 Ht2) as [E2|(E2 & D2 & t' & q' & Hin' & Hq' & Hl')].
  - left. congruence.
  - right. split; [congruence|]. split; [exact D2|].
    exists t', q'. repeat split; trivial; try apply Hq'. apply in_or_app. now right.
  - right. split; [exact E1|]. split; [congruence|].
    exists t, q. repeat split; trivial; try apply Hq. apply in_or_app. now left.
  - congruence.
Qed.

Lemma placed_file top srcs ts m m' l n :
  placed top srcs ts m m' -> ~ In l srcs -> (forall t, In t ts -> l <> under top t) ->
  m !! l = Some n -> m' !! l = Some n.
Proof.
  intros H Hs Ht Hl. destruct (H l Hs Ht) as [E|(E & _)]; congruence.
Qed.

Lemma placed_stat_dir top srcs ts m m' l :
  placed top srcs ts m m' -> ~ In l srcs -> (forall t, In t ts -> l <> under top t) ->
  os.stat m l = Some Directory -> os.stat m' l = Some Directory.
Proof.
  unfold os.stat. intros H Hs Ht. destruct (os.implicit_dir l); [trivial|].
  intros Hl. destruct (H l Hs Ht) as [E|(E & D & _)]; congruence.
Qed.

(** A target that is unrelated to the targets of the files placed stays
    vacant. *)
Lemma placed_vacant srcs ts m m' t' :
  placed (resolve outputDir) srcs ts m m' ->
  (forall s, In s srcs -> os.within (resolve tempDir) s = true) ->
  hd "" t' <> ".tmp_unpack" -> t' <> [] ->
  (forall t, In t ts -> unrelated t t' = true) ->
  vacant (resolve outputDir) t' m -> vacant (resolve outputDir) t' m'.
Proof.
  intros H Hsrc Hhd Hne Hun [Hnone Hpre].
  assert (Hout : forall q, hd "" q = hd "" t' -> ~ In (under (resolve outputDir) q) srcs).
  { intros q Hq Hin. apply Hsrc in Hin. rewrite outside_staging in Hin; [discriminate|].
    now rewrite Hq. }
  split.
  - destruct (H (under (resolve outputDir) t')) as [E|(_ & _ & t & q & Hin & Hq & Hl)].
    + now apply Hout.
    + intros t Hin Heq. apply under_inj in Heq. subst t.
      apply (unrelated_ne _ _ (Hun _ Hin)). reflexivity.
    + congruence.
    + apply under_inj in Hl. subst q.
      now destruct (unrelated_prefix _ _ _ (Hun _ Hin) Hq).
  - intros q c Hq Hfile.
    destruct (in_dec (fun a b : list string => decide (a = b)) q ts) as [Hin|Hno].
    + destruct Hq as (_ & _ & Hq). destruct (unrelated_parts _ _ (Hun _ Hin)) as [Hu _].
      now apply Hu.
    + destruct (H (under (resolve outputDir) q)) as [E|(_ & D & _)].
      * apply Hout. now apply properPrefix_head.
      * intros t Hin Heq. apply under_inj in Heq. apply Hno. now subst q.
      * rewrite E in Hfile. now apply (Hpre q c).
      * congruence.
Qed.

Lemma placed_more top srcs srcs' ts m m' :
  (forall l, In l srcs -> In l srcs') ->
  placed top srcs ts m m' -> placed top srcs' ts m m'.
Proof. intros Hsub H l Hs Ht. apply H; [|exact Ht]. intros Hin. now apply Hs, Hsub. Qed.

Lemma under_nil top : under top [] = top.
Proof. destruct top. unfold under. cbn [fst snd]. now rewrite app_nil_r. Qed.

Lemma under_nonempty top t : t <> [] -> top <> under top t.
Proof.
  intros Hne H. rewrite <- (under_nil top) in H at 1. apply under_inj in H. now subst t.
Qed.

Lemma output_not_staged : os.within (resolve tempDir) (resolve outputDir) = false.
Proof.
  rewrite <- (under_nil (resolve outputDir)). apply outside_staging. discriminate.
Qed.

(** Moving a staged file to a vacant target below the output directory. *)
Lemma move_target G f dest t data w :
  plain G = true -> plain f = true ->
  resolve dest = under (resolve outputDir) t -> Clean dest = dest ->
  forallb plain t = true -> t <> [] ->
  os.stat (nodes w) (resolve outputDir) = Some Directory ->
  nodes w !! groupFile tempDir G f = Some (File (Plain data)) ->
  vacant (resolve outputDir) t (nodes w) ->
  exists w',
    moveFile (stagedPath tempDir G f) dest w = (Ok tt, w')
    /\ nodes w' !! under (resolve outputDir) t = Some (File (Plain data))
    /\ placed (resolve outputDir) [groupFile tempDir G f] [t] (nodes w) (nodes w').
Proof.
  intros HG Hf Hres Hclean Hpl Hne HO Hfile [Hnone Hpre].
  destruct (move_below (resolve outputDir) t (stagedPath tempDir G f) dest w (Plain data))
    as (w' & Hrun & Hat & Hframe); trivial.
  - exact (staged_file_held tempDir G f data w HG Hf Hfile).
  - intros q c' H1 H2 H3. apply Hpre. now repeat split.
  - rewrite Hnone. discriminate.
  - exists w'. split; [exact Hrun|]. split; [exact Hat|].
    intros l Hs Ht. destruct (Hframe l) as [E|(E & D & q & H1 & H2 & H3 & Hl)].
    + rewrite resolve_stagedPath by assumption. intros ->. apply Hs. now left.
    + apply Ht. now left.
    + now left.
    + right. repeat split; trivial. exists t, q. repeat split; trivial. now left.
Qed.

Lemma plain_components_nonempty p :
  forallb plain (strings.Split p Separator) = true -> p <> "".
Proof. intros H ->. discriminate H. Qed.

(** The record of a group whose staged files exist and whose targets are
    vacant: the payload and the sidecar are moved to their targets. *)
Lemma reassemble_group g rs w :
  plain (gid g) = true ->
  Forall (fun t => cleanPath t = true) (targetsOf g) ->
  apart (targetsOf g) = true ->
  os.stat (nodes w) (resolve outputDir) = Some Directory ->
  nodes w !! groupFile tempDir (gid g) "asset" = Some (File (Plain (payload g))) ->
  (forall meta, sidecar g = Some meta ->
     nodes w !! groupFile tempDir (gid g) "asset.meta" = Some (File (Plain meta))) ->
  (forall t, In t (targetsOf g) -> vacant (resolve outputDir) t (nodes w)) ->
  exists w',
    reconstructAssets (recordOf tempDir g :: rs) outputDir w
    = reconstructAssets rs outputDir w'
    /\ reproduced (resolve outputDir) [g] w'
    /\ placed (resolve outputDir) (stagedFiles tempDir [g]) (targetsOf g) (nodes w) (nodes w').
Proof.
  intros HG Hclean Hapart HO Hasset Hmeta Hvac.
  set (p := string_of_list_byte (logical g)).
  set (t := logicalPath g) in *.
  assert (Ht : cleanPath t = true).
  { apply Forall_forall with (x := t) in Hclean; [exact Hclean|]. now left. }
  destruct (cleanPath_parts _ Ht) as [Hpl Hhd].
  assert (Hne : t <> []) by apply Split_nonempty.
  assert (Hp : p <> "") by now apply plain_components_nonempty.
  assert (Hel : eligible (recordOf tempDir g) = true).
  { unfold eligible, recordOf. cbn [PathName AssetPath]. fold p.
    apply negb_true_iff, orb_false_iff. split; apply String.eqb_neq; [exact Hp|].
    now apply stagedPath_nonempty. }
  rewrite (reconstructAssets_step _ _ _ _ Hel).
  unfold recordOf at 1 2 3 4 5. cbn [PathName AssetPath MetaPath]. fold p.
  destruct (target_path outputDir p Hpl) as [Hres Hcl]. fold t in Hres.
  set (w0 := printed _ w).
  destruct (move_target (gid g) "asset" (Join [outputDir; p]) t (payload g) w0)
    as (w1 & Hrun1 & Hat1 & Hpl1); trivial.
  { apply Hvac. now left. }
  rewrite Hrun1.
  assert (Hown : placed (resolve outputDir) (stagedFiles tempDir [g]) [t] (nodes w) (nodes w1)).
  { apply (placed_more _ [groupFile tempDir (gid g) "asset"]); [|exact Hpl1].
    intros l [<-|[]]. now left. }
  unfold targetsOf in *. fold t in Hvac, Hclean, Hapart |- *.
  destruct (sidecar g) as [meta|] eqn:Eside.
  - set (tm := metaPath t) in *.
    assert (Htm : cleanPath tm = true).
    { apply Forall_forall with (x := tm) in Hclean; [exact Hclean|]. right. now left. }
    destruct (cleanPath_parts _ Htm) as [Hplm Hhdm].
    assert (Hnem : tm <> []) by (unfold tm, metaPath; apply not_eq_sym, app_cons_not_nil).
    assert (Hun : unrelated t tm = true).
    { cbn [apart forallb] in Hapart. apply andb_true_iff in Hapart as [Hapart _].
      now apply andb_true_iff in Hapart as [Hapart _]. }
    destruct (meta_target_path outputDir p Hpl Hplm) as [Hresm Hclm].
    assert (Hsm : stagedPath tempDir (gid g) "asset.meta" <> "") by now apply stagedPath_nonempty.
    apply String.eqb_neq in Hsm. unfold recordOf. rewrite Eside.
    cbn [PathName AssetPath MetaPath]. fold p. rewrite Hsm.
    assert (Hns : forall q, hd "" q <> ".tmp_unpack" -> forall G f,
                    ~ In (under (resolve outputDir) q) [groupFile tempDir G f]).
    { intros q Hq G f [Heq|[]]. pose proof (groupFile_staged G f) as Hin.
      rewrite Heq, outside_staging in Hin; [discriminate | exact Hq]. }
    destruct (move_target (gid g) "asset.meta" (Join [outputDir; p] +:+ ".meta") tm meta w1)
      as (w2 & Hrun2 & Hat2 & Hpl2); trivial.
    + apply (placed_stat_dir _ _ _ _ _ _ Hpl1); trivial.
      * intros [Heq|[]]. pose proof (groupFile_staged (gid g) "asset") as Hin.
        rewrite Heq, output_not_staged in Hin. discriminate.
      * intros t' [<-|[]]. now apply under_nonempty.
    + apply (placed_file _ _ _ _ _ _ _ Hpl1).
      * intros [Heq|[]]. apply groupFile_inj in Heq as [_ Heq]. discriminate.
      * intros t' [<-|[]] Heq. pose proof (groupFile_staged (gid g) "asset.meta") as Hin.
        rewrite Heq, outside_staging in Hin; [discriminate | exact Hhd].
      * now apply Hmeta.
    + apply (placed_vacant _ _ _ _ _ Hpl1); trivial.
      * intros s [<-|[]]. apply groupFile_staged.
      * intros t' [<-|[]]. exact Hun.
      * apply Hvac. right. now left.
    + rewrite Hrun2. exists w2. split; [reflexivity|]. split.
      * constructor; [|constructor]. fold t. split.
        -- apply (placed_file _ _ _ _ _ _ _ Hpl2); trivial.
           ++ now apply Hns.
           ++ intros t' [<-|[]] Heq. apply under_inj in Heq.
              now apply (unrelated_ne _ _ Hun).
        -- intros meta' Hs. rewrite Eside in Hs. inversion Hs; subst meta'. exact Hat2.
      * exact (placed_trans _ _ _ _ _ _ _ _ Hpl1 Hpl2).
  - unfold recordOf. rewrite Eside. cbn [PathName AssetPath MetaPath]. fold p.
    rewrite String.eqb_refl. eexists. split; [reflexivity|]. split.
    + constructor; [|constructor]. fold t. split; [exact Hat1|].
      intros meta Hs. rewrite Eside in Hs. discriminate.
    + exact Hown.
Qed.

Lemma apart_app a b :
  apart (a ++ b) = true ->
  apart a = true /\ apart b = true
  /\ forall x y, In x a -> In y b -> unrelated x y = true.
Proof.
  induction a as [|x a IH]; intros H.
  - repeat split; trivial. intros ? ? [].
  - cbn [app apart] in H. apply andb_true_iff in H as [Hx Hrest].
    rewrite forallb_app in Hx. apply andb_true_iff in Hx as [Hxa Hxb].
    destruct (IH Hrest) as (Ha & Hb & Hab). repeat split; trivial.
    + cbn [apart]. now rewrite Hxa, Ha.
    + intros x' y [<-|Hin] Hy; [|now apply Hab].
      now apply (proj1 (forallb_forall _ _) Hxb).
Qed.

Lemma stagedFiles_within groups s :
  In s (stagedFiles tempDir groups) -> os.within (resolve tempDir) s = true.
Proof.
  unfold stagedFiles. intros H. apply in_concat in H as (fs & Hfs & Hs).
  apply in_map_iff in Hfs as (g & <- & _).
  destruct Hs as [<-|[<-|[]]]; apply groupFile_staged.
Qed.

Lemma stagedFiles_gid groups G f :
  In (groupFile tempDir G f) (stagedFiles tempDir groups) -> In G (List.map gid groups).
Proof.
  unfold stagedFiles. intros H. apply in_concat in H as (fs & Hfs & Hs).
  apply in_map_iff in Hfs as (g & <- & Hg).
  apply in_map_iff. exists g. split; [|exact Hg].
  destruct Hs as [Heq|[Heq|[]]]; now apply groupFile_inj in Heq as [Heq _].
Qed.

Lemma target_not_staged groups t :
  hd "" t <> ".tmp_unpack" ->
  ~ In (under (resolve outputDir) t) (stagedFiles tempDir groups).
Proof.
  intros Hhd Hin. apply stagedFiles_within in Hin.
  rewrite outside_staging in Hin; [discriminate | exact Hhd].
Qed.

Lemma targetsOf_nonempty g t : In t (targetsOf g) -> t <> [].
Proof.
  unfold targetsOf. intros [<-|Hin]; [apply Split_nonempty|].
  destruct (sidecar g); [|destruct Hin].
  destruct Hin as [<-|[]]. unfold metaPath. apply not_eq_sym, app_cons_not_nil.
Qed.

(** The records of the groups of a package whose staged files exist and
    whose targets are vacant: every file is moved to its target. *)
Lemma reassemble groups : forall w,
  Forall (fun g => plain (gid g) = true) groups ->
  List.NoDup (List.map gid groups) ->
  Forall (fun t => cleanPath t = true) (targets groups) ->
  apart (targets groups) = true ->
  os.stat (nodes w) (resolve outputDir) = Some Directory ->
  Forall (fun g =>
            nodes w !! groupFile tempDir (gid g) "asset" = Some (File (Plain (payload g)))
            /\ forall meta, sidecar g = Some meta ->
                 nodes w !! groupFile tempDir (gid g) "asset.meta"
                 = Some (File (Plain meta))) groups ->
  (forall t, In t (targets groups) -> vacant (resolve outputDir) t (nodes w)) ->
  exists w',
    reconstructAssets (List.map (recordOf tempDir) groups) outputDir w = (Ok tt, w')
    /\ reproduced (resolve outputDir) groups w'
    /\ placed (resolve outputDir) (stagedFiles tempDir groups) (targets groups)
              (nodes w) (nodes w').
Proof.
  induction groups as [|g groups IH]; intros w Hplain Hdup Hclean Hapart HO Hstaged Hvac.
  { exists w. split; [reflexivity|]. split; [constructor | apply placed_refl]. }
  inversion Hplain as [|? ? HG Hplain']; subst.
  inversion Hdup as [|? ? Hnotin Hdup']; subst.
  inversion Hstaged as [|? ? [Hasset Hmeta] Hstaged']; subst.
  unfold targets in *. cbn [List.map List.concat] in *.
  apply Forall_app in Hclean as [Hclean1 Hclean2].
  destruct (apart_app _ _ Hapart) as (Hapart1 & Hapart2 & Hcross).
  destruct (reassemble_group g (List.map (recordOf tempDir) groups) w)
    as (w1 & Hrun1 & Hrep1 & Hpl1); trivial.
  { intros t Hin. apply Hvac, in_or_app. now left. }
  assert (Hhd : forall t, In t (targetsOf g) -> hd "" t <> ".tmp_unpack").
  { intros t Hin. apply (proj1 (List.Forall_forall _ _) Hclean1) in Hin.
    now apply cleanPath_parts in Hin. }
  assert (Hhd' : forall t, In t (List.concat (List.map targetsOf groups)) ->
                           hd "" t <> ".tmp_unpack").
  { intros t Hin. apply (proj1 (List.Forall_forall _ _) Hclean2) in Hin.
    now apply cleanPath_parts in Hin. }
  destruct (IH w1) as (w' & Hrun & Hrep & Hpl); trivial.
  - apply (placed_stat_dir _ _ _ _ _ _ Hpl1); trivial.
    + intros Hin. apply stagedFiles_within in Hin. rewrite output_not_staged in Hin.
      discriminate.
    + intros t Hin. apply under_nonempty. now apply (targetsOf_nonempty g).
  - apply List.Forall_forall. intros g' Hg'.
    apply (proj1 (List.Forall_forall _ _) Hstaged') in Hg' as Hfiles. destruct Hfiles as [Ha Hm].
    assert (Hother : forall f, ~ In (groupFile tempDir (gid g') f) (stagedFiles tempDir [g])).
    { intros f Hin. apply stagedFiles_gid in Hin. destruct Hin as [Heq|[]].
      apply Hnotin. rewrite Heq. now apply List.in_map. }
    assert (Hnt : forall f t, In t (targetsOf g) ->
                    groupFile tempDir (gid g') f <> under (resolve outputDir) t).
    { intros f t Hin Heq. pose proof (groupFile_staged (gid g') f) as Hw.
      rewrite Heq, outside_staging in Hw; [discriminate | now apply Hhd]. }
    split.
    + apply (placed_file _ _ _ _ _ _ _ Hpl1); trivial. apply Hnt.
    + intros meta Hs. apply (placed_file _ _ _ _ _ _ _ Hpl1); trivial; [apply Hnt|].
      now apply Hm.
  - intros t' Hin. apply (placed_vacant _ _ _ _ _ Hpl1).
    + apply stagedFiles_within.
    + now apply Hhd'.
    + apply in_concat in Hin as (ts & Hts & Hin).
      apply in_map_iff in Hts as (g' & <- & _). now apply (targetsOf_nonempty g').
    + intros t Ht. now apply Hcross.
    + apply Hvac, in_or_app. now right.
  - exists w'. split; [now rewrite Hrun1|]. split.
    + constructor; [|exact Hrep]. inversion Hrep1 as [|? ? [Hp Hm] _]; subst. split.
      * apply (placed_file _ _ _ _ _ _ _ Hpl); trivial.
        -- apply target_not_staged, Hhd. now left.
        -- intros t' Hin Heq. apply under_inj in Heq.
           apply (unrelated_ne _ _ (Hcross _ _ (or_introl eq_refl) Hin)). exact Heq.
      * intros meta Hs. apply (placed_file _ _ _ _ _ _ _ Hpl); [| |now apply Hm].
        -- apply target_not_staged, Hhd. unfold targetsOf. rewrite Hs. right. now left.
        -- intros t' Hin Heq. apply under_inj in Heq.
           assert (Hin0 : In (metaPath (logicalPath g)) (targetsOf g))
             by (unfold targetsOf; rewrite Hs; right; now left).
           apply (unrelated_ne _ _ (Hcross _ _ Hin0 Hin)). exact Heq.
    + exact (placed_trans _ _ _ _ _ _ _ _ Hpl1 Hpl).
Qed.

End Reassembly.

Section TempNames.

Import filepath.

Lemma cut_append_none (sep : ascii) (a b : string) :
  strings.cut sep a = None -> strings.cut sep b = None -> strings.cut sep (a +:+ b) = None.
Proof.
  induction a as [|c a IH]; intros Ha Hb; [now rewrite append_nil_l|].
  rewrite append_cons. simpl in *. destruct (Ascii.eqb c sep); [discriminate|].
  destruct (strings.cut sep a) as [[x y]|]; [discriminate|]. now rewrite IH.
Qed.

Lemma digits_unseparated (d : Decimal.uint) :
  strings.cut Separator (NilEmpty.string_of_uint d) = None.
Proof. induction d; simpl; try rewrite IHd; reflexivity. Qed.

(** The name [MkdirTemp] draws is a plain name. *)
Lemma temp_name_plain n : plain ("unpack-unitypackage-" +:+ os.Uitoa n) = true.
Proof.
  unfold plain. rewrite cut_append_none; [|reflexivity | apply digits_unseparated].
  rewrite append_cons. reflexivity.
Qed.

Lemma last_char_append (a : string) (c d : ascii) :
  List.last (list_ascii_of_string (a +:+ String c "")) d = c.
Proof.
  induction a as [|x a IH]; [reflexivity|]. rewrite append_cons.
  cbn [list_ascii_of_string]. destruct (list_ascii_of_string (a +:+ String c "")) eqn:E.
  - destruct a; discriminate E.
  - exact IH.
Qed.

Lemma render_ends_with r up e : exists x, render (r, up ++ [e]) = x +:+ e.
Proof.
  destruct up as [|u up].
  - destruct r; [exists "/" | exists ""]; reflexivity.
  - rewrite render_snoc by discriminate. exists (render (r, u :: up) +:+ "/").
    now rewrite append_assoc.
Qed.

(** The staging root does not end with a separator: a name is added to it
    after one. *)
Lemma joinPath_staging_root outputDir name :
  os.joinPath (Join [outputDir; ".tmp_unpack"]) name
  = Join [outputDir; ".tmp_unpack"] +:+ String Separator name.
Proof.
  assert (Hp : plain ".tmp_unpack" = true) by reflexivity.
  rewrite (Join_rendered outputDir ".tmp_unpack" [] Hp).
  rewrite resolve_Join by (discriminate || reflexivity).
  destruct (render_ends_with (fst (resolve outputDir)) (snd (resolve outputDir)) ".tmp_unpack")
    as [x ->].
  unfold os.joinPath.
  change (x +:+ ".tmp_unpack") with (x +:+ (".tmp_unpac" +:+ String "k" "")).
  rewrite <- append_assoc, last_char_append. reflexivity.
Qed.

(** [MkdirTemp] in a directory that does not hold the name drawn first. *)
Lemma MkdirTemp_first dir r up w :
  dir <> "" -> resolve dir = (r, up) ->
  os.joinPath dir "unpack-unitypackage-" = dir +:+ String Separator "unpack-unitypackage-" ->
  os.stat (nodes w) (r, up) = Some Directory ->
  nodes w !! ((r, up ++ ["unpack-unitypackage-" +:+ os.Uitoa (hd 0 (entropy w))]) : loc) = None ->
  exists tempDir w',
    os.MkdirTemp dir "unpack-unitypackage-*" w = (Ok tempDir, w')
    /\ resolve tempDir = (r, up ++ ["unpack-unitypackage-" +:+ os.Uitoa (hd 0 (entropy w))])
    /\ nodes w'
       = <[((r, up ++ ["unpack-unitypackage-" +:+ os.Uitoa (hd 0 (entropy w))]) : loc)
           := Directory]> (nodes w).
Proof.
  intros Hd Hres Hjoin Hdir Hfree.
  set (e := "unpack-unitypackage-" +:+ os.Uitoa (hd 0 (entropy w))) in *.
  assert (He : plain e = true) by apply temp_name_plain.
  assert (Hee : String.eqb e ".." = false) by now apply plain_not_dotdot.
  assert (Hname : resolve (dir +:+ String Separator e) = (r, up ++ [e])).
  { change e with (strings.Join [e] "/"). rewrite resolve_append; trivial.
    - now rewrite Hres.
    - discriminate.
    - simpl. now rewrite He. }
  unfold os.MkdirTemp.
  change (os.prefixAndSuffix "unpack-unitypackage-*") with ("unpack-unitypackage-", Some "").
  cbv beta iota zeta. change (default "" (Some "")) with "".
  cbn [nodes entropy called]. rewrite Hjoin.
  change (100 * 100) with (S (99 + 99 * 100)).
  unfold os.mkdir_temp; fold os.mkdir_temp.
  replace ((dir +:+ String Separator "unpack-unitypackage-")
           +:+ os.Uitoa (hd 0 (entropy w)) +:+ "")
    with (dir +:+ String Separator e).
  2:{ rewrite append_nil_r, append_assoc. now rewrite append_cons. }
  unfold os.mkdir.
  assert (Hn : String.eqb (dir +:+ String Separator e) "" = false).
  { destruct dir; [congruence|]. now rewrite append_cons. }
  rewrite Hn, Hname, parent_plain by exact Hee. rewrite Hdir.
  unfold os.stat at 1. rewrite implicit_dir_plain by exact Hee. rewrite Hfree.
  eexists _, _. split; [reflexivity|]. split; [exact Hname | reflexivity].
Qed.

End TempNames.

Section FreshRun.

Import filepath.

Lemma distinct_NoDup names : distinct names = true -> List.NoDup names.
Proof.
  induction names as [|n names IH]; intros H; [constructor|].
  cbn [distinct] in H. apply andb_true_iff in H as [H1 H2].
  constructor; [|now apply IH].
  intros Hin. apply negb_true_iff in H1.
  assert (Hex : existsb (String.eqb n) names = true).
  { apply existsb_exists. exists n. split; [exact Hin | apply String.eqb_refl]. }
  congruence.
Qed.

(** Extracting the archive of a sequence of groups into a staging directory
    that holds nothing of the groups. *)
Lemma extractTarGz_archive srcFile tempDir groups w :
  Forall (fun g => plain (gid g) = true) groups ->
  List.NoDup (List.map gid groups) ->
  os.stat (nodes w) (resolve tempDir) = Some Directory ->
  (forall g l, In g groups -> inGroup tempDir (gid g) l -> nodes w !! l = None) ->
  os.stat (nodes w) (resolve srcFile) = Some (File (Package (archiveOf groups) EndOfArchive)) ->
  exists w',
    extractTarGz srcFile tempDir w = (Ok (List.map (recordOf tempDir) groups), w')
    /\ Forall (fun g =>
                 nodes w' !! groupFile tempDir (gid g) "asset"
                 = Some (File (Plain (payload g)))
                 /\ forall meta, sidecar g = Some meta ->
                      nodes w' !! groupFile tempDir (gid g) "asset.meta"
                      = Some (File (Plain meta))) groups
    /\ (forall l, (forall g, In g groups -> ~ inGroup tempDir (gid g) l) ->
                  nodes w' !! l = nodes w !! l).
Proof.
  intros Hplain Hdup HT Hempty Hsrc.
  unfold extractTarGz, bind, wrap, defer, ret, fmt.Printf, os.Open, gzip.NewReader.
  cbn [nodes called printed].
  destruct (String.eqb srcFile "") eqn:Es.
  { apply String.eqb_eq in Es. subst srcFile. vm_compute in Hsrc. discriminate Hsrc. }
  rewrite Hsrc. cbn [nodes called printed fst snd]. rewrite Hsrc. cbn [fst snd].
  set (w0 := called (CallOpen srcFile) (printed _ w)).
  destruct (extract_archive tempDir groups [] w0 Hplain Hdup HT Hempty)
    as (w1 & Hrun & Hfiles & Hframe).
  rewrite Hrun. cbn [app].
  eexists. split; [reflexivity|]. split; [exact Hfiles | exact Hframe].
Qed.

Lemma within_antisym a b : os.within a b = true -> os.within b a = true -> a = b.
Proof.
  destruct a as [r elems], b as [r' elems']. unfold os.within. cbn [fst snd].
  intros H1 H2. apply andb_true_iff in H1 as [Hr H1], H2 as [_ H2].
  apply Bool.eqb_prop in Hr. apply bool_decide_eq_true in H1, H2. subst r'.
  f_equal. pose proof (f_equal (@length string) H1) as L1.
  pose proof (f_equal (@length string) H2) as L2. rewrite length_take in L1, L2.
  rewrite <- H1. rewrite take_ge by lia. reflexivity.
Qed.

Lemma below_under top q : q <> [] -> below top (under top q).
Proof.
  intros Hq. split; [apply within_under|]. now apply not_eq_sym, under_nonempty.
Qed.

Lemma below_not_above top l : below top l -> os.within l top = false.
Proof.
  intros [Hin Hne]. apply not_true_is_false. intros H. apply Hne.
  now apply within_antisym.
Qed.

Lemma lookup_filter_outside (m : gmap loc node) top l :
  os.within top l = false ->
  filter (fun kv => os.within top (fst kv) = false) m !! l = m !! l.
Proof.
  intros Hl. destruct (m !! l) as [n|] eqn:E.
  - apply map_lookup_filter_Some. now split.
  - apply map_lookup_filter_None. now left.
Qed.

Lemma lookup_filter_inside (m : gmap loc node) top l :
  os.within top l = true ->
  filter (fun kv => os.within top (fst kv) = false) m !! l = None.
Proof.
  intros Hl. apply map_lookup_filter_None. right. intros n _. cbn [fst]. congruence.
Qed.

(** Setting up the staging directory in a fresh output directory. *)
Lemma staging_setup outputDir w :
  fst (os.MkdirAll outputDir w) = Ok tt ->
  (forall l, below (resolve outputDir) l -> nodes w !! l = None) ->
  exists w1 w2 w3 tempDir name,
    os.MkdirAll outputDir w = (Ok tt, w1)
    /\ os.MkdirAll (Join [outputDir; ".tmp_unpack"]) w1 = (Ok tt, w2)
    /\ os.MkdirTemp (Join [outputDir; ".tmp_unpack"]) "unpack-unitypackage-*" w2
       = (Ok tempDir, w3)
    /\ plain name = true
    /\ resolve tempDir = under (resolve outputDir) [".tmp_unpack"; name]
    /\ os.stat (nodes w1) (resolve outputDir) = Some Directory
    /\ (forall l, nodes w1 !! l = nodes w !! l
                  \/ (nodes w !! l = None /\ nodes w1 !! l = Some Directory
                      /\ os.within l (resolve outputDir) = true))
    /\ nodes w3 = <[under (resolve outputDir) [".tmp_unpack"; name] := Directory]>
                    (<[under (resolve outputDir) [".tmp_unpack"] := Directory]> (nodes w1)).
Proof.
  intros Hmk Hfresh.
  destruct (os.MkdirAll outputDir w) as [[[]|e1] w1] eqn:E1; [|discriminate].
  destruct (MkdirAll_made _ _ _ E1) as [HO Habove].
  assert (Hnew : forall l, nodes w1 !! l = nodes w !! l
                   \/ (nodes w !! l = None /\ nodes w1 !! l = Some Directory
                       /\ os.within l (resolve outputDir) = true)).
  { intros l. destruct (MkdirAll_new _ _ _ E1 l) as [E|(Hn & Hd & Hin)]; [now left|].
    right. split; [now apply stat_None | now split]. }
  assert (Hfresh1 : forall l, below (resolve outputDir) l -> nodes w1 !! l = None).
  { intros l Hl. rewrite Habove by now apply below_not_above. now apply Hfresh. }
  destruct (resolve outputDir) as [r up] eqn:EO.
  assert (Hroot : resolve (Join [outputDir; ".tmp_unpack"]) = (r, up ++ [".tmp_unpack"])).
  { rewrite resolve_Join by (discriminate || reflexivity). now rewrite EO. }
  destruct (staging_root_removable outputDir) as [Hne _].
  destruct (MkdirAll_child (Join [outputDir; ".tmp_unpack"]) r up ".tmp_unpack" w1)
    as (w2 & E2 & Hn2 & _); trivial.
  { left. apply Hfresh1. apply (below_under (r, up) [".tmp_unpack"]). discriminate. }
  set (name := "unpack-unitypackage-" +:+ os.Uitoa (hd 0 (entropy w2))).
  destruct (MkdirTemp_first (Join [outputDir; ".tmp_unpack"]) r (up ++ [".tmp_unpack"]) w2)
    as (tempDir & w3 & E3 & Hres3 & Hn3); trivial.
  { apply joinPath_staging_root. }
  { unfold os.stat. rewrite implicit_dir_plain by reflexivity.
    rewrite Hn2. apply lookup_insert_eq. }
  { fold name. rewrite Hn2, lookup_insert_ne.
    - rewrite <- app_assoc. apply Hfresh1.
      apply (below_under (r, up) ([".tmp_unpack"] ++ [name])). discriminate.
    - intros Heq. inversion Heq as [H]. rewrite <- (app_nil_r (up ++ [".tmp_unpack"])) in H at 1.
      apply app_inv_head in H. discriminate. }
  exists w1, w2, w3, tempDir, name. fold name in Hres3, Hn3.
  split; [reflexivity|]. split; [exact E2|]. split; [exact E3|].
  split; [apply temp_name_plain|].
  unfold under. cbn [fst snd].
  rewrite <- app_assoc in Hres3, Hn3. cbn [app] in Hres3, Hn3.
  split; [exact Hres3|]. split; [exact HO|]. split; [exact Hnew|].
  now rewrite Hn3, Hn2.
Qed.

Lemma unpackable_parts groups :
  unpackable groups = true ->
  Forall (fun g => plain (gid g) = true) groups
  /\ List.NoDup (List.map gid groups)
  /\ Forall (fun t => cleanPath t = true) (targets groups)
  /\ apart (targets groups) = true.
Proof.
  unfold unpackable. intros H.
  apply andb_true_iff in H as [H Hapart]. apply andb_true_iff in H as [H Hclean].
  apply andb_true_iff in H as [Hplain Hdist].
  split; [|split; [|split]]; trivial.
  - apply List.Forall_forall. intros g Hg.
    apply (proj1 (forallb_forall _ _) Hplain) in Hg.
    now apply andb_true_iff in Hg as [Hg _].
  - now apply distinct_NoDup.
  - apply List.Forall_forall. intros x Hx.
    now apply (proj1 (forallb_forall _ _) Hclean).
Qed.

Lemma targets_nonempty groups t : In t (targets groups) -> t <> [].
Proof.
  unfold targets. intros Hin. apply in_concat in Hin as (ts & Hts & Hin).
  apply in_map_iff in Hts as (g & <- & _). now apply (targetsOf_nonempty g).
Qed.

End FreshRun.

(** X16. Unpacking a package into a fresh output directory reproduces the
    package.  The archive holds its groups one after the other; the
    identifiers of the groups are distinct plain names; the logical paths,
    and with them the paths of the sidecars, are clean relative paths that do
    not lead into the staging root, and none of them is another one or lies
    below it; no identifier and no path holds a NUL byte.  The names of the
    input file and of the output directory are clean paths without NUL
    bytes.  Nothing is in the output directory, which can be created.
    Then the run ends with exit code 0; below the output directory the
    payload of every group is at the group's logical path and its sidecar
    beside it with [.meta] appended, with the bytes of the archive; and
    every other path of the tree is as before the run, or is a new
    directory: the output directory, a directory on the way to it, or a
    directory on the way to one of the files. *)
Theorem unpacking_reproduces_the_package prog inputFile outputDir groups w :
  noNul inputFile = true -> noNul outputDir = true ->
  filepath.Clean inputFile = inputFile -> filepath.Clean outputDir = outputDir ->
  unpackable groups = true ->
  os.stat (nodes w) (filepath.resolve inputFile)
  = Some (File (Package (archiveOf groups) EndOfArchive)) ->
  freshOutput w outputDir ->
  fst (main [prog; inputFile; outputDir] w) = 0
  /\ reproduced (filepath.resolve outputDir) groups (snd (main [prog; inputFile; outputDir] w))
  /\ forall l,
       (forall t, In t (targets groups) -> l <> under (filepath.resolve outputDir) t) ->
       nodes (snd (main [prog; inputFile; outputDir] w)) !! l = nodes w !! l
       \/ (nodes w !! l = None
           /\ nodes (snd (main [prog; inputFile; outputDir] w)) !! l = Some Directory
           /\ (os.within l (filepath.resolve outputDir) = true
               \/ exists t q, In t (targets groups) /\ properPrefix q t
                              /\ l = under (filepath.resolve outputDir) q)).
Proof.
  intros _ _ _ _ Hun Hsrc [Hmk Hfresh].
  destruct (unpackable_parts _ Hun) as (Hplain & Hdup & Hclean & Hapart).
  set (O := filepath.resolve outputDir) in *.
  set (root := filepath.Join [outputDir; ".tmp_unpack"]).
  unfold main, mainProc.
  change ((length [prog; inputFile; outputDir] <? 2)%nat) with false.
  change (outputDirOf [prog; inputFile; outputDir]) with outputDir.
  change (nth 1 [prog; inputFile; outputDir] "") with inputFile.
  cbv iota. fold root.
  unfold unpackSteps, deferMain, andThen, say, orExit.
  set (w0 := printed _ (printed _ w)).
  assert (Hmk0 : fst (os.MkdirAll outputDir w0) = Ok tt).
  { destruct (ignoresOutput_MkdirAll outputDir w0 w) as [Hr _]; [|now rewrite Hr].
    repeat split. }
  destruct (staging_setup outputDir w0 Hmk0 Hfresh)
    as (w1 & w2 & w3 & tempDir & name & E1 & E2 & E3 & Hname & HT & HO1 & Hnew1 & Hn3).
  fold root in E2, E3. fold O in HT, HO1, Hnew1, Hn3.
  change (nodes w0) with (nodes w) in Hnew1.
  rewrite E1, E2, E3.
  assert (Hroot : filepath.resolve root = under O [".tmp_unpack"]).
  { unfold root. rewrite resolve_Join by (discriminate || reflexivity). reflexivity. }
  assert (Hrootin : forall l, os.within (filepath.resolve tempDir) l = true ->
                              os.within (filepath.resolve root) l = true).
  { intros l Hl. apply (within_trans _ (filepath.resolve tempDir)); [|exact Hl].
    rewrite HT, Hroot. destruct O as [r up]. unfold under. cbn [fst snd].
    change [".tmp_unpack"; name] with ([".tmp_unpack"] ++ [name]).
    rewrite app_assoc. apply within_app. }
  assert (Hout : forall q, hd "" q <> ".tmp_unpack" ->
                           os.within (filepath.resolve root) (under O q) = false).
  { intros q Hq. apply (outside_staging root outputDir []); [exact Hroot | exact Hq]. }
  assert (Hout3 : forall l, os.within (filepath.resolve root) l = false ->
                            nodes w3 !! l = nodes w1 !! l).
  { intros l Hl. rewrite Hn3, !lookup_insert_ne; [reflexivity| |].
    - intros <-. rewrite Hroot, within_refl in Hl. discriminate.
    - intros <-. rewrite <- HT, Hrootin in Hl; [discriminate | apply within_refl]. }
  assert (Hfresh1 : forall l, below O l -> nodes w1 !! l = None).
  { intros l Hl. destruct (Hnew1 l) as [E|(_ & _ & Hin)].
    - rewrite E. now apply Hfresh.
    - rewrite below_not_above in Hin; [discriminate | exact Hl]. }
  assert (Hinside : forall l, os.within (filepath.resolve root) l = true -> below O l).
  { intros l Hl. split.
    - apply (within_trans _ (filepath.resolve root)); [|exact Hl].
      rewrite Hroot. apply within_under.
    - intros ->. rewrite <- (under_nil O), Hout in Hl; discriminate. }
  (* the staging directory *)
  assert (HT3 : os.stat (nodes w3) (filepath.resolve tempDir) = Some Directory).
  { rewrite HT. unfold os.stat, under. cbn [fst snd].
    change [".tmp_unpack"; name] with ([".tmp_unpack"] ++ [name]). rewrite app_assoc.
    rewrite implicit_dir_plain by now apply plain_not_dotdot.
    rewrite Hn3. unfold under. cbn [fst snd].
    change [".tmp_unpack"; name] with ([".tmp_unpack"] ++ [name]). rewrite app_assoc.
    apply lookup_insert_eq. }
  (* the package *)
  assert (Himp : os.implicit_dir (filepath.resolve inputFile) = false).
  { apply (stat_not_Directory (nodes w)). rewrite Hsrc. discriminate. }
  assert (HI1 : nodes w1 !! filepath.resolve inputFile
                = Some (File (Package (archiveOf groups) EndOfArchive))).
  { apply stat_File in Hsrc.
    destruct (Hnew1 (filepath.resolve inputFile)) as [E|(E & _)].
    - rewrite E. exact Hsrc.
    - congruence. }
  assert (HI3 : os.stat (nodes w3) (filepath.resolve inputFile)
                = Some (File (Package (archiveOf groups) EndOfArchive))).
  { unfold os.stat. rewrite Himp, Hout3; [exact HI1|].
    apply not_true_is_false. intros Hin. apply Hinside in Hin.
    rewrite Hfresh1 in HI1 by exact Hin. discriminate. }
  destruct (extractTarGz_archive inputFile tempDir groups w3 Hplain Hdup HT3)
    as (w4 & E4 & Hstaged & Hframe4); [|exact HI3|].
  { intros g l _ Hl. destruct (inGroup_within tempDir _ _ Hl) as [Hin Hne].
    rewrite Hn3, !lookup_insert_ne.
    - apply Hfresh1, Hinside, Hrootin, Hin.
    - intros Heq. rewrite <- Heq, <- Hroot in Hin.
      assert (Heq' : filepath.resolve tempDir = filepath.resolve root).
      { apply within_antisym; [exact Hin|]. apply Hrootin, within_refl. }
      rewrite HT, Hroot in Heq'. apply under_inj in Heq'. discriminate.
    - intros Heq. apply Hne. rewrite HT. now symmetry. }
  rewrite E4.
  assert (Hout4 : forall l, os.within (filepath.resolve root) l = false ->
                            nodes w4 !! l = nodes w1 !! l).
  { intros l Hl. rewrite Hframe4; [now apply Hout3|].
    intros g _ Hg. apply inGroup_within in Hg as [Hin _]. apply Hrootin in Hin. congruence. }
  assert (HO4 : os.stat (nodes w4) O = Some Directory).
  { rewrite <- HO1. apply stat_frame, Hout4. rewrite <- (under_nil O). apply Hout.
    discriminate. }
  assert (Hhd : forall t, In t (targets groups) -> hd "" t <> ".tmp_unpack").
  { intros t Hin. apply (proj1 (List.Forall_forall _ _) Hclean) in Hin.
    now apply cleanPath_parts in Hin. }
  assert (Hvac : forall t, In t (targets groups) -> vacant O t (nodes w4)).
  { intros t Hin. split.
    - rewrite Hout4 by now apply Hout, Hhd.
      apply Hfresh1, below_under. now apply (targets_nonempty groups).
    - intros q c Hq.
      rewrite Hout4 by (apply Hout; rewrite (properPrefix_head _ _ Hq); now apply Hhd).
      rewrite Hfresh1; [discriminate|]. apply below_under, Hq. }
  unfold reconstructStructure, bind, fmt.Printf.
  set (w4' := printed _ w4).
  destruct (reassemble tempDir outputDir [name] HT groups w4')
    as (w5 & E5 & Hrep & Hplaced); trivial.
  rewrite E5. unfold removeTemp.
  destruct (staging_root_removable outputDir) as [Hne Hdot]. fold root in Hne, Hdot.
  rewrite RemoveAll_removes by assumption.
  unfold reproduced in *. cbn [fst snd nodes with_nodes called printed].
  split; [reflexivity|]. split.
  - apply List.Forall_forall. intros g Hg.
    apply (proj1 (List.Forall_forall _ _) Hrep) in Hg as Hfiles. destruct Hfiles as [Hp Hm].
    assert (Hin : forall t, In t (targetsOf g) -> In t (targets groups)).
    { intros t Ht. unfold targets. apply in_concat. exists (targetsOf g).
      split; [now apply List.in_map | exact Ht]. }
    split.
    + rewrite lookup_filter_outside; [exact Hp|]. apply Hout, Hhd, Hin. now left.
    + intros meta Hs. rewrite lookup_filter_outside; [now apply Hm|].
      apply Hout, Hhd, Hin. unfold targetsOf. rewrite Hs. right. now left.
  - intros l Hl. destruct (os.within (filepath.resolve root) l) eqn:Ein.
    + left. rewrite lookup_filter_inside by exact Ein. symmetry.
      apply Hfresh. now apply Hinside.
    + rewrite lookup_filter_outside by exact Ein.
      assert (Hns : ~ In l (stagedFiles tempDir groups)).
      { intros Hin. apply stagedFiles_within in Hin. apply Hrootin in Hin. congruence. }
      destruct (Hplaced l Hns Hl) as [E|(E & D & Hpre)];
        destruct (Hnew1 l) as [E1'|(E1' & D1 & Hin1)];
        cbn [nodes printed] in *; rewrite Hout4 in * by exact Ein.
      * left. congruence.
      * right. split; [exact E1'|]. split; [congruence | now left].
      * right. split; [congruence|]. split; [exact D | now right].
      * congruence.
Qed.

(** X16 at a concrete input: a package of two groups, one of them with a
    sidecar, unpacked into [out]. *)
Lemma unpacking_reproduces_the_package_witness :
  let w := worldWith "Wood.unitypackage" (archiveOf twoGroups) EndOfArchive in
  let run := main ["unpack"; "Wood.unitypackage"; "out"] w in
  noNul "Wood.unitypackage" = true /\ noNul "out" = true
  /\ filepath.Clean "Wood.unitypackage" = "Wood.unitypackage"
  /\ filepath.Clean "out" = "out"
  /\ unpackable twoGroups = true
  /\ os.stat (nodes w) (filepath.resolve "Wood.unitypackage")
     = Some (File (Package (archiveOf twoGroups) EndOfArchive))
  /\ freshOutput w "out"
  /\ fst run = 0
  /\ reproduced (filepath.resolve "out") twoGroups (snd run).
Proof.
  set (w := worldWith "Wood.unitypackage" (archiveOf twoGroups) EndOfArchive).
  assert (H1 : unpackable twoGroups = true) by (vm_compute; reflexivity).
  assert (H2 : os.stat (nodes w) (filepath.resolve "Wood.unitypackage")
               = Some (File (Package (archiveOf twoGroups) EndOfArchive))) by reflexivity.
  assert (H3 : freshOutput w "out").
  { split; [vm_compute; reflexivity|]. intros l [Hin Hne].
    apply lookup_singleton_ne. intros <-. vm_compute in Hin. discriminate Hin. }
  assert (N1 : noNul "Wood.unitypackage" = true) by reflexivity.
  assert (N2 : noNul "out" = true) by reflexivity.
  assert (C1 : filepath.Clean "Wood.unitypackage" = "Wood.unitypackage") by reflexivity.
  assert (C2 : filepath.Clean "out" = "out") by reflexivity.
  cbv zeta. split; [exact N1|]. split; [exact N2|]. split; [exact C1|]. split; [exact C2|].
  split; [exact H1|]. split; [exact H2|]. split; [exact H3|].
  destruct (unpacking_reproduces_the_package "unpack" "Wood.unitypackage" "out" twoGroups w
              N1 N2 C1 C2 H1 H2 H3) as (E1 & E2 & _).
  split; [exact E1 | exact E2].
Defined.
